(** * Similarity search of the meeting assistant (database.py)

    A shallow embedding of the embedding codec ([_serialize_embeddings],
    [_deserialize_embeddings]), of [_cosine_similarity] and of the two
    ranking entry points [search_meetings] and [get_similar_meetings] of
    [DatabaseManager], together with the NumPy, Python and Streamlit
    primitives these methods call.

    Python floats are IEEE 754 binary64 values and NumPy's [float32] items
    are binary32 values; both are carried by [spec_float], the executable
    specification of IEEE arithmetic of the standard library, so that every
    definition below evaluates on concrete inputs. *)

From Stdlib Require Import ZArith List Bool Lia String Ascii.
From Stdlib.Strings Require Import Byte.
From Stdlib Require Import Sorted Permutation.
From Stdlib Require Import SpecFloat.
Import ListNotations.
Local Open Scope Z_scope.

(** ** Python values and outcomes *)

(** The exceptions that can travel through the modelled code.  [str_of_exn]
    is Python's [str(e)]. *)
Inductive exn : Type :=
| ValueError (msg : string)
| TypeError (msg : string)
| Exception (msg : string).

Definition str_of_exn (e : exn) : string :=
  match e with
  | ValueError msg => msg
  | TypeError msg => msg
  | Exception msg => msg
  end.

(** The outcome of evaluating a Python expression: a value, or a raised
    exception. *)
Inductive result (A : Type) : Type :=
| Ok (a : A)
| Raise (e : exn).
Arguments Ok {A} a.
Arguments Raise {A} e.

Definition bind {A B : Type} (r : result A) (k : A -> result B) : result B :=
  match r with
  | Ok a => k a
  | Raise e => Raise e
  end.

Notation "x <- r ;; k" := (bind r (fun x => k))
  (at level 61, r at next level, right associativity).

(** ** Floating point *)

(** A Python [float]: binary64. *)
Definition float : Type := spec_float.

Module Float.

Definition prec : Z := 53.
Definition emax : Z := 1024.

Definition add : float -> float -> float := SFadd prec emax.
Definition mul : float -> float -> float := SFmul prec emax.
Definition div : float -> float -> float := SFdiv prec emax.
Definition sqrt : float -> float := SFsqrt prec emax.

(** [x == y], [x < y] and [x > y] on floats; every comparison with a NaN
    is false. *)
Definition eqb : float -> float -> bool := SFeqb.
Definition ltb : float -> float -> bool := SFltb.
Definition gtb (x y : float) : bool := SFltb y x.
Definition leb : float -> float -> bool := SFleb.

Definition is_nan (x : float) : bool :=
  match x with S754_nan => true | _ => false end.

Definition is_finite (x : float) : bool :=
  match x with
  | S754_zero _ | S754_finite _ _ _ => true
  | _ => false
  end.

(** The literals of the source: [0.0], [0.3], [0.2]; and [1.0]. *)
Definition zero : float := S754_zero false.
Definition lit_0_3 : float := S754_finite false 5404319552844595 (-54).
Definition lit_0_2 : float := S754_finite false 7205759403792794 (-55).
Definition one : float := S754_finite false 4503599627370496 (-52).

End Float.

(** ** NumPy *)

Module np.

(** *** [float32] items *)

(** [np.array(xs, dtype=np.float32)] casts every binary64 item to
    binary32: round to nearest, ties to even, overflow to infinity. *)
Definition to_float32 (x : float) : spec_float :=
  match x with
  | S754_finite s m e => binary_round 24 128 s m e
  | _ => x
  end.

(** [.tolist()] widens every binary32 item to a Python float; the
    conversion is exact, [binary_round] only puts the mantissa in the
    53-bit canonical form. *)
Definition to_float64 (x : spec_float) : float :=
  match x with
  | S754_finite s m e => binary_round 53 1024 s m e
  | _ => x
  end.

Definition sign_bit (s : bool) : Z := if s then 2 ^ 31 else 0.

(** The 32-bit word that stores a binary32 item: sign, 8 bits of biased
    exponent, 23 bits of fraction.  [spec_float] has a single NaN, stored
    as the default quiet NaN. *)
Definition bits_of_float32 (x : spec_float) : Z :=
  match x with
  | S754_zero s => sign_bit s
  | S754_infinity s => sign_bit s + 255 * 2 ^ 23
  | S754_nan => 255 * 2 ^ 23 + 2 ^ 22
  | S754_finite s m e =>
      if 2 ^ 23 <=? Zpos m
      then sign_bit s + (e + 150) * 2 ^ 23 + (Zpos m - 2 ^ 23)
      else sign_bit s + Zpos m
  end.

Definition float32_of_bits (w : Z) : spec_float :=
  let s := 2 ^ 31 <=? w in
  let ex := (w / 2 ^ 23) mod 2 ^ 8 in
  let fr := w mod 2 ^ 23 in
  if ex =? 0 then
    match fr with
    | Zpos m => S754_finite s m (-149)
    | _ => S754_zero s
    end
  else if ex =? 255 then
    if fr =? 0 then S754_infinity s else S754_nan
  else
    match fr + 2 ^ 23 with
    | Zpos m => S754_finite s m (ex - 150)
    | _ => S754_nan
    end.

(** *** Buffers *)

Definition byte_of_Z (z : Z) : byte :=
  match Byte.of_N (Z.to_N (z mod 256)) with
  | Some b => b
  | None => x00
  end.

Definition Z_of_byte (b : byte) : Z := Z.of_N (Byte.to_N b).

(** The four bytes of a 32-bit word, least significant first (the native
    layout of the little-endian machines the application runs on). *)
Definition bytes_of_word (w : Z) : list byte :=
  [byte_of_Z w; byte_of_Z (w / 2 ^ 8); byte_of_Z (w / 2 ^ 16);
   byte_of_Z (w / 2 ^ 24)].

Definition word_of_bytes (b0 b1 b2 b3 : byte) : Z :=
  Z_of_byte b0 + Z_of_byte b1 * 2 ^ 8 + Z_of_byte b2 * 2 ^ 16
  + Z_of_byte b3 * 2 ^ 24.

(** [arr.tobytes()] of a one-dimensional [float32] array. *)
Definition tobytes (arr : list spec_float) : list byte :=
  flat_map (fun x => bytes_of_word (bits_of_float32 x)) arr.

Fixpoint items_of_buffer (buf : list byte) : list spec_float :=
  match buf with
  | b0 :: b1 :: b2 :: b3 :: rest =>
      float32_of_bits (word_of_bytes b0 b1 b2 b3) :: items_of_buffer rest
  | _ => []
  end.

(** [np.frombuffer(buf, dtype=np.float32)]: a buffer whose size is not a
    multiple of the item size is refused with a [ValueError]. *)
Definition frombuffer (buf : list byte) : result (list spec_float) :=
  if Z.of_nat (List.length buf) mod 4 =? 0
  then Ok (items_of_buffer buf)
  else Raise (ValueError "buffer size must be a multiple of element size"%string).

(** *** Linear algebra on [float64] arrays *)

(** [np.dot] of two one-dimensional arrays: the products are accumulated
    from the left, starting at [0.0], each product and each sum rounded;
    arrays of different lengths are refused with a [ValueError].  NumPy
    leaves the order of the additions to its BLAS, which may also fuse a
    product and a sum into one rounding; only the evaluations on sample
    data below depend on either. *)
Fixpoint dot_from (acc : float) (a b : list float) : float :=
  match a, b with
  | x :: a', y :: b' => dot_from (Float.add acc (Float.mul x y)) a' b'
  | _, _ => acc
  end.

Definition dot (a b : list float) : result float :=
  if Nat.eqb (List.length a) (List.length b)
  then Ok (dot_from Float.zero a b)
  else Raise (ValueError "shapes not aligned"%string).

(** [np.linalg.norm] of a one-dimensional real array is
    [sqrt(dot(x, x))]. *)
Definition norm (a : list float) : float :=
  Float.sqrt (dot_from Float.zero a a).

End np.

(** ** Python sequences *)

Module Py.

(** [l[:n]]: the first [n] items for [n >= 0]; for a negative [n] the
    slice stops [-n] items before the end. *)
Definition slice_to {A : Type} (l : list A) (n : Z) : list A :=
  if 0 <=? n
  then firstn (Z.to_nat n) l
  else firstn (Z.to_nat (Z.of_nat (List.length l) + n)) l.

(** [l.sort(key=key, reverse=True)] for float keys.  The sort of Python is
    stable, also under [reverse=True], and compares keys with [<] only:
    an item moves behind exactly those sorted items whose key is strictly
    greater than its own. *)
Section Sort.
Context {A : Type} (key : A -> float).

Fixpoint insert_desc (x : A) (sorted : list A) : list A :=
  match sorted with
  | [] => [x]
  | y :: rest =>
      if Float.ltb (key x) (key y)
      then y :: insert_desc x rest
      else x :: sorted
  end.

Definition sort_desc (l : list A) : list A :=
  fold_right insert_desc [] l.
End Sort.

(** A Python [str] is carried by its UTF-8 encoding, the form in which a
    [TEXT] column holds it: an item of the Rocq string is one byte, and a
    character (a code point) begins at every byte that is not a
    continuation byte [10xxxxxx]. *)
Definition starts_character (c : ascii) : bool :=
  negb ((128 <=? N_of_ascii c)%N && (N_of_ascii c <? 192)%N).

(** [len(s)]: the number of characters. *)
Fixpoint str_len (s : string) : nat :=
  match s with
  | EmptyString => 0%nat
  | String c rest =>
      ((if starts_character c then 1 else 0) + str_len rest)%nat
  end.

(** [s[:n]] for [n >= 0]: the first [n] characters, each with all its
    bytes. *)
Fixpoint str_slice_to (s : string) (n : nat) : string :=
  match s with
  | EmptyString => EmptyString
  | String c rest =>
      if starts_character c
      then match n with
           | O => EmptyString
           | S n' => String c (str_slice_to rest n')
           end
      else String c (str_slice_to rest n)
  end.

End Py.

(** ** The meetings table and the result dictionaries *)

(** One row of table [meetings], with the columns the two queries read.
    [id], [title] and [date] are declared [NOT NULL]; the other columns may
    hold [NULL]. *)
Record Row : Type := {
  row_id : Z;
  row_title : string;
  row_date : string;
  row_summary : option string;
  row_transcript : option string;
  row_embeddings : option (list byte)
}.

(** The table, in the order in which a [SELECT] without [ORDER BY] yields
    its rows. *)
Definition database : Type := list Row.

(** A dictionary of the result lists.  Key ['transcript'] is present in the
    results of [search_meetings] only. *)
Record Hit : Type := {
  hit_id : Z;
  hit_title : string;
  hit_date : string;
  hit_summary : option string;
  hit_transcript : option string;
  similarity : float
}.

(** The interface shows the messages passed to [st.error]; a method that
    reports errors returns its value together with the messages it emitted,
    oldest first. *)
Definition reported (A : Type) : Type := (A * list string)%type.

(** ** DatabaseManager *)

Definition _serialize_embeddings (embeddings : list float) : list byte :=
  match embeddings with
  | [] => []
  | _ => np.tobytes (map np.to_float32 embeddings)
  end.

Definition _deserialize_embeddings (embeddings_blob : list byte)
  : result (list float) :=
  match embeddings_blob with
  | [] => Ok []
  | _ =>
      arr <- np.frombuffer embeddings_blob ;;
      Ok (map np.to_float64 arr)
  end.

(** The body of the [try] block of [_cosine_similarity]. *)
Definition cosine_similarity_try (vec1 vec2 : list float) : result float :=
  dot_product <- np.dot vec1 vec2 ;;
  let norm1 := np.norm vec1 in
  let norm2 := np.norm vec2 in
  if Float.eqb norm1 Float.zero || Float.eqb norm2 Float.zero
  then Ok Float.zero
  else Ok (Float.div dot_product (Float.mul norm1 norm2)).

(** [except Exception: return 0.0] *)
Definition _cosine_similarity (vec1 vec2 : list float) : result float :=
  match cosine_similarity_try vec1 vec2 with
  | Ok x => Ok x
  | Raise _ => Ok Float.zero
  end.

(** [SELECT ... FROM meetings WHERE embeddings IS NOT NULL]: the rows whose
    blob is present, each with its blob. *)
Definition select_embedded (db : database) : list (Row * list byte) :=
  flat_map
    (fun row =>
       match row_embeddings row with
       | Some blob => [(row, blob)]
       | None => []
       end)
    db.

(** [SELECT ... WHERE id != ? AND embeddings IS NOT NULL] *)
Definition select_embedded_except (db : database) (meeting_id : Z)
  : list (Row * list byte) :=
  select_embedded (filter (fun row => negb (row_id row =? meeting_id)) db).

(** [transcript[:500] + "..." if len(transcript) > 500 else transcript];
    [len(None)] raises a [TypeError].  Length and slice are in
    characters. *)
Definition transcript_excerpt (transcript : option string) : result string :=
  match transcript with
  | None => Raise (TypeError "object of type 'NoneType' has no len()"%string)
  | Some t =>
      if 500 <? Z.of_nat (Py.str_len t)
      then Ok (String.append (Py.str_slice_to t 500) "..."%string)
      else Ok t
  end.

(** The [for row in cursor.fetchall()] loop of [search_meetings]; [results]
    is the list built so far.  The source compares with the literal [0.3],
    passed here as [threshold]. *)
Fixpoint search_loop (threshold : float) (query_embeddings : list float)
    (rows : list (Row * list byte)) (results : list Hit)
  : result (list Hit) :=
  match rows with
  | [] => Ok results
  | (row, embeddings_blob) :: rows' =>
      match embeddings_blob with
      | [] => search_loop threshold query_embeddings rows' results
      | _ =>
          meeting_embeddings <- _deserialize_embeddings embeddings_blob ;;
          sim <- _cosine_similarity query_embeddings meeting_embeddings ;;
          if Float.gtb sim threshold then
            excerpt <- transcript_excerpt (row_transcript row) ;;
            search_loop threshold query_embeddings rows'
              (results ++
                 [{| hit_id := row_id row;
                     hit_title := row_title row;
                     hit_date := row_date row;
                     hit_summary := row_summary row;
                     hit_transcript := Some excerpt;
                     similarity := sim |}])
          else search_loop threshold query_embeddings rows' results
      end
  end.

(** The loop of [get_similar_meetings]; the literal of the source is
    [0.2]. *)
Fixpoint similar_loop (threshold : float) (meeting_embeddings : list float)
    (rows : list (Row * list byte)) (results : list Hit)
  : result (list Hit) :=
  match rows with
  | [] => Ok results
  | (row, embeddings_blob) :: rows' =>
      other_embeddings <- _deserialize_embeddings embeddings_blob ;;
      sim <- _cosine_similarity meeting_embeddings other_embeddings ;;
      if Float.gtb sim threshold then
        similar_loop threshold meeting_embeddings rows'
          (results ++
             [{| hit_id := row_id row;
                 hit_title := row_title row;
                 hit_date := row_date row;
                 hit_summary := row_summary row;
                 hit_transcript := None;
                 similarity := sim |}])
      else similar_loop threshold meeting_embeddings rows' results
  end.

(** [results.sort(key=lambda x: x['similarity'], reverse=True)] followed by
    [return results[:max_results]]. *)
Definition rank (results : list Hit) (max_results : Z) : list Hit :=
  Py.slice_to (Py.sort_desc similarity results) max_results.

Section Services.

(** [client.embeddings.create(input=text, ...).data[0].embedding] of the
    language-model provider: an embedding, or an exception. *)
Variable embeddings_create : string -> result (list float).

(** The part of [get_meeting_by_id] after the row is fetched: parsing the
    JSON columns and reading the events, tasks and function calls of the
    meeting.  It raises when a [json.loads] does. *)
Variable load_details : Row -> result unit.

(** [AIServices.get_embeddings] *)
Definition get_embeddings (text : string) : reported (list float) :=
  match embeddings_create text with
  | Ok embedding => (embedding, [])
  | Raise e =>
      ([], [String.append "Embeddings error: " (str_of_exn e)])
  end.

Definition get_meeting_by_id (db : database) (meeting_id : Z)
  : reported (option Row) :=
  match find (fun row => row_id row =? meeting_id) db with
  | None => (None, [])
  | Some row =>
      match load_details row with
      | Ok _ => (Some row, [])
      | Raise e =>
          (None, [String.append "Error retrieving meeting: " (str_of_exn e)])
      end
  end.

(** The [try] block of [search_meetings] once the query embedding is
    there. *)
Definition search_try (threshold : float) (db : database)
    (query_embeddings : list float) (max_results : Z)
  : result (list Hit) :=
  results <- search_loop threshold query_embeddings (select_embedded db) [] ;;
  Ok (rank results max_results).

(** [search_meetings], with the literal [0.3] as [threshold].  The
    constructor [AIServices()] is taken to find its API key; without one
    Streamlit stops the whole script. *)
Definition search_meetings_above (threshold : float) (db : database)
    (query : string) (max_results : Z) : reported (list Hit) :=
  let (query_embeddings, log) := get_embeddings query in
  match query_embeddings with
  | [] => ([], log)
  | _ =>
      match search_try threshold db query_embeddings max_results with
      | Ok results => (results, log)
      | Raise e =>
          ([], log ++ [String.append "Search error: " (str_of_exn e)])
      end
  end.

Definition search_meetings : database -> string -> Z -> reported (list Hit) :=
  search_meetings_above Float.lit_0_3.

(** The [try] block of [get_similar_meetings] once the meeting is
    fetched and its blob is known to be non-empty. *)
Definition similar_try (threshold : float) (db : database) (meeting_id : Z)
    (own_blob : list byte) (max_results : Z) : result (list Hit) :=
  meeting_embeddings <- _deserialize_embeddings own_blob ;;
  results <- similar_loop threshold meeting_embeddings
               (select_embedded_except db meeting_id) [] ;;
  Ok (rank results max_results).

(** [get_similar_meetings], with the literal [0.2] as [threshold]. *)
Definition get_similar_meetings_above (threshold : float) (db : database)
    (meeting_id : Z) (max_results : Z) : reported (list Hit) :=
  let (meeting, log) := get_meeting_by_id db meeting_id in
  match meeting with
  | None => ([], log)
  | Some row =>
      match row_embeddings row with
      | None | Some [] => ([], log)
      | Some own_blob =>
          match similar_try threshold db meeting_id own_blob max_results with
          | Ok results => (results, log)
          | Raise e =>
              ([], log ++ [String.append "Similar meetings error: "
                             (str_of_exn e)])
          end
      end
  end.

Definition get_similar_meetings
  : database -> Z -> Z -> reported (list Hit) :=
  get_similar_meetings_above Float.lit_0_2.

End Services.

(** ** Saving and deleting meetings *)

(** Table [meetings] together with its entry in [sqlite_sequence]: the
    largest id the [AUTOINCREMENT] key has given so far, 0 before the first
    insert. *)
Record Store : Type := {
  meetings : database;
  sequence : Z
}.

Definition empty_store : Store := {| meetings := []; sequence := 0 |}.

Definition largest_id (db : database) : Z :=
  fold_right (fun row m => Z.max (row_id row) m) 0 db.

(** The id SQLite gives the next row of an [AUTOINCREMENT] table: one more
    than the largest id that was ever in the table. *)
Definition next_id (st : Store) : Z :=
  Z.max (sequence st) (largest_id (meetings st)) + 1.

(** The keys of the dictionary [meeting_data] that reach the columns of
    [Row].  The outer [option] is [None] when the key is missing, the inner
    one when the value is Python's [None]. *)
Record MeetingData : Type := {
  md_title : option (option string);
  md_date : option (option string);
  md_summary : option (option string);
  md_transcript : option (option string);
  md_embeddings : option (option (list float))
}.

(** [d[key]]; [str] of a [KeyError] is the quoted key. *)
Definition dict_item {A : Type} (key : string) (entry : option (option A))
  : result (option A) :=
  match entry with
  | Some value => Ok value
  | None =>
      Raise (Exception (String.append "'" (String.append key "'")))
  end.

(** [d.get(key, default)] *)
Definition dict_get {A : Type} (entry : option (option A)) (default : A)
  : option A :=
  match entry with
  | Some value => value
  | None => Some default
  end.

(** A [NOT NULL] column refuses [None]. *)
Definition not_null (column : string) (value : option string)
  : result string :=
  match value with
  | Some text => Ok text
  | None =>
      Raise (Exception
               (String.append "NOT NULL constraint failed: meetings." column))
  end.

Section Persistence.

(** What the keys left out of [MeetingData] make [save_meeting] do: the
    four [json.dumps] calls on the lists of the meeting, evaluated before
    the [INSERT], and the inserts of its events, tasks and function calls
    under the new id, executed after it.  Either may raise. *)
Variable dumps_lists : MeetingData -> result unit.
Variable insert_children : MeetingData -> Z -> result unit.

(** The [try] block of [save_meeting]: the new store and the new id.  The
    block runs inside [with sqlite3.connect(...)], which commits when the
    block ends and rolls everything back when it raises. *)
Definition save_try (st : Store) (meeting_data : MeetingData)
  : result (Store * Z) :=
  title <- dict_item "title" (md_title meeting_data) ;;
  date <- dict_item "date" (md_date meeting_data) ;;
  let transcript := dict_get (md_transcript meeting_data) ""%string in
  let summary := dict_get (md_summary meeting_data) ""%string in
  _ <- dumps_lists meeting_data ;;
  let blob :=
    match dict_get (md_embeddings meeting_data) [] with
    | Some embeddings => _serialize_embeddings embeddings
    | None => []
    end in
  title <- not_null "title" title ;;
  date <- not_null "date" date ;;
  let meeting_id := next_id st in
  if 2 ^ 63 - 1 <? meeting_id
  then Raise (Exception "database or disk is full")
  else
    _ <- insert_children meeting_data meeting_id ;;
    Ok ({| meetings :=
             meetings st
             ++ [{| row_id := meeting_id;
                    row_title := title;
                    row_date := date;
                    row_summary := summary;
                    row_transcript := transcript;
                    row_embeddings := Some blob |}];
           sequence := meeting_id |},
        meeting_id).

(** [save_meeting]: the id or [None], the messages, and the store
    afterwards. *)
Definition save_meeting (st : Store) (meeting_data : MeetingData)
  : reported (option Z) * Store :=
  match save_try st meeting_data with
  | Ok (st', meeting_id) => ((Some meeting_id, []), st')
  | Raise e =>
      ((None, [String.append "Error saving meeting: " (str_of_exn e)]), st)
  end.

End Persistence.

(** [delete_meeting]: [DELETE FROM meetings WHERE id = ?], then whether a
    row was deleted. *)
Definition delete_meeting (st : Store) (meeting_id : Z) : bool * Store :=
  let kept := filter (fun row => negb (row_id row =? meeting_id))
                (meetings st) in
  if existsb (fun row => row_id row =? meeting_id) (meetings st)
  then (true, {| meetings := kept; sequence := sequence st |})
  else (false, st).

(** ** Notions used in the statements *)

(** The [ValueError] of [np.frombuffer] is the malformed-encoding error of
    the codec. *)
Definition MalformedEncoding : exn :=
  ValueError "buffer size must be a multiple of element size".

(** [x == 0] for a float [x]: both signed zeros qualify, nothing else
    does. *)
Definition is_zero (x : float) : Prop := Float.eqb x Float.zero = true.

(** The position of a float in the order of [<]: the class (negative
    infinity, negative, zero, positive, positive infinity), then exponent
    and mantissa.  A NaN has no position. *)
Definition order_key (x : float) : option (Z * Z * Z) :=
  match x with
  | S754_nan => None
  | S754_infinity true => Some (-2, 0, 0)
  | S754_finite true m e => Some (-1, - e, - Zpos m)
  | S754_zero _ => Some (0, 0, 0)
  | S754_finite false m e => Some (1, e, Zpos m)
  | S754_infinity false => Some (2, 0, 0)
  end.

Definition lex3 (a b : Z * Z * Z) : comparison :=
  let '(a1, a2, a3) := a in
  let '(b1, b2, b3) := b in
  match a1 ?= b1 with
  | Eq => match a2 ?= b2 with Eq => a3 ?= b3 | c => c end
  | c => c
  end.

(** [h1] may stand before [h2] in a list sorted by descending
    similarity. *)
Definition desc_similarity (h1 h2 : Hit) : Prop :=
  Float.leb (similarity h2) (similarity h1) = true.

(** The items of [l] whose key equals [k] (as floats, [==]). *)
Definition with_key {A : Type} (key : A -> float) (k : float) (l : list A)
  : list A :=
  filter (fun x => Float.eqb (key x) k) l.

(** [l1] is an initial segment of [l2]. *)
Definition prefix {A : Type} (l1 l2 : list A) : Prop :=
  exists rest, l1 ++ rest = l2.

(** The similarity of the stored blob [blob] with the vector [q], when the
    blob decodes. *)
Definition score (q : list float) (blob : list byte) : option float :=
  match _deserialize_embeddings blob with
  | Ok v =>
      match _cosine_similarity q v with
      | Ok s => Some s
      | Raise _ => None
      end
  | Raise _ => None
  end.

(** The candidate scores strictly above the threshold. *)
Definition above (threshold : float) (q : list float)
    (candidate : Row * list byte) : bool :=
  match score q (snd candidate) with
  | Some s => Float.gtb s threshold
  | None => false
  end.

Definition nonempty_blob (candidate : Row * list byte) : bool :=
  match snd candidate with
  | [] => false
  | _ => true
  end.

(** What a result entry and a candidate are compared by: the id and the
    score. *)
Definition scored_hit (h : Hit) : Z * option float :=
  (hit_id h, Some (similarity h)).

Definition scored_candidate (q : list float) (candidate : Row * list byte)
  : Z * option float :=
  (row_id (fst candidate), score q (snd candidate)).

(** The candidate's score equals [k]. *)
Definition tied (k : float) (q : list float) (candidate : Row * list byte)
  : bool :=
  match score q (snd candidate) with
  | Some s => Float.eqb s k
  | None => false
  end.

(** The decoded embedding of meeting [meeting_id], the query vector of
    [get_similar_meetings]; empty when there is none. *)
Definition stored_embedding (db : database) (meeting_id : Z) : list float :=
  match find (fun row => row_id row =? meeting_id) db with
  | Some {| row_embeddings := Some blob |} =>
      match _deserialize_embeddings blob with
      | Ok v => v
      | Raise _ => []
      end
  | _ => []
  end.

(** What the [try] block of [search_meetings] does before any [except]
    clause intervenes: the exception of the provider, of the decoder or of
    the loop travels up. *)
Definition search_outcome (embeddings_create : string -> result (list float))
    (threshold : float) (db : database) (query : string) (max_results : Z)
  : result (list Hit) :=
  query_embeddings <- embeddings_create query ;;
  match query_embeddings with
  | [] => Ok []
  | _ => search_try threshold db query_embeddings max_results
  end.

(** The same for [get_similar_meetings]. *)
Definition similar_outcome (load_details : Row -> result unit)
    (threshold : float) (db : database) (meeting_id : Z) (max_results : Z)
  : result (list Hit) :=
  match find (fun row => row_id row =? meeting_id) db with
  | None => Ok []
  | Some row =>
      _ <- load_details row ;;
      match row_embeddings row with
      | None | Some [] => Ok []
      | Some own_blob =>
          similar_try threshold db meeting_id own_blob max_results
      end
  end.

(** Nothing in the loops can raise on such a candidate: its blob decodes,
    and for [search_meetings] its row has a transcript if it scores above
    the threshold. *)
Definition decodable (candidate : Row * list byte) : Prop :=
  exists v, _deserialize_embeddings (snd candidate) = Ok v.

Definition has_transcript (candidate : Row * list byte) : Prop :=
  row_transcript (fst candidate) <> None.

Definition searchable (threshold : float) (q : list float)
    (candidate : Row * list byte) : Prop :=
  decodable candidate
  /\ (above threshold q candidate = true -> has_transcript candidate).

(** The candidates of [search_meetings] and of [get_similar_meetings] that
    score above the threshold, in the order of the table. *)
Definition search_survivors (threshold : float) (q : list float)
    (db : database) : list (Row * list byte) :=
  filter (above threshold q) (filter nonempty_blob (select_embedded db)).

Definition similar_survivors (threshold : float) (v : list float)
    (db : database) (meeting_id : Z) : list (Row * list byte) :=
  filter (above threshold v) (select_embedded_except db meeting_id).

(** ** Sample data *)

Definition lit_0_9 : float := S754_finite false 8106479329266893 (-53).
Definition lit_0_1 : float := S754_finite false 7205759403792794 (-56).

(** A meeting saved with the embedding [v]. *)
Definition sample_row (i : Z) (v : list float) : Row :=
  {| row_id := i;
     row_title := "weekly";
     row_date := "2024-05-02";
     row_summary := Some "notes"%string;
     row_transcript := Some "hello"%string;
     row_embeddings := Some (_serialize_embeddings v) |}.

(** Meetings 1, 2 and 3 with the embeddings [[1, 0]], [[0, 1]] and
    [[0.9, 0.1]]; meeting 4 has three components and meeting 5 a blob of
    three bytes. *)
Definition sample_db : database :=
  [sample_row 1 [Float.one; Float.zero];
   sample_row 2 [Float.zero; Float.one];
   sample_row 3 [lit_0_9; lit_0_1]].

(** The same table with meeting 6, whose embedding is that of meeting 1. *)
Definition sample_db_twin : database :=
  sample_db ++ [sample_row 6 [Float.one; Float.zero]].

Definition sample_row_3d : Row :=
  sample_row 4 [Float.one; Float.zero; Float.zero].

Definition sample_row_ragged : Row :=
  {| row_id := 5;
     row_title := "broken";
     row_date := "2024-05-03";
     row_summary := None;
     row_transcript := Some "hello"%string;
     row_embeddings := Some [x00; x00; x80] |}.

(** A provider that embeds every query as [[1, 0]], and one that is
    down. *)
Definition sample_provider (_ : string) : result (list float) :=
  Ok [Float.one; Float.zero].

Definition failing_provider (_ : string) : result (list float) :=
  Raise (Exception "connection refused").

Definition sample_details (_ : Row) : result unit := Ok tt.

(** ** Notions used in the further statements *)

(** The entry [h] of a result list of [search_meetings] was built from the
    candidate [(row, blob)] for the query vector [q]. *)
Definition search_hit_of (q : list float) (row : Row) (blob : list byte)
    (h : Hit) : Prop :=
  hit_id h = row_id row
  /\ hit_title h = row_title row
  /\ hit_date h = row_date row
  /\ hit_summary h = row_summary row
  /\ blob <> []
  /\ score q blob = Some (similarity h)
  /\ exists t, transcript_excerpt (row_transcript row) = Ok t
               /\ hit_transcript h = Some t.

(** The same for [get_similar_meetings], whose entries have no
    transcript. *)
Definition similar_hit_of (q : list float) (row : Row) (blob : list byte)
    (h : Hit) : Prop :=
  hit_id h = row_id row
  /\ hit_title h = row_title row
  /\ hit_date h = row_date row
  /\ hit_summary h = row_summary row
  /\ score q blob = Some (similarity h)
  /\ hit_transcript h = None.

(** The stores that [save_meeting] and [delete_meeting] keep: every id is
    positive and at most the sequence, and the rows stand in ascending
    order of their ids, the order in which a scan of the table yields
    them. *)
Definition well_formed (st : Store) : Prop :=
  0 <= sequence st
  /\ Forall (fun row => 0 < row_id row <= sequence st) (meetings st)
  /\ StronglySorted Z.lt (map row_id (meetings st)).

(** A dictionary [meeting_data] with the embedding [v], and the other keys
    of a meeting whose lists serialise and whose events, tasks and calls
    insert. *)
Definition sample_meeting_data (v : list float) : MeetingData :=
  {| md_title := Some (Some "kickoff"%string);
     md_date := Some (Some "2024-06-01"%string);
     md_summary := None;
     md_transcript := Some (Some "hello"%string);
     md_embeddings := Some (Some v) |}.

Definition sample_dumps (_ : MeetingData) : result unit := Ok tt.

Definition sample_children (_ : MeetingData) (_ : Z) : result unit := Ok tt.

(** The store after three meetings were saved and the second deleted. *)
Definition sample_store : Store :=
  {| meetings :=
       [sample_row 1 [Float.one; Float.zero];
        sample_row 3 [lit_0_9; lit_0_1]];
     sequence := 3 |}.

(** * Properties *)

(** ** The codec: sizes and the refusal of ragged buffers *)

Lemma length_tobytes (arr : list spec_float) :
  List.length (np.tobytes arr) = (4 * List.length arr)%nat.
Proof.
  unfold np.tobytes.
  induction arr as [|x arr IH]; simpl; [reflexivity | rewrite IH; lia].
Qed.

(** Induction on a buffer, four bytes at a time. *)
Lemma buffer_ind (P : list byte -> Prop) :
  P [] ->
  (forall b0, P [b0]) ->
  (forall b0 b1, P [b0; b1]) ->
  (forall b0 b1 b2, P [b0; b1; b2]) ->
  (forall b0 b1 b2 b3 rest, P rest -> P (b0 :: b1 :: b2 :: b3 :: rest)) ->
  forall buf, P buf.
Proof.
  intros H0 H1 H2 H3 H4.
  fix IH 1.
  intros [|b0 [|b1 [|b2 [|b3 rest]]]];
    [exact H0 | apply H1 | apply H2 | apply H3 | apply H4, IH].
Qed.

Lemma length_items_of_buffer (buf : list byte) :
  Z.of_nat (List.length (np.items_of_buffer buf))
  = Z.of_nat (List.length buf) / 4.
Proof.
  induction buf as [| b0 | b0 b1 | b0 b1 b2 | b0 b1 b2 b3 rest IH]
    using buffer_ind; try reflexivity.
  cbn [np.items_of_buffer List.length].
  rewrite !Nat2Z.inj_succ, IH.
  set (n := Z.of_nat (List.length rest)).
  replace (Z.succ (Z.succ (Z.succ (Z.succ n)))) with (n + 1 * 4) by lia.
  rewrite Z.div_add by lia. lia.
Qed.

Lemma deserialize_ragged (blob : list byte) :
  Z.of_nat (List.length blob) mod 4 <> 0 ->
  _deserialize_embeddings blob = Raise MalformedEncoding.
Proof.
  intros Hmod. destruct blob as [|b blob]; [now elim Hmod|].
  unfold _deserialize_embeddings, np.frombuffer.
  destruct (Z.eqb_spec (Z.of_nat (List.length (b :: blob)) mod 4) 0);
    [contradiction | reflexivity].
Qed.

Lemma deserialize_whole (blob : list byte) :
  Z.of_nat (List.length blob) mod 4 = 0 ->
  _deserialize_embeddings blob
  = Ok (map np.to_float64 (np.items_of_buffer blob)).
Proof.
  intros Hmod. destruct blob as [|b blob]; [reflexivity|].
  unfold _deserialize_embeddings, np.frombuffer.
  rewrite Hmod. reflexivity.
Qed.

(** C9: the encoding of an embedding [v] has exactly [4 * len(v)] bytes;
    the empty embedding encodes to the empty byte sequence, which decodes
    to the empty embedding. *)
Theorem serialize_length :
  (forall v : list float,
     Z.of_nat (List.length (_serialize_embeddings v))
     = 4 * Z.of_nat (List.length v))
  /\ _serialize_embeddings [] = []
  /\ _deserialize_embeddings [] = Ok [].
Proof.
  repeat split.
  intros [|x v]; [reflexivity|].
  unfold _serialize_embeddings.
  rewrite length_tobytes, length_map. lia.
Qed.

(** C6: decoding fails, with the malformed-encoding error, exactly when
    the number of bytes is not a multiple of 4; otherwise it returns an
    embedding of [len(b) / 4] items, and the empty byte sequence decodes
    to the empty embedding. *)
Theorem deserialize_multiple_of_four (b : list byte) :
  ((exists e, _deserialize_embeddings b = Raise e)
   <-> Z.of_nat (List.length b) mod 4 <> 0)
  /\ (Z.of_nat (List.length b) mod 4 <> 0 ->
      _deserialize_embeddings b = Raise MalformedEncoding)
  /\ (Z.of_nat (List.length b) mod 4 = 0 ->
      exists v, _deserialize_embeddings b = Ok v
                /\ Z.of_nat (List.length v) = Z.of_nat (List.length b) / 4)
  /\ _deserialize_embeddings [] = Ok [].
Proof.
  assert (Hwhole : Z.of_nat (List.length b) mod 4 = 0 ->
            exists v, _deserialize_embeddings b = Ok v
              /\ Z.of_nat (List.length v) = Z.of_nat (List.length b) / 4).
  { intros Hmod. eexists. split; [apply deserialize_whole, Hmod|].
    rewrite length_map. apply length_items_of_buffer. }
  repeat split; auto using deserialize_ragged.
  - intros [e He] Hmod. destruct (Hwhole Hmod) as [v [Hv _]]. congruence.
  - intros Hmod. eexists. apply deserialize_ragged, Hmod.
Qed.

(** ** Cosine similarity *)

Lemma is_zero_inv (x : float) : is_zero x -> exists s, x = S754_zero s.
Proof.
  unfold is_zero, Float.eqb, SFeqb.
  destruct x as [s|s| |s m e]; simpl; try discriminate.
  - eauto.
  - now destruct s.
  - now destruct s.
Qed.

Lemma dot_from_zeros (a : list float) :
  Forall is_zero a -> np.dot_from Float.zero a a = Float.zero.
Proof.
  induction 1 as [|x a Hx _ IH]; cbn [np.dot_from]; [reflexivity|].
  destruct (is_zero_inv x Hx) as [s ->].
  replace (Float.add Float.zero (Float.mul (S754_zero s) (S754_zero s)))
    with Float.zero by now destruct s.
  exact IH.
Qed.

Lemma norm_zeros (a : list float) :
  Forall is_zero a -> np.norm a = Float.zero.
Proof.
  intros Ha. unfold np.norm. now rewrite dot_from_zeros.
Qed.

Lemma dot_aligned (a b : list float) :
  List.length a = List.length b ->
  np.dot a b = Ok (np.dot_from Float.zero a b).
Proof.
  intros Hlen. unfold np.dot. now rewrite Hlen, Nat.eqb_refl.
Qed.

Lemma dot_not_aligned (a b : list float) :
  List.length a <> List.length b ->
  np.dot a b = Raise (ValueError "shapes not aligned").
Proof.
  intros Hlen. unfold np.dot.
  now destruct (Nat.eqb_spec (List.length a) (List.length b)).
Qed.

Lemma cosine_zero_norm (a b : list float) :
  List.length a = List.length b ->
  is_zero (np.norm a) \/ is_zero (np.norm b) ->
  _cosine_similarity a b = Ok Float.zero.
Proof.
  intros Hlen Hnorm.
  unfold _cosine_similarity, cosine_similarity_try.
  rewrite (dot_aligned a b Hlen). cbn [bind].
  replace (Float.eqb (np.norm a) Float.zero
           || Float.eqb (np.norm b) Float.zero) with true; [reflexivity|].
  symmetry. apply orb_true_iff. exact Hnorm.
Qed.

Lemma cosine_not_aligned (a b : list float) :
  List.length a <> List.length b ->
  _cosine_similarity a b = Ok Float.zero.
Proof.
  intros Hlen. unfold _cosine_similarity, cosine_similarity_try.
  now rewrite (dot_not_aligned a b Hlen).
Qed.

(** [_cosine_similarity] never raises. *)
Lemma cosine_returns (a b : list float) :
  exists x, _cosine_similarity a b = Ok x.
Proof.
  unfold _cosine_similarity.
  destruct (cosine_similarity_try a b); eauto.
Qed.

(** C5: for embeddings [a] and [b] of equal length, when the computed norm
    of [a] or of [b] is exactly zero the similarity is [0.0] and nothing is
    raised; in particular the similarity of an all-zero vector with any
    [b], an all-zero [b] included, is [0.0], in both argument orders. *)
Theorem cosine_zero_vector (a b : list float) :
  List.length a = List.length b ->
  (is_zero (np.norm a) \/ is_zero (np.norm b) ->
   _cosine_similarity a b = Ok Float.zero)
  /\ (Forall is_zero a ->
      _cosine_similarity a b = Ok Float.zero
      /\ _cosine_similarity b a = Ok Float.zero).
Proof.
  intros Hlen. split; [apply cosine_zero_norm, Hlen|].
  intros Ha.
  assert (Hn : is_zero (np.norm a)) by now rewrite norm_zeros.
  split; apply cosine_zero_norm; auto.
Qed.

Lemma cosine_zero_vector_witness :
  List.length [S754_zero false; S754_zero true]
  = List.length [Float.one; S754_infinity false]
  /\ _cosine_similarity [S754_zero false; S754_zero true]
       [Float.one; S754_infinity false] = Ok Float.zero.
Proof.
  split; [reflexivity|].
  apply (cosine_zero_vector [S754_zero false; S754_zero true]
           [Float.one; S754_infinity false] eq_refl).
  repeat constructor.
Defined.

(** ** The order of floats *)

Lemma SFcompare_order_key (a b : float) :
  SFcompare a b =
  match order_key a, order_key b with
  | Some ka, Some kb => Some (lex3 ka kb)
  | _, _ => None
  end.
Proof.
  destruct a as [[]|[]| |[] m1 e1], b as [[]|[]| |[] m2 e2];
    try reflexivity; cbn [SFcompare order_key lex3].
  rewrite Z.compare_opp, (Z.compare_antisym e1 e2).
  destruct (e1 ?= e2); reflexivity.
Qed.

Ltac lex3_cases :=
  unfold lex3;
  repeat match goal with
    | p : (Z * Z * Z)%type |- _ => destruct p as [[? ?] ?]
    end;
  repeat match goal with
    | H : context [?x ?= ?y] |- _ => destruct (Z.compare_spec x y)
    | |- context [?x ?= ?y] => destruct (Z.compare_spec x y)
    end;
  try discriminate; try reflexivity; try lia.

Ltac by_order_key :=
  unfold Float.gtb, Float.ltb, Float.leb, Float.eqb, SFltb, SFleb, SFeqb in *;
  rewrite ?SFcompare_order_key in *;
  repeat match goal with
    | H : context [order_key ?x] |- _ => destruct (order_key x)
    | |- context [order_key ?x] => destruct (order_key x)
    end;
  try discriminate; try reflexivity; try congruence.

Lemma ltb_not_nan (a b : float) :
  Float.ltb a b = true -> order_key a <> None /\ order_key b <> None.
Proof.
  unfold Float.ltb, SFltb. rewrite SFcompare_order_key.
  destruct (order_key a), (order_key b); try discriminate.
  split; discriminate.
Qed.

Lemma ltb_false_leb (a b : float) :
  order_key a <> None -> order_key b <> None ->
  Float.ltb a b = false -> Float.leb b a = true.
Proof.
  intros Ha Hb. by_order_key. lex3_cases.
Qed.

Lemma ltb_leb (a b : float) : Float.ltb a b = true -> Float.leb a b = true.
Proof. by_order_key. lex3_cases. Qed.

Lemma leb_trans (a b c : float) :
  Float.leb a b = true -> Float.leb b c = true -> Float.leb a c = true.
Proof. by_order_key. lex3_cases. Qed.

Lemma ltb_eqb_apart (a b k : float) :
  Float.ltb a b = true -> Float.eqb a k = true -> Float.eqb b k = false.
Proof. by_order_key. lex3_cases. Qed.

(** ** The sort and the slice *)

Section SortFacts.
Context {A : Type} (key : A -> float).

Let ge (x y : A) : Prop := Float.leb (key y) (key x) = true.
Let ordered (x : A) : Prop := order_key (key x) <> None.

Lemma In_insert_desc (x z : A) (l : list A) :
  In z (Py.insert_desc key x l) <-> z = x \/ In z l.
Proof.
  induction l as [|y l IH]; simpl.
  - intuition congruence.
  - destruct (Float.ltb (key x) (key y)); simpl; rewrite ?IH;
      intuition congruence.
Qed.

Lemma In_sort_desc (z : A) (l : list A) :
  In z (Py.sort_desc key l) <-> In z l.
Proof.
  induction l as [|x l IH]; simpl; [tauto|].
  rewrite In_insert_desc, IH. intuition congruence.
Qed.

Lemma length_insert_desc (x : A) (l : list A) :
  List.length (Py.insert_desc key x l) = S (List.length l).
Proof.
  induction l as [|y l IH]; simpl; [reflexivity|].
  destruct (Float.ltb (key x) (key y)); simpl; congruence.
Qed.

Lemma length_sort_desc (l : list A) :
  List.length (Py.sort_desc key l) = List.length l.
Proof.
  induction l as [|x l IH]; simpl; [reflexivity|].
  now rewrite length_insert_desc, IH.
Qed.

Lemma insert_desc_sorted (x : A) (l : list A) :
  ordered x -> Forall ordered l ->
  StronglySorted ge l -> StronglySorted ge (Py.insert_desc key x l).
Proof.
  intros Hx Hl Hs.
  induction Hs as [|y l Hs IH Hy]; simpl.
  - repeat constructor.
  - inversion Hl as [|? ? Hoy Hol]; subst.
    destruct (Float.ltb (key x) (key y)) eqn:Hlt.
    + constructor; [now apply IH|].
      apply Forall_forall. intros z Hz.
      apply In_insert_desc in Hz. destruct Hz as [-> | Hz].
      * now apply ltb_leb.
      * revert z Hz. now apply Forall_forall.
    + assert (Hyx : ge x y) by now apply ltb_false_leb.
      constructor; [now constructor|].
      constructor; [exact Hyx|].
      apply Forall_forall. intros z Hz.
      apply (leb_trans _ (key y)); [|exact Hyx].
      revert z Hz. now apply Forall_forall.
Qed.

Lemma Forall_sort_desc (P : A -> Prop) (l : list A) :
  Forall P l -> Forall P (Py.sort_desc key l).
Proof.
  rewrite !Forall_forall. intros H z Hz. now apply H, In_sort_desc.
Qed.

Lemma sort_desc_sorted (l : list A) :
  Forall ordered l -> StronglySorted ge (Py.sort_desc key l).
Proof.
  induction 1 as [|x l Hx Hl IH]; simpl; [constructor|].
  apply insert_desc_sorted; auto using Forall_sort_desc.
Qed.

(** Stability: the sort keeps the items of any one key in their order. *)
Lemma with_key_insert_desc (k : float) (x : A) (l : list A) :
  with_key key k (Py.insert_desc key x l) = with_key key k (x :: l).
Proof.
  induction l as [|y l IH]; [reflexivity|].
  cbn [Py.insert_desc].
  destruct (Float.ltb (key x) (key y)) eqn:Hlt; [|reflexivity].
  unfold with_key in *. cbn [filter] in *.
  rewrite IH.
  destruct (Float.eqb (key x) k) eqn:Hx; [|reflexivity].
  now rewrite (ltb_eqb_apart _ _ _ Hlt Hx).
Qed.

Lemma with_key_sort_desc (k : float) (l : list A) :
  with_key key k (Py.sort_desc key l) = with_key key k l.
Proof.
  induction l as [|x l IH]; [reflexivity|].
  cbn [Py.sort_desc fold_right].
  rewrite with_key_insert_desc.
  unfold with_key in *. cbn [filter]. fold (Py.sort_desc key l).
  now rewrite IH.
Qed.

Lemma sorted_prefix (l1 l2 : list A) :
  prefix l1 l2 -> StronglySorted ge l2 -> StronglySorted ge l1.
Proof.
  intros [rest <-]. induction l1 as [|x l1 IH]; simpl; [constructor|].
  intros Hs. apply StronglySorted_inv in Hs as [Hs Hx].
  constructor; [auto|].
  apply Forall_app in Hx. tauto.
Qed.

End SortFacts.

Lemma Permutation_insert_desc {A : Type} (key : A -> float) (x : A)
    (l : list A) :
  Permutation (Py.insert_desc key x l) (x :: l).
Proof.
  induction l as [|y l IH]; cbn [Py.insert_desc]; [reflexivity|].
  destruct (Float.ltb (key x) (key y)); [|reflexivity].
  rewrite IH. apply perm_swap.
Qed.

(** The sort loses and invents nothing. *)
Lemma Permutation_sort_desc {A : Type} (key : A -> float) (l : list A) :
  Permutation (Py.sort_desc key l) l.
Proof.
  induction l as [|x l IH]; cbn [Py.sort_desc fold_right]; [reflexivity|].
  rewrite Permutation_insert_desc. now constructor.
Qed.

Lemma prefix_firstn {A : Type} (n : nat) (l : list A) : prefix (firstn n l) l.
Proof. exists (skipn n l). apply firstn_skipn. Qed.

Lemma prefix_slice_to {A : Type} (l : list A) (n : Z) :
  prefix (Py.slice_to l n) l.
Proof. unfold Py.slice_to. destruct (0 <=? n); apply prefix_firstn. Qed.

Lemma prefix_In {A : Type} (l1 l2 : list A) (x : A) :
  prefix l1 l2 -> In x l1 -> In x l2.
Proof. intros [rest <-] Hx. apply in_or_app. now left. Qed.

Lemma prefix_filter {A : Type} (f : A -> bool) (l1 l2 : list A) :
  prefix l1 l2 -> prefix (filter f l1) (filter f l2).
Proof. intros [rest <-]. exists (filter f rest). now rewrite filter_app. Qed.

Lemma prefix_map {A B : Type} (f : A -> B) (l1 l2 : list A) :
  prefix l1 l2 -> prefix (map f l1) (map f l2).
Proof. intros [rest <-]. exists (map f rest). now rewrite map_app. Qed.

Lemma In_rank (h : Hit) (results : list Hit) (n : Z) :
  In h (rank results n) -> In h results.
Proof.
  intros Hh. apply (In_sort_desc similarity).
  exact (prefix_In _ _ _ (prefix_slice_to _ _) Hh).
Qed.

Lemma slice_to_0 {A : Type} (l : list A) : Py.slice_to l 0 = [].
Proof. reflexivity. Qed.

Lemma length_slice_to {A : Type} (l : list A) (n : Z) :
  0 <= n -> Z.of_nat (List.length (Py.slice_to l n)) <= n.
Proof.
  intros Hn. unfold Py.slice_to.
  destruct (Z.leb_spec 0 n); [|lia].
  rewrite length_firstn. lia.
Qed.

(** ** The two scoring loops *)

Lemma gtb_irrefl (x : float) : Float.gtb x x = false.
Proof. by_order_key. lex3_cases. Qed.

Lemma score_of (q : list float) (blob : list byte) (v : list float)
    (s : float) :
  _deserialize_embeddings blob = Ok v ->
  _cosine_similarity q v = Ok s ->
  score q blob = Some s.
Proof. intros Hv Hs. unfold score. now rewrite Hv, Hs. Qed.

Lemma search_loop_filter (threshold : float) (q : list float)
    (rows : list (Row * list byte)) :
  forall acc results,
    search_loop threshold q rows acc = Ok results ->
    map scored_hit results
    = map scored_hit acc
      ++ map (scored_candidate q)
           (filter (above threshold q) (filter nonempty_blob rows)).
Proof.
  induction rows as [|[row blob] rows IH]; intros acc results H.
  - injection H as <-. now rewrite app_nil_r.
  - destruct blob as [|b blob]; [now apply IH|].
    cbn [search_loop] in H. cbn [filter nonempty_blob snd].
    destruct (_deserialize_embeddings (b :: blob)) as [v|e] eqn:Hv;
      [|discriminate].
    destruct (cosine_returns q v) as [s Hs].
    cbn [bind] in H. rewrite Hs in H. cbn [bind] in H.
    unfold above at 1. cbn [snd]. rewrite (score_of _ _ _ _ Hv Hs).
    destruct (Float.gtb s threshold); [|now apply IH].
    destruct (transcript_excerpt (row_transcript row)) as [t|e];
      [|discriminate].
    cbn [bind] in H. apply IH in H. rewrite H, map_app, <- app_assoc.
    cbn [map app]. unfold scored_candidate at 2. cbn [fst snd].
    now rewrite (score_of _ _ _ _ Hv Hs).
Qed.

Lemma similar_loop_filter (threshold : float) (q : list float)
    (rows : list (Row * list byte)) :
  forall acc results,
    similar_loop threshold q rows acc = Ok results ->
    map scored_hit results
    = map scored_hit acc
      ++ map (scored_candidate q) (filter (above threshold q) rows).
Proof.
  induction rows as [|[row blob] rows IH]; intros acc results H.
  - injection H as <-. now rewrite app_nil_r.
  - cbn [similar_loop] in H. cbn [filter].
    destruct (_deserialize_embeddings blob) as [v|e] eqn:Hv; [|discriminate].
    destruct (cosine_returns q v) as [s Hs].
    cbn [bind] in H. rewrite Hs in H. cbn [bind] in H.
    unfold above at 1. cbn [snd]. rewrite (score_of _ _ _ _ Hv Hs).
    destruct (Float.gtb s threshold); [|now apply IH].
    apply IH in H. rewrite H, map_app, <- app_assoc.
    cbn [map app]. unfold scored_candidate at 2. cbn [fst snd].
    now rewrite (score_of _ _ _ _ Hv Hs).
Qed.

(** Every entry of a list of hits that mirrors the candidates above the
    threshold comes from one of them. *)
Lemma hit_from_candidate (threshold : float) (q : list float)
    (results : list Hit) (candidates : list (Row * list byte)) (h : Hit) :
  map scored_hit results
  = map (scored_candidate q) (filter (above threshold q) candidates) ->
  In h results ->
  exists c, In c candidates
            /\ row_id (fst c) = hit_id h
            /\ score q (snd c) = Some (similarity h)
            /\ Float.gtb (similarity h) threshold = true.
Proof.
  intros Heq Hh.
  apply (in_map scored_hit) in Hh. rewrite Heq in Hh.
  apply in_map_iff in Hh as [c [Hc Hin]].
  apply filter_In in Hin as [Hin Habove].
  injection Hc as Hid Hscore.
  exists c. repeat split; auto.
  unfold above in Habove. now rewrite Hscore in Habove.
Qed.

Lemma In_select_embedded (db : database) (c : Row * list byte) :
  In c (select_embedded db) <->
  In (fst c) db /\ row_embeddings (fst c) = Some (snd c).
Proof.
  unfold select_embedded. rewrite in_flat_map. split.
  - intros [row [Hrow Hc]].
    destruct (row_embeddings row) as [blob|] eqn:Hblob; [|contradiction].
    destruct Hc as [<-|[]]. now split.
  - intros [Hrow Hblob]. exists (fst c). split; [exact Hrow|].
    rewrite Hblob. left. now destruct c.
Qed.

Lemma In_select_embedded_except (db : database) (meeting_id : Z)
    (c : Row * list byte) :
  In c (select_embedded_except db meeting_id) ->
  In (fst c) db /\ row_id (fst c) <> meeting_id.
Proof.
  unfold select_embedded_except. intros Hc.
  apply In_select_embedded in Hc as [Hc _].
  apply filter_In in Hc as [Hin Hid]. split; [exact Hin|].
  apply negb_true_iff in Hid. now apply Z.eqb_neq.
Qed.

(** ** The entry points *)

Section EntryPoints.
Variable embeddings_create : string -> result (list float).
Variable load_details : Row -> result unit.
Variable threshold : float.
Variable db : database.

(** [search_meetings] handles the outcome of its [try] block: a value is
    returned with no message, an exception becomes one message and the
    empty list. *)
Lemma search_meetings_handles (query : string) (max_results : Z) :
  match search_outcome embeddings_create threshold db query max_results with
  | Ok results =>
      search_meetings_above embeddings_create threshold db query max_results
      = (results, [])
  | Raise e =>
      exists msg,
        search_meetings_above embeddings_create threshold db query
          max_results = ([], [msg])
  end.
Proof.
  unfold search_outcome, search_meetings_above, get_embeddings.
  destruct (embeddings_create query) as [[|x q]|e]; cbn [bind];
    [reflexivity | | eexists; reflexivity].
  destruct (search_try threshold db (x :: q) max_results);
    [reflexivity | eexists; reflexivity].
Qed.

Lemma get_similar_meetings_handles (meeting_id max_results : Z) :
  match similar_outcome load_details threshold db meeting_id max_results with
  | Ok results =>
      get_similar_meetings_above load_details threshold db meeting_id
        max_results = (results, [])
  | Raise e =>
      exists msg,
        get_similar_meetings_above load_details threshold db meeting_id
          max_results = ([], [msg])
  end.
Proof.
  unfold similar_outcome, get_similar_meetings_above, get_meeting_by_id.
  destruct (find _ db) as [row|]; [|reflexivity].
  destruct (load_details row) as [[]|e]; cbn [bind];
    [|eexists; reflexivity].
  destruct (row_embeddings row) as [[|b blob]|]; try reflexivity.
  destruct (similar_try threshold db meeting_id (b :: blob) max_results);
    [reflexivity | eexists; reflexivity].
Qed.

(** The list returned by [search_meetings] is empty or the ranking of what
    the loop collected for the query embedding. *)
Lemma search_meetings_ranked (query : string) (max_results : Z) :
  fst (search_meetings_above embeddings_create threshold db query
         max_results) = []
  \/ exists results,
      search_loop threshold (fst (get_embeddings embeddings_create query))
        (select_embedded db) [] = Ok results
      /\ fst (search_meetings_above embeddings_create threshold db query
                max_results) = rank results max_results.
Proof.
  unfold search_meetings_above, get_embeddings, search_try.
  destruct (embeddings_create query) as [[|x q]|e]; cbn [fst]; auto.
  destruct (search_loop threshold (x :: q) (select_embedded db) [])
    as [results|e]; cbn [bind fst]; eauto.
Qed.

Lemma get_similar_meetings_ranked (meeting_id max_results : Z) :
  fst (get_similar_meetings_above load_details threshold db meeting_id
         max_results) = []
  \/ exists results,
      similar_loop threshold (stored_embedding db meeting_id)
        (select_embedded_except db meeting_id) [] = Ok results
      /\ fst (get_similar_meetings_above load_details threshold db
                meeting_id max_results) = rank results max_results.
Proof.
  unfold get_similar_meetings_above, get_meeting_by_id, similar_try,
    stored_embedding.
  destruct (find _ db) as [row|]; cbn [fst]; auto.
  destruct (load_details row) as [[]|e]; cbn [fst]; auto.
  destruct row as [i t d s tr [[|b blob]|]]; cbn [row_embeddings fst]; auto.
  destruct (_deserialize_embeddings (b :: blob)) as [v|e]; cbn [bind fst];
    auto.
  destruct (similar_loop threshold v
              (select_embedded_except db meeting_id) [])
    as [results|e]; cbn [bind fst]; eauto.
Qed.

End EntryPoints.

(** Whatever the threshold, the rows scored for [meeting_id] have another
    id, and so have the entries built from them. *)
Lemma similar_above_not_self (load_details : Row -> result unit)
    (threshold : float) (db : database) (meeting_id max_results : Z)
    (h : Hit) :
  In h (fst (get_similar_meetings_above load_details threshold db meeting_id
               max_results)) ->
  hit_id h <> meeting_id.
Proof.
  destruct (get_similar_meetings_ranked load_details threshold db
              meeting_id max_results) as [-> | [results [Hloop ->]]];
    [contradiction|].
  intros Hh. apply In_rank in Hh.
  apply similar_loop_filter in Hloop.
  destruct (hit_from_candidate _ _ _ _ h Hloop Hh) as [c [Hc [<- _]]].
  now apply In_select_embedded_except in Hc.
Qed.

(** C10: no entry returned by [get_similar_meetings] for [meeting_id]
    carries the id [meeting_id]; the query of the candidates leaves that
    row out before anything is scored. *)
Theorem similar_excludes_self (load_details : Row -> result unit)
    (db : database) (meeting_id max_results : Z) :
  Forall (fun h => hit_id h <> meeting_id)
    (fst (get_similar_meetings load_details db meeting_id max_results)).
Proof.
  unfold get_similar_meetings.
  destruct (get_similar_meetings_ranked load_details Float.lit_0_2 db
              meeting_id max_results) as [-> | [results [Hloop ->]]];
    [constructor|].
  apply Forall_forall. intros h Hh. apply In_rank in Hh.
  apply similar_loop_filter in Hloop.
  destruct (hit_from_candidate _ _ _ _ h Hloop Hh) as [c [Hc [<- _]]].
  now apply In_select_embedded_except in Hc.
Qed.

(** ** Runs that do not fail *)

Lemma search_loop_returns (threshold : float) (q : list float)
    (rows : list (Row * list byte)) :
  (forall c, In c rows -> searchable threshold q c) ->
  forall acc, exists results, search_loop threshold q rows acc = Ok results.
Proof.
  induction rows as [|[row blob] rows IH]; intros Hall acc;
    [now exists acc|].
  assert (Hrest : forall c, In c rows -> searchable threshold q c)
    by (intros c Hc; apply Hall; now right).
  destruct (Hall (row, blob) (or_introl eq_refl)) as [[v Hv] Ht].
  unfold above, score, has_transcript in Ht. cbn [fst snd] in Hv, Ht.
  cbn [search_loop].
  destruct blob as [|b blob]; [now apply IH|].
  rewrite Hv in Ht |- *. cbn [bind].
  destruct (cosine_returns q v) as [s Hs]. rewrite Hs in Ht |- *. cbn [bind].
  destruct (Float.gtb s threshold); [|now apply IH].
  destruct (row_transcript row) as [t|]; [|now elim Ht].
  unfold transcript_excerpt.
  destruct (500 <? Z.of_nat (Py.str_len t)); cbn [bind]; now apply IH.
Qed.

Lemma similar_loop_returns (threshold : float) (q : list float)
    (rows : list (Row * list byte)) :
  (forall c, In c rows -> decodable c) ->
  forall acc, exists results, similar_loop threshold q rows acc = Ok results.
Proof.
  induction rows as [|[row blob] rows IH]; intros Hall acc;
    [now exists acc|].
  assert (Hrest : forall c, In c rows -> decodable c)
    by (intros c Hc; apply Hall; now right).
  destruct (Hall (row, blob) (or_introl eq_refl)) as [v Hv].
  cbn [snd] in Hv. cbn [similar_loop]. rewrite Hv. cbn [bind].
  destruct (cosine_returns q v) as [s Hs]. rewrite Hs. cbn [bind].
  destruct (Float.gtb s threshold); now apply IH.
Qed.

(** With an embedded query, decodable blobs and a transcript wherever one
    is read, [search_meetings] returns, without message, the ranking of entries that
    mirror the candidates above the threshold. *)
Lemma search_meetings_returns
    (embeddings_create : string -> result (list float)) (threshold : float)
    (db : database) (query : string) (q : list float) :
  embeddings_create query = Ok q -> q <> [] ->
  (forall c, In c (select_embedded db) -> searchable threshold q c) ->
  exists results,
    map scored_hit results
    = map (scored_candidate q) (search_survivors threshold q db)
    /\ forall max_results,
         search_meetings_above embeddings_create threshold db query
           max_results = (rank results max_results, []).
Proof.
  intros Hq Hne Hall.
  destruct (search_loop_returns threshold q _ Hall []) as [results Hloop].
  exists results. split.
  - now rewrite (search_loop_filter _ _ _ _ _ Hloop).
  - intros n. unfold search_meetings_above, get_embeddings, search_try.
    rewrite Hq. destruct q as [|x q]; [now elim Hne|].
    now rewrite Hloop.
Qed.

(** The same for [get_similar_meetings], when the meeting is there with
    its details and a non-empty decodable blob. *)
Lemma get_similar_meetings_returns (load_details : Row -> result unit)
    (threshold : float) (db : database) (meeting_id : Z) (row : Row)
    (blob : list byte) (v : list float) :
  find (fun r => row_id r =? meeting_id) db = Some row ->
  load_details row = Ok tt ->
  row_embeddings row = Some blob -> blob <> [] ->
  _deserialize_embeddings blob = Ok v ->
  (forall c, In c (select_embedded_except db meeting_id) -> decodable c) ->
  stored_embedding db meeting_id = v
  /\ exists results,
       map scored_hit results
       = map (scored_candidate v)
           (similar_survivors threshold v db meeting_id)
       /\ forall max_results,
            get_similar_meetings_above load_details threshold db meeting_id
              max_results = (rank results max_results, []).
Proof.
  intros Hfind Hld Hblob Hne Hv Hall.
  assert (Hst : stored_embedding db meeting_id = v).
  { unfold stored_embedding. rewrite Hfind.
    destruct row as [i t d s tr e]. cbn [row_embeddings] in Hblob.
    rewrite Hblob. now rewrite Hv. }
  split; [exact Hst|].
  destruct (similar_loop_returns threshold v _ Hall []) as [results Hloop].
  exists results. split.
  - now rewrite (similar_loop_filter _ _ _ _ _ Hloop).
  - intros n.
    unfold get_similar_meetings_above, get_meeting_by_id, similar_try.
    rewrite Hfind, Hld, Hblob. destruct blob as [|b blob]; [now elim Hne|].
    rewrite Hv. cbn [bind]. now rewrite Hloop.
Qed.

Lemma length_rank (results : list Hit) (n : Z) :
  Z.of_nat (List.length (rank results n))
  = if 0 <=? n
    then Z.min n (Z.of_nat (List.length results))
    else Z.max 0 (Z.of_nat (List.length results) + n).
Proof.
  unfold rank, Py.slice_to.
  destruct (0 <=? n) eqn:Hn; rewrite length_firstn, length_sort_desc.
  - apply Z.leb_le in Hn. lia.
  - apply Z.leb_gt in Hn. lia.
Qed.

Lemma Permutation_rank (results : list Hit) (n : Z) :
  Z.of_nat (List.length results) <= n ->
  Permutation (rank results n) results.
Proof.
  intros Hn. unfold rank, Py.slice_to.
  destruct (Z.leb_spec 0 n); [|lia].
  rewrite firstn_all2 by (rewrite length_sort_desc; lia).
  apply Permutation_sort_desc.
Qed.

Lemma length_survivors (threshold : float) (q : list float)
    (candidates : list (Row * list byte)) (results : list Hit) :
  map scored_hit results
  = map (scored_candidate q) (filter (above threshold q) candidates) ->
  List.length results
  = List.length (filter (above threshold q) candidates).
Proof.
  intros Heq. apply (f_equal (@List.length _)) in Heq.
  now rewrite !length_map in Heq.
Qed.

(** ** Failures and their report *)

(** A ragged blob anywhere among the candidates makes the loop raise. *)
Lemma search_loop_ragged (threshold : float) (q : list float)
    (rows : list (Row * list byte)) (c : Row * list byte) :
  In c rows ->
  Z.of_nat (List.length (snd c)) mod 4 <> 0 ->
  forall acc, exists e, search_loop threshold q rows acc = Raise e.
Proof.
  intros Hin Hmod.
  induction rows as [|[row blob] rows IH]; [contradiction|].
  intros acc. destruct Hin as [<- | Hin].
  - cbn [snd] in Hmod. cbn [search_loop].
    rewrite (deserialize_ragged blob Hmod).
    destruct blob; [now elim Hmod | eexists; reflexivity].
  - cbn [search_loop].
    destruct blob as [|b blob]; [now apply IH|].
    destruct (_deserialize_embeddings (b :: blob)) as [v|e];
      [|eexists; reflexivity].
    destruct (cosine_returns q v) as [s Hs].
    cbn [bind]. rewrite Hs. cbn [bind].
    destruct (Float.gtb s threshold); [|now apply IH].
    destruct (transcript_excerpt (row_transcript row));
      [now apply IH | eexists; reflexivity].
Qed.

Lemma similar_loop_ragged (threshold : float) (q : list float)
    (rows : list (Row * list byte)) (c : Row * list byte) :
  In c rows ->
  Z.of_nat (List.length (snd c)) mod 4 <> 0 ->
  forall acc, exists e, similar_loop threshold q rows acc = Raise e.
Proof.
  intros Hin Hmod.
  induction rows as [|[row blob] rows IH]; [contradiction|].
  intros acc. destruct Hin as [<- | Hin].
  - cbn [snd] in Hmod. cbn [similar_loop].
    rewrite (deserialize_ragged blob Hmod). eexists. reflexivity.
  - cbn [similar_loop].
    destruct (_deserialize_embeddings blob) as [v|e];
      [|eexists; reflexivity].
    destruct (cosine_returns q v) as [s Hs].
    cbn [bind]. rewrite Hs. cbn [bind].
    destruct (Float.gtb s threshold); now apply IH.
Qed.

(** C8, as the code has it: when a search fails -- the provider raises,
    or a stored blob is malformed -- the caller gets the empty list together
    with one error message on the page; a search that does not fail, the
    one with no match above the threshold included, returns its list with
    no message.  (A dimension mismatch is no failure.) *)
Theorem failed_search_is_reported
    (embeddings_create : string -> result (list float))
    (load_details : Row -> result unit) (threshold : float) (db : database)
    (query : string) (meeting_id max_results : Z) :
  (forall e,
     search_outcome embeddings_create threshold db query max_results
     = Raise e ->
     exists msg,
       search_meetings_above embeddings_create threshold db query max_results
       = ([], [msg]))
  /\ (forall results,
        search_outcome embeddings_create threshold db query max_results
        = Ok results ->
        search_meetings_above embeddings_create threshold db query max_results
        = (results, []))
  /\ (forall e,
        similar_outcome load_details threshold db meeting_id max_results
        = Raise e ->
        exists msg,
          get_similar_meetings_above load_details threshold db meeting_id
            max_results = ([], [msg]))
  /\ (forall results,
        similar_outcome load_details threshold db meeting_id max_results
        = Ok results ->
        get_similar_meetings_above load_details threshold db meeting_id
          max_results = (results, []))
  /\ (forall e,
        embeddings_create query = Raise e ->
        search_outcome embeddings_create threshold db query max_results
        = Raise e)
  /\ (forall q c,
        embeddings_create query = Ok q -> q <> [] ->
        In c (select_embedded db) ->
        Z.of_nat (List.length (snd c)) mod 4 <> 0 ->
        exists e,
          search_outcome embeddings_create threshold db query max_results
          = Raise e)
  /\ (forall row own,
        find (fun r => row_id r =? meeting_id) db = Some row ->
        load_details row = Ok tt ->
        row_embeddings row = Some own ->
        Z.of_nat (List.length own) mod 4 <> 0
        \/ (own <> []
            /\ exists c, In c (select_embedded_except db meeting_id)
                         /\ Z.of_nat (List.length (snd c)) mod 4 <> 0) ->
        exists e,
          similar_outcome load_details threshold db meeting_id max_results
          = Raise e).
Proof.
  pose proof (search_meetings_handles embeddings_create threshold db query
                max_results) as Hs.
  pose proof (get_similar_meetings_handles load_details threshold db
                meeting_id max_results) as Hg.
  repeat split.
  - intros e He. now rewrite He in Hs.
  - intros results Hr. now rewrite Hr in Hs.
  - intros e He. now rewrite He in Hg.
  - intros results Hr. now rewrite Hr in Hg.
  - intros e He. unfold search_outcome. now rewrite He.
  - intros q c Hq Hne Hc Hmod. unfold search_outcome, search_try.
    rewrite Hq. cbn [bind].
    destruct (search_loop_ragged threshold q _ c Hc Hmod []) as [e He].
    exists e. rewrite He. now destruct q.
  - intros row own Hfind Hload Hown Hbad.
    unfold similar_outcome, similar_try. rewrite Hfind, Hload, Hown.
    cbn [bind].
    destruct Hbad as [Hmod | [Hne [c [Hc Hmod]]]].
    + rewrite (deserialize_ragged own Hmod).
      destruct own; [now elim Hmod | eexists; reflexivity].
    + destruct own as [|b own]; [now elim Hne|].
      destruct (_deserialize_embeddings (b :: own)) as [v|e];
        [|eexists; reflexivity].
      cbn [bind].
      destruct (similar_loop_ragged threshold v _ c Hc Hmod []) as [e He].
      exists e. now rewrite He.
Qed.

Lemma failed_search_is_reported_witness :
  search_outcome sample_provider Float.lit_0_3
    (sample_db ++ [sample_row_ragged]) "budget" 10
  = Raise MalformedEncoding
  /\ exists msg,
      search_meetings_above sample_provider Float.lit_0_3
        (sample_db ++ [sample_row_ragged]) "budget" 10 = ([], [msg]).
Proof.
  assert (H : search_outcome sample_provider Float.lit_0_3
                (sample_db ++ [sample_row_ragged]) "budget" 10
              = Raise MalformedEncoding) by (vm_compute; reflexivity).
  split; [exact H|].
  exact (proj1 (failed_search_is_reported sample_provider sample_details
                  Float.lit_0_3 (sample_db ++ [sample_row_ragged])
                  "budget" 1 10) MalformedEncoding H).
Defined.

(** C8 as stated fails for the dimension mismatch: a table with a
    three-dimensional vector searched with a two-dimensional query returns
    two meetings and reports no error. *)
Lemma dimension_mismatch_is_no_failure :
  (exists c v,
     In c (select_embedded (sample_row_3d :: sample_db))
     /\ _deserialize_embeddings (snd c) = Ok v
     /\ List.length v
        <> List.length (fst (get_embeddings sample_provider "budget")))
  /\ ~ (fst (search_meetings sample_provider (sample_row_3d :: sample_db)
               "budget" 10) = []
        /\ snd (search_meetings sample_provider (sample_row_3d :: sample_db)
                  "budget" 10) <> []).
Proof.
  split.
  - eexists. eexists. split; [left; reflexivity|].
    split; [vm_compute; reflexivity | discriminate].
  - intros [Hnil _]. vm_compute in Hnil. discriminate.
Qed.

(** ** The result cap *)

Lemma rank_0 (results : list Hit) : rank results 0 = [].
Proof. reflexivity. Qed.

Lemma rank_nil (n : Z) : rank [] n = [].
Proof.
  unfold rank, Py.slice_to. cbn [Py.sort_desc fold_right].
  destruct (0 <=? n); apply firstn_nil.
Qed.

Lemma rank_negative (results : list Hit) (n : Z) :
  n < 0 ->
  rank results n
  = firstn (List.length results - Z.to_nat (- n))
      (Py.sort_desc similarity results).
Proof.
  intros Hn. unfold rank, Py.slice_to.
  destruct (Z.leb_spec 0 n); [lia|].
  rewrite length_sort_desc. f_equal. lia.
Qed.

(** The messages do not depend on [max_results]. *)
Lemma search_messages_any_limit
    (embeddings_create : string -> result (list float)) (threshold : float)
    (db : database) (query : string) (n n' : Z) :
  snd (search_meetings_above embeddings_create threshold db query n)
  = snd (search_meetings_above embeddings_create threshold db query n').
Proof.
  unfold search_meetings_above, get_embeddings, search_try.
  destruct (embeddings_create query) as [[|x q]|e]; try reflexivity.
  now destruct (search_loop threshold (x :: q) (select_embedded db) []).
Qed.

Lemma similar_messages_any_limit (load_details : Row -> result unit)
    (threshold : float) (db : database) (meeting_id n n' : Z) :
  snd (get_similar_meetings_above load_details threshold db meeting_id n)
  = snd (get_similar_meetings_above load_details threshold db meeting_id n').
Proof.
  unfold get_similar_meetings_above, get_meeting_by_id, similar_try.
  destruct (find _ db) as [row|]; [|reflexivity].
  destruct (load_details row) as [[]|e]; [|reflexivity].
  destruct (row_embeddings row) as [[|b blob]|]; try reflexivity.
  destruct (_deserialize_embeddings (b :: blob)) as [v|e]; [|reflexivity].
  cbn [bind].
  now destruct (similar_loop threshold v
                  (select_embedded_except db meeting_id) []).
Qed.

(** ** Ranking *)

Lemma map_filter_agree {A B C : Type} (f : A -> C) (g : B -> C)
    (P : C -> bool) (l1 : list A) :
  forall l2,
    map f l1 = map g l2 ->
    map f (filter (fun x => P (f x)) l1) = map g (filter (fun y => P (g y)) l2).
Proof.
  induction l1 as [|x l1 IH]; intros [|y l2] Heq; try discriminate;
    [reflexivity|].
  injection Heq as Hxy Heq. cbn [filter]. rewrite <- Hxy.
  destruct (P (f x)); cbn [map]; rewrite (IH _ Heq); congruence.
Qed.

Lemma gtb_ordered (s threshold : float) :
  Float.gtb s threshold = true -> order_key s <> None.
Proof. intros H. now apply ltb_not_nan in H. Qed.

Lemma rank_all (results : list Hit) (n : Z) :
  Z.of_nat (List.length results) <= n ->
  rank results n = Py.sort_desc similarity results.
Proof.
  intros Hn. unfold rank, Py.slice_to.
  destruct (Z.leb_spec 0 n); [|lia].
  apply firstn_all2. rewrite length_sort_desc. lia.
Qed.

(** A negative cap [-k] drops the last [k] entries of the sorted list. *)
Lemma rank_drops_last (results : list Hit) (n big : Z) :
  n < 0 -> Z.of_nat (List.length results) <= big ->
  exists dropped,
    rank results n ++ dropped = rank results big
    /\ Z.of_nat (List.length dropped)
       = Z.min (- n) (Z.of_nat (List.length results)).
Proof.
  intros Hn Hbig. rewrite rank_negative by assumption.
  rewrite (rank_all _ _ Hbig).
  exists (skipn (List.length results - Z.to_nat (- n))
            (Py.sort_desc similarity results)).
  split; [apply firstn_skipn|].
  rewrite length_skipn, length_sort_desc. lia.
Qed.

Lemma rank_negative_nil (results : list Hit) (n : Z) :
  n < 0 ->
  (rank results n = [] <-> Z.of_nat (List.length results) <= - n).
Proof.
  intros Hn. rewrite rank_negative by assumption. split.
  - intros Hnil. apply (f_equal (@List.length Hit)) in Hnil.
    rewrite length_firstn, length_sort_desc in Hnil. cbn in Hnil. lia.
  - intros Hle.
    replace (List.length results - Z.to_nat (- n))%nat with 0%nat by lia.
    reflexivity.
Qed.

(** The ranking of a list of hits that mirrors the candidates above the
    threshold, in the order of the candidates. *)
Lemma rank_sorted_stable (threshold : float) (q : list float)
    (candidates : list (Row * list byte)) (results : list Hit) (n : Z) :
  map scored_hit results
  = map (scored_candidate q) (filter (above threshold q) candidates) ->
  StronglySorted desc_similarity (rank results n)
  /\ (forall k,
        prefix (map hit_id (with_key similarity k (rank results n)))
          (map (fun c => row_id (fst c))
             (filter (tied k q) (filter (above threshold q) candidates))))
  /\ (0 <= n -> Z.of_nat (List.length (rank results n)) <= n).
Proof.
  intros Heq. split; [|split].
  - apply (sorted_prefix similarity _ (Py.sort_desc similarity results)).
    + apply prefix_slice_to.
    + apply sort_desc_sorted. apply Forall_forall. intros h Hh.
      destruct (hit_from_candidate _ _ _ _ h Heq Hh) as [c [_ [_ [_ Hgt]]]].
      exact (gtb_ordered _ _ Hgt).
  - intros k.
    assert (Hk : map hit_id (with_key similarity k results)
                 = map (fun c => row_id (fst c))
                     (filter (tied k q)
                        (filter (above threshold q) candidates))).
    { pose proof (map_filter_agree scored_hit (scored_candidate q)
                    (fun p => match snd p with
                              | Some s => Float.eqb s k
                              | None => false
                              end) _ _ Heq) as H.
      apply (f_equal (map fst)) in H. rewrite !map_map in H. exact H. }
    rewrite <- Hk, <- (with_key_sort_desc similarity k results).
    apply prefix_map, prefix_filter, prefix_slice_to.
  - intros Hn. now apply length_slice_to.
Qed.

(** C4, as the code has it: the list returned by either search is sorted
    by descending similarity; its entries of any one score stand in the
    order in which the table supplied their rows; and for
    [max_results >= 0] it has at most [max_results] entries. *)
Theorem ranked_by_similarity
    (embeddings_create : string -> result (list float))
    (load_details : Row -> result unit) (threshold : float) (db : database)
    (query : string) (meeting_id max_results : Z) :
  let q := fst (get_embeddings embeddings_create query) in
  let out :=
    fst (search_meetings_above embeddings_create threshold db query
           max_results) in
  let v := stored_embedding db meeting_id in
  let out' :=
    fst (get_similar_meetings_above load_details threshold db meeting_id
           max_results) in
  (StronglySorted desc_similarity out
   /\ (forall k,
         prefix (map hit_id (with_key similarity k out))
           (map (fun c => row_id (fst c))
              (filter (tied k q)
                 (filter (above threshold q)
                    (filter nonempty_blob (select_embedded db))))))
   /\ (0 <= max_results -> Z.of_nat (List.length out) <= max_results))
  /\ (StronglySorted desc_similarity out'
      /\ (forall k,
            prefix (map hit_id (with_key similarity k out'))
              (map (fun c => row_id (fst c))
                 (filter (tied k v)
                    (filter (above threshold v)
                       (select_embedded_except db meeting_id)))))
      /\ (0 <= max_results -> Z.of_nat (List.length out') <= max_results)).
Proof.
  intros q out v out'. split.
  - destruct (search_meetings_ranked embeddings_create threshold db query
                max_results) as [H | [results [Hloop H]]];
      subst out; rewrite H.
    + repeat split; [constructor | now eexists | cbn; lia].
    + apply rank_sorted_stable.
      now rewrite (search_loop_filter _ _ _ _ _ Hloop).
  - destruct (get_similar_meetings_ranked load_details threshold db
                meeting_id max_results) as [H | [results [Hloop H]]];
      subst out'; rewrite H.
    + repeat split; [constructor | now eexists | cbn; lia].
    + apply rank_sorted_stable.
      now rewrite (similar_loop_filter _ _ _ _ _ Hloop).
Qed.

Lemma ranked_by_similarity_witness :
  0 <= 1
  /\ Z.of_nat
       (List.length
          (fst (search_meetings_above sample_provider Float.lit_0_3 sample_db
                  "budget" 1))) <= 1.
Proof.
  split; [lia|].
  apply (ranked_by_similarity sample_provider sample_details Float.lit_0_3
           sample_db "budget" 1 1).
  lia.
Defined.

(** C4 as stated fails for a negative cap: with [max_results = -1], for
    which the result is to be empty, [get_similar_meetings] returns
    meeting 6 and [search_meetings] returns meetings 1 and 6, both without
    a message: more entries than the cap allows. *)
Lemma negative_limit_exceeds_cap :
  map hit_id
    (fst (get_similar_meetings sample_details sample_db_twin 1 (-1))) = [6]
  /\ snd (get_similar_meetings sample_details sample_db_twin 1 (-1)) = []
  /\ map hit_id
       (fst (search_meetings sample_provider sample_db_twin "budget" (-1)))
     = [1; 6]
  /\ snd (search_meetings sample_provider sample_db_twin "budget" (-1)) = []
  /\ ~ Z.of_nat
         (List.length
            (fst (get_similar_meetings sample_details sample_db_twin 1
                    (-1))))
       <= Z.max 0 (-1)
  /\ ~ Z.of_nat
         (List.length
            (fst (search_meetings sample_provider sample_db_twin "budget"
                    (-1))))
       <= Z.max 0 (-1).
Proof.
  split; [vm_compute; reflexivity|]. split; [vm_compute; reflexivity|].
  split; [vm_compute; reflexivity|]. split; [vm_compute; reflexivity|].
  split; vm_compute; intros H; now apply H.
Qed.

(** ** The threshold *)

Lemma above_same_score (threshold : float) (q : list float)
    (c c' : Row * list byte) :
  scored_candidate q c' = scored_candidate q c ->
  above threshold q c' = above threshold q c.
Proof.
  unfold scored_candidate, above. intros H. injection H as _ Hs.
  now rewrite Hs.
Qed.

Lemma returned_iff_above (threshold : float) (q : list float)
    (candidates : list (Row * list byte)) (out : list Hit)
    (c : Row * list byte) :
  Permutation (map scored_hit out)
    (map (scored_candidate q) (filter (above threshold q) candidates)) ->
  In c candidates ->
  (In (scored_candidate q c) (map scored_hit out)
   <-> above threshold q c = true).
Proof.
  intros Hperm Hc. split.
  - intros Hin. apply (Permutation_in _ Hperm) in Hin.
    apply in_map_iff in Hin as [c' [Hc' Hin]].
    apply filter_In in Hin as [_ Habove].
    now rewrite <- (above_same_score _ _ _ _ Hc').
  - intros Habove. apply (Permutation_in _ (Permutation_sym Hperm)).
    apply in_map_iff. exists c. split; [reflexivity|]. now apply filter_In.
Qed.

(** The ranking, under a cap that does not cut, of a list of hits that
    mirrors the candidates above the threshold. *)
Lemma rank_uncut (threshold : float) (q : list float)
    (candidates : list (Row * list byte)) (results : list Hit) (big : Z) :
  map scored_hit results
  = map (scored_candidate q) (filter (above threshold q) candidates) ->
  Z.of_nat (List.length (filter (above threshold q) candidates)) <= big ->
  Permutation (map scored_hit (rank results big))
    (map (scored_candidate q) (filter (above threshold q) candidates)).
Proof.
  intros Heq Hbig. rewrite <- Heq. apply Permutation_map, Permutation_rank.
  now rewrite (length_survivors _ _ _ _ Heq).
Qed.

(** When the cap does not cut, a candidate is among the ranked results
    exactly when it scores above the threshold. *)
Lemma kept_iff_above (threshold : float) (q : list float)
    (candidates : list (Row * list byte)) (results : list Hit) (n : Z)
    (c : Row * list byte) :
  map scored_hit results
  = map (scored_candidate q) (filter (above threshold q) candidates) ->
  Z.of_nat (List.length candidates) <= n ->
  In c candidates ->
  (In (scored_candidate q c) (map scored_hit (rank results n))
   <-> above threshold q c = true).
Proof.
  intros Heq Hn Hc.
  assert (Hlen : (List.length results <= List.length candidates)%nat).
  { rewrite <- (length_map scored_hit), Heq, length_map.
    apply filter_length_le. }
  rewrite rank_all by lia.
  assert (Hsort : In (scored_candidate q c)
                    (map scored_hit (Py.sort_desc similarity results))
                  <-> In (scored_candidate q c) (map scored_hit results)).
  { rewrite !in_map_iff. split; intros [h [Hh Hin]]; exists h;
      (split; [exact Hh|]); now apply (In_sort_desc similarity). }
  rewrite Hsort, Heq, in_map_iff. split.
  - intros [c' [Hc' Hin]]. apply filter_In in Hin as [_ Habove].
    now rewrite <- (above_same_score _ _ _ _ Hc').
  - intros Habove. exists c. split; [reflexivity|].
    now apply filter_In.
Qed.

Lemma Forall_rank_above (threshold : float) (q : list float)
    (candidates : list (Row * list byte)) (results : list Hit) (n : Z) :
  map scored_hit results
  = map (scored_candidate q) (filter (above threshold q) candidates) ->
  Forall (fun h => Float.gtb (similarity h) threshold = true)
    (rank results n).
Proof.
  intros Heq. apply Forall_forall. intros h Hh. apply In_rank in Hh.
  now destruct (hit_from_candidate _ _ _ _ h Heq Hh) as [c [_ [_ [_ Hgt]]]].
Qed.

Lemma none_above (threshold : float) (q : list float)
    (candidates : list (Row * list byte)) :
  (forall c s, In c candidates -> score q (snd c) = Some s ->
               Float.gtb s threshold = false) ->
  filter (above threshold q) candidates = [].
Proof.
  intros Hall. induction candidates as [|c candidates IH]; [reflexivity|].
  cbn [filter].
  assert (Hc : above threshold q c = false).
  { unfold above. destruct (score q (snd c)) as [s|] eqn:Hs; [|reflexivity].
    apply (Hall c s); [now left | exact Hs]. }
  rewrite Hc. apply IH. intros c' s Hin. apply Hall. now right.
Qed.

Lemma filter_subset_nil {A : Type} (f g : A -> bool) (l : list A) :
  filter f l = [] -> filter f (filter g l) = [].
Proof.
  induction l as [|x l IH]; [reflexivity|].
  cbn [filter]. destruct (f x) eqn:Hf; [discriminate|].
  intros Hnil. destruct (g x); cbn [filter]; rewrite ?Hf; auto.
Qed.

(** C3: both loops keep exactly the candidates whose similarity is
    strictly greater than the threshold, in the order of the table, so a
    candidate scoring exactly the threshold is left out; every returned
    entry scores strictly above the threshold; with threshold [1.0] and no
    candidate scoring above [1.0] both searches return the empty list; and
    when nothing fails (the provider embeds the query, respectively the
    meeting is stored with its details and a decodable embedding; the blobs
    of the candidates decode; the rows to be returned have a transcript)
    and the cap is at least the number of candidates above the threshold,
    [search_meetings] and [get_similar_meetings] report nothing and return,
    up to the order, exactly the candidates that score strictly above the
    threshold: a candidate is returned if and only if it does. *)
Theorem keeps_strictly_above
    (embeddings_create : string -> result (list float))
    (load_details : Row -> result unit) (threshold : float) (db : database)
    (query : string) (meeting_id max_results : Z) :
  let q := fst (get_embeddings embeddings_create query) in
  let v := stored_embedding db meeting_id in
  (forall results,
     search_loop threshold q (select_embedded db) [] = Ok results ->
     map scored_hit results
     = map (scored_candidate q)
         (filter (above threshold q)
            (filter nonempty_blob (select_embedded db))))
  /\ (forall results,
        similar_loop threshold v (select_embedded_except db meeting_id) []
        = Ok results ->
        map scored_hit results
        = map (scored_candidate v)
            (filter (above threshold v)
               (select_embedded_except db meeting_id)))
  /\ (forall c, score q (snd c) = Some threshold ->
                above threshold q c = false)
  /\ Forall (fun h => Float.gtb (similarity h) threshold = true)
       (fst (search_meetings_above embeddings_create threshold db query
               max_results))
  /\ Forall (fun h => Float.gtb (similarity h) threshold = true)
       (fst (get_similar_meetings_above load_details threshold db meeting_id
               max_results))
  /\ (forall results c,
        search_loop threshold q (select_embedded db) [] = Ok results ->
        Z.of_nat (List.length (select_embedded db)) <= max_results ->
        In c (select_embedded db) -> nonempty_blob c = true ->
        (In (scored_candidate q c)
           (map scored_hit (rank results max_results))
         <-> above threshold q c = true))
  /\ (forall results c,
        similar_loop threshold v (select_embedded_except db meeting_id) []
        = Ok results ->
        Z.of_nat (List.length (select_embedded_except db meeting_id))
        <= max_results ->
        In c (select_embedded_except db meeting_id) ->
        (In (scored_candidate v c)
           (map scored_hit (rank results max_results))
         <-> above threshold v c = true))
  /\ ((forall c s, In c (select_embedded db) -> score q (snd c) = Some s ->
                   Float.gtb s Float.one = false) ->
      fst (search_meetings_above embeddings_create Float.one db query
             max_results) = [])
  /\ ((forall c s, In c (select_embedded_except db meeting_id) ->
                   score v (snd c) = Some s ->
                   Float.gtb s Float.one = false) ->
      fst (get_similar_meetings_above load_details Float.one db meeting_id
             max_results) = [])
  /\ (embeddings_create query = Ok q -> q <> [] ->
      (forall c, In c (select_embedded db) -> searchable threshold q c) ->
      Z.of_nat (List.length (search_survivors threshold q db))
      <= max_results ->
      snd (search_meetings_above embeddings_create threshold db query
             max_results) = []
      /\ Permutation
           (map scored_hit
              (fst (search_meetings_above embeddings_create threshold db
                      query max_results)))
           (map (scored_candidate q) (search_survivors threshold q db))
      /\ (forall c,
            In c (select_embedded db) -> nonempty_blob c = true ->
            (In (scored_candidate q c)
               (map scored_hit
                  (fst (search_meetings_above embeddings_create threshold db
                          query max_results)))
             <-> above threshold q c = true)))
  /\ (forall row blob,
        find (fun r => row_id r =? meeting_id) db = Some row ->
        load_details row = Ok tt ->
        row_embeddings row = Some blob -> blob <> [] ->
        decodable (row, blob) ->
        (forall c, In c (select_embedded_except db meeting_id) ->
                   decodable c) ->
        Z.of_nat (List.length (similar_survivors threshold v db meeting_id))
        <= max_results ->
        snd (get_similar_meetings_above load_details threshold db meeting_id
               max_results) = []
        /\ Permutation
             (map scored_hit
                (fst (get_similar_meetings_above load_details threshold db
                        meeting_id max_results)))
             (map (scored_candidate v)
                (similar_survivors threshold v db meeting_id))
        /\ (forall c,
              In c (select_embedded_except db meeting_id) ->
              (In (scored_candidate v c)
                 (map scored_hit
                    (fst (get_similar_meetings_above load_details threshold
                            db meeting_id max_results)))
               <-> above threshold v c = true))).
Proof.
  intros q v.
  split; [|split; [|split; [|split; [|split; [|split; [|split; [|split;
    [|split; [|split]]]]]]]]].
  - intros results H. now rewrite (search_loop_filter _ _ _ _ _ H).
  - intros results H. now rewrite (similar_loop_filter _ _ _ _ _ H).
  - intros c Hc. unfold above. rewrite Hc. apply gtb_irrefl.
  - destruct (search_meetings_ranked embeddings_create threshold db query
                max_results) as [H | [results [Hloop H]]]; rewrite H;
      [constructor|].
    apply search_loop_filter in Hloop. exact (Forall_rank_above _ _ _ _ _ Hloop).
  - destruct (get_similar_meetings_ranked load_details threshold db
                meeting_id max_results) as [H | [results [Hloop H]]];
      rewrite H; [constructor|].
    apply similar_loop_filter in Hloop.
    exact (Forall_rank_above _ _ _ _ _ Hloop).
  - intros results c Hloop Hn Hc Hne.
    apply search_loop_filter in Hloop. cbn [map app] in Hloop.
    apply (kept_iff_above _ _ _ _ _ c Hloop).
    + pose proof (filter_length_le nonempty_blob (select_embedded db)). lia.
    + now apply filter_In.
  - intros results c Hloop Hn Hc.
    apply similar_loop_filter in Hloop.
    exact (kept_iff_above _ _ _ _ _ c Hloop Hn Hc).
  - intros Hall.
    destruct (search_meetings_ranked embeddings_create Float.one db query
                max_results) as [H | [results [Hloop H]]]; rewrite H;
      [reflexivity|].
    apply search_loop_filter in Hloop.
    rewrite (filter_subset_nil _ _ _ (none_above _ _ _ Hall)) in Hloop.
    destruct results; [apply rank_nil | discriminate].
  - intros Hall.
    destruct (get_similar_meetings_ranked load_details Float.one db
                meeting_id max_results) as [H | [results [Hloop H]]];
      rewrite H; [reflexivity|].
    apply similar_loop_filter in Hloop. subst v.
    rewrite (none_above _ _ _ Hall) in Hloop.
    destruct results; [apply rank_nil | discriminate].
  - intros Hq Hne Hall Hn.
    destruct (search_meetings_returns embeddings_create threshold db query
                q Hq Hne Hall) as [results [Hmap Hout]].
    rewrite Hout. cbn [fst snd]. unfold search_survivors in *.
    pose proof (rank_uncut _ _ _ _ _ Hmap Hn) as Hperm.
    split; [reflexivity|]. split; [exact Hperm|].
    intros c Hc Hblob. apply (returned_iff_above _ _ _ _ _ Hperm).
    now apply filter_In.
  - intros row blob Hfind Hld Hblob Hne [v0 Hv0] Hall Hn.
    cbn [snd] in Hv0.
    destruct (get_similar_meetings_returns load_details threshold db
                meeting_id row blob v0 Hfind Hld Hblob Hne Hv0 Hall)
      as [Hst [results [Hmap Hout]]].
    subst v. rewrite Hst in *. rewrite Hout. cbn [fst snd].
    unfold similar_survivors in *.
    pose proof (rank_uncut _ _ _ _ _ Hmap Hn) as Hperm.
    split; [reflexivity|]. split; [exact Hperm|].
    intros c Hc. now apply (returned_iff_above _ _ _ _ _ Hperm).
Qed.

(** The candidates of the sample table can be searched with the query
    vector [[1, 0]]. *)
Ltac sample_candidates :=
  let c := fresh "c" in
  let Hc := fresh "Hc" in
  intros c Hc; vm_compute in Hc;
  destruct Hc as [<-|[<-|[<-|[]]]];
  (split;
   [eexists; vm_compute; reflexivity | intros _; vm_compute; discriminate]).

Lemma keeps_strictly_above_witness :
  sample_provider "budget" = Ok (fst (get_embeddings sample_provider "budget"))
  /\ fst (get_embeddings sample_provider "budget") <> []
  /\ (forall c,
        In c (select_embedded sample_db) ->
        searchable Float.lit_0_3
          (fst (get_embeddings sample_provider "budget")) c)
  /\ Z.of_nat
       (List.length
          (search_survivors Float.lit_0_3
             (fst (get_embeddings sample_provider "budget")) sample_db))
     <= 10
  /\ In (scored_candidate (fst (get_embeddings sample_provider "budget"))
           (sample_row 3 [lit_0_9; lit_0_1],
            _serialize_embeddings [lit_0_9; lit_0_1]))
       (map scored_hit
          (fst (search_meetings_above sample_provider Float.lit_0_3
                  sample_db "budget" 10))).
Proof.
  assert (Hq : sample_provider "budget"
               = Ok (fst (get_embeddings sample_provider "budget")))
    by reflexivity.
  assert (Hne : fst (get_embeddings sample_provider "budget") <> [])
    by (vm_compute; discriminate).
  assert (Hall : forall c,
            In c (select_embedded sample_db) ->
            searchable Float.lit_0_3
              (fst (get_embeddings sample_provider "budget")) c).
  { sample_candidates. }
  assert (Hn : Z.of_nat
                 (List.length
                    (search_survivors Float.lit_0_3
                       (fst (get_embeddings sample_provider "budget"))
                       sample_db)) <= 10).
  { vm_compute; discriminate. }
  split; [exact Hq|]. split; [exact Hne|]. split; [exact Hall|].
  split; [exact Hn|].
  pose proof (keeps_strictly_above sample_provider sample_details
                Float.lit_0_3 sample_db "budget" 1 10) as T.
  cbv zeta in T.
  destruct T as (_ & _ & _ & _ & _ & _ & _ & _ & _ & T & _).
  destruct (T Hq Hne Hall Hn) as (_ & _ & Hiff).
  assert (Hc : In (sample_row 3 [lit_0_9; lit_0_1],
                   _serialize_embeddings [lit_0_9; lit_0_1])
                 (select_embedded sample_db))
    by (right; right; left; reflexivity).
  assert (Hb : nonempty_blob (sample_row 3 [lit_0_9; lit_0_1],
                   _serialize_embeddings [lit_0_9; lit_0_1]) = true)
    by (vm_compute; reflexivity).
  assert (Ha : above Float.lit_0_3
                 (fst (get_embeddings sample_provider "budget"))
                 (sample_row 3 [lit_0_9; lit_0_1],
                   _serialize_embeddings [lit_0_9; lit_0_1]) = true)
    by (vm_compute; reflexivity).
  exact (proj2 (Hiff _ Hc Hb) Ha).
Defined.

(** ** The cap, zero and negative *)

Lemma search_loop_no_blob (threshold : float) (q : list float)
    (rows : list (Row * list byte)) :
  filter nonempty_blob rows = [] ->
  forall acc, search_loop threshold q rows acc = Ok acc.
Proof.
  induction rows as [|[row blob] rows IH]; intros Hnone acc;
    [reflexivity|].
  cbn [filter] in Hnone. unfold nonempty_blob at 1 in Hnone.
  cbn [snd] in Hnone. destruct blob as [|b blob]; [|discriminate].
  cbn [search_loop]. now apply IH.
Qed.

(** With an embedded query and no candidate with a non-empty blob,
    [search_meetings] returns the empty list and reports nothing. *)
Lemma search_meetings_no_candidate
    (embeddings_create : string -> result (list float)) (threshold : float)
    (db : database) (query : string) (q : list float) (n : Z) :
  embeddings_create query = Ok q ->
  filter nonempty_blob (select_embedded db) = [] ->
  search_meetings_above embeddings_create threshold db query n = ([], []).
Proof.
  intros Hq Hnone. unfold search_meetings_above, get_embeddings, search_try.
  rewrite Hq. destruct q as [|x q]; [reflexivity|].
  rewrite (search_loop_no_blob _ _ _ Hnone). cbn [bind]. now rewrite rank_nil.
Qed.

(** For a stored meeting with its details whose blob, if any, decodes, and
    no other embedded meeting, [get_similar_meetings] returns the empty list
    and reports nothing. *)
Lemma get_similar_meetings_no_candidate (load_details : Row -> result unit)
    (threshold : float) (db : database) (meeting_id : Z) (row : Row) (n : Z) :
  find (fun r => row_id r =? meeting_id) db = Some row ->
  load_details row = Ok tt ->
  (forall blob, row_embeddings row = Some blob -> decodable (row, blob)) ->
  select_embedded_except db meeting_id = [] ->
  get_similar_meetings_above load_details threshold db meeting_id n
  = ([], []).
Proof.
  intros Hfind Hld Hblob Hnone.
  unfold get_similar_meetings_above, get_meeting_by_id, similar_try.
  rewrite Hfind, Hld.
  destruct (row_embeddings row) as [[|b blob]|]; try reflexivity.
  destruct (Hblob (b :: blob) eq_refl) as [v Hv]. cbn [snd] in Hv.
  rewrite Hv, Hnone. cbn [bind similar_loop]. now rewrite rank_nil.
Qed.

(** The ranking under a negative cap of a list of hits that mirrors the
    candidates above the threshold. *)
Lemma rank_negative_of_survivors (threshold : float) (q : list float)
    (candidates : list (Row * list byte)) (results : list Hit) (n big : Z) :
  map scored_hit results
  = map (scored_candidate q) (filter (above threshold q) candidates) ->
  n < 0 ->
  Z.of_nat (List.length (filter (above threshold q) candidates)) <= big ->
  Z.of_nat (List.length (rank results n))
  = Z.max 0
      (Z.of_nat (List.length (filter (above threshold q) candidates)) + n)
  /\ (exists dropped,
        rank results n ++ dropped = rank results big
        /\ Z.of_nat (List.length dropped)
           = Z.min (- n)
               (Z.of_nat
                  (List.length (filter (above threshold q) candidates))))
  /\ (rank results n = []
      <-> Z.of_nat (List.length (filter (above threshold q) candidates))
          <= - n)
  /\ StronglySorted desc_similarity (rank results big)
  /\ Permutation (map scored_hit (rank results big))
       (map (scored_candidate q) (filter (above threshold q) candidates)).
Proof.
  intros Heq Hn Hbig.
  pose proof (length_survivors _ _ _ _ Heq) as Hlen.
  split; [|split; [|split; [|split]]].
  - rewrite length_rank, Hlen. destruct (Z.leb_spec 0 n); [lia|reflexivity].
  - rewrite <- Hlen in *. now apply rank_drops_last.
  - rewrite <- Hlen. now apply rank_negative_nil.
  - exact (proj1 (rank_sorted_stable _ _ _ _ big Heq)).
  - now apply rank_uncut.
Qed.

(** C7, as the code has it: with [max_results = 0] both searches return
    the empty list, and the cap never adds an error message; a negative
    [max_results = -k] is the Python slice [results[:-k]]: a search that
    does not fail then returns, without message, what it returns under a
    cap that does not cut (the candidates above the threshold, sorted by
    descending similarity) without its last [k] entries, and that is empty
    only when at most [k] candidates are above the threshold; an empty table
    gives the empty result and no message, and so does a search with an
    embedded query and no candidate with a non-empty blob, or for a stored
    meeting when no other meeting has an embedding. *)
Theorem limit_zero_and_negative
    (embeddings_create : string -> result (list float))
    (load_details : Row -> result unit) (threshold : float) (db : database)
    (query : string) (meeting_id : Z) :
  let q := fst (get_embeddings embeddings_create query) in
  let v := stored_embedding db meeting_id in
  let found := search_meetings_above embeddings_create threshold db query in
  let similar :=
    get_similar_meetings_above load_details threshold db meeting_id in
  fst (found 0) = []
  /\ fst (similar 0) = []
  /\ (forall n n',
        snd (found n) = snd (found n') /\ snd (similar n) = snd (similar n'))
  /\ (forall results n,
        n < 0 ->
        rank results n
        = firstn (List.length results - Z.to_nat (- n))
            (Py.sort_desc similarity results)
        /\ (rank results n = [] <-> Z.of_nat (List.length results) <= - n))
  /\ (forall q0 n,
        embeddings_create query = Ok q0 ->
        search_meetings_above embeddings_create threshold [] query n
        = ([], []))
  /\ (forall n,
        get_similar_meetings_above load_details threshold [] meeting_id n
        = ([], []))
  /\ (forall n,
        embeddings_create query = Ok q ->
        filter nonempty_blob (select_embedded db) = [] ->
        found n = ([], []))
  /\ (forall row n,
        find (fun r => row_id r =? meeting_id) db = Some row ->
        load_details row = Ok tt ->
        (forall blob, row_embeddings row = Some blob ->
                      decodable (row, blob)) ->
        select_embedded_except db meeting_id = [] ->
        similar n = ([], []))
  /\ (forall n big,
        embeddings_create query = Ok q -> q <> [] ->
        (forall c, In c (select_embedded db) -> searchable threshold q c) ->
        n < 0 ->
        Z.of_nat (List.length (search_survivors threshold q db)) <= big ->
        snd (found n) = []
        /\ Z.of_nat (List.length (fst (found n)))
           = Z.max 0
               (Z.of_nat (List.length (search_survivors threshold q db)) + n)
        /\ (exists dropped,
              fst (found n) ++ dropped = fst (found big)
              /\ Z.of_nat (List.length dropped)
                 = Z.min (- n)
                     (Z.of_nat
                        (List.length (search_survivors threshold q db))))
        /\ (fst (found n) = []
            <-> Z.of_nat (List.length (search_survivors threshold q db))
                <= - n)
        /\ StronglySorted desc_similarity (fst (found big))
        /\ Permutation (map scored_hit (fst (found big)))
             (map (scored_candidate q) (search_survivors threshold q db)))
  /\ (forall row blob n big,
        find (fun r => row_id r =? meeting_id) db = Some row ->
        load_details row = Ok tt ->
        row_embeddings row = Some blob -> blob <> [] ->
        decodable (row, blob) ->
        (forall c, In c (select_embedded_except db meeting_id) ->
                   decodable c) ->
        n < 0 ->
        Z.of_nat (List.length (similar_survivors threshold v db meeting_id))
        <= big ->
        snd (similar n) = []
        /\ Z.of_nat (List.length (fst (similar n)))
           = Z.max 0
               (Z.of_nat
                  (List.length
                     (similar_survivors threshold v db meeting_id)) + n)
        /\ (exists dropped,
              fst (similar n) ++ dropped = fst (similar big)
              /\ Z.of_nat (List.length dropped)
                 = Z.min (- n)
                     (Z.of_nat
                        (List.length
                           (similar_survivors threshold v db meeting_id))))
        /\ (fst (similar n) = []
            <-> Z.of_nat
                  (List.length (similar_survivors threshold v db meeting_id))
                <= - n)
        /\ StronglySorted desc_similarity (fst (similar big))
        /\ Permutation (map scored_hit (fst (similar big)))
             (map (scored_candidate v)
                (similar_survivors threshold v db meeting_id))).
Proof.
  intros q v found similar.
  split; [|split; [|split; [|split; [|split; [|split; [|split; [|split;
    [|split]]]]]]]].
  - subst found.
    destruct (search_meetings_ranked embeddings_create threshold db query 0)
      as [H | [results [_ H]]]; rewrite H; reflexivity.
  - subst similar.
    destruct (get_similar_meetings_ranked load_details threshold db
                meeting_id 0) as [H | [results [_ H]]]; rewrite H; reflexivity.
  - intros n n'. split;
      [apply search_messages_any_limit | apply similar_messages_any_limit].
  - intros results n Hn. split;
      [now apply rank_negative | now apply rank_negative_nil].
  - intros q0 n Hq.
    now apply (search_meetings_no_candidate _ _ _ _ q0).
  - intros n. reflexivity.
  - intros n Hq Hnone.
    now apply (search_meetings_no_candidate _ _ _ _ q).
  - intros row n Hfind Hld Hblob Hnone.
    now apply (get_similar_meetings_no_candidate _ _ _ _ row).
  - intros n big Hq Hne Hall Hn Hbig.
    destruct (search_meetings_returns embeddings_create threshold db query
                q Hq Hne Hall) as [results [Hmap Hout]].
    subst found. cbv beta. rewrite !Hout. cbn [fst snd].
    split; [reflexivity|].
    unfold search_survivors in *.
    now apply rank_negative_of_survivors.
  - intros row blob n big Hfind Hld Hblob Hne [v0 Hv0] Hall Hn Hbig.
    cbn [snd] in Hv0.
    destruct (get_similar_meetings_returns load_details threshold db
                meeting_id row blob v0 Hfind Hld Hblob Hne Hv0 Hall)
      as [Hst [results [Hmap Hout]]].
    subst similar v. cbv beta. rewrite Hst in *. rewrite !Hout.
    cbn [fst snd]. split; [reflexivity|].
    unfold similar_survivors in *.
    now apply rank_negative_of_survivors.
Qed.

Lemma limit_zero_and_negative_witness :
  sample_provider "budget" = Ok (fst (get_embeddings sample_provider "budget"))
  /\ fst (get_embeddings sample_provider "budget") <> []
  /\ (forall c,
        In c (select_embedded sample_db) ->
        searchable Float.lit_0_3
          (fst (get_embeddings sample_provider "budget")) c)
  /\ -1 < 0
  /\ Z.of_nat
       (List.length
          (search_survivors Float.lit_0_3
             (fst (get_embeddings sample_provider "budget")) sample_db))
     <= 10
  /\ Z.of_nat
       (List.length
          (fst (search_meetings_above sample_provider Float.lit_0_3 sample_db
                  "budget" (-1))))
     = Z.max 0
         (Z.of_nat
            (List.length
               (search_survivors Float.lit_0_3
                  (fst (get_embeddings sample_provider "budget"))
                  sample_db)) + -1).
Proof.
  assert (Hq : sample_provider "budget"
               = Ok (fst (get_embeddings sample_provider "budget")))
    by reflexivity.
  assert (Hne : fst (get_embeddings sample_provider "budget") <> [])
    by (vm_compute; discriminate).
  assert (Hall : forall c,
            In c (select_embedded sample_db) ->
            searchable Float.lit_0_3
              (fst (get_embeddings sample_provider "budget")) c).
  { sample_candidates. }
  assert (Hn : -1 < 0) by lia.
  assert (Hbig : Z.of_nat
                   (List.length
                      (search_survivors Float.lit_0_3
                         (fst (get_embeddings sample_provider "budget"))
                         sample_db)) <= 10).
  { vm_compute; discriminate. }
  split; [exact Hq|]. split; [exact Hne|]. split; [exact Hall|].
  split; [exact Hn|]. split; [exact Hbig|].
  pose proof (limit_zero_and_negative sample_provider sample_details
                Float.lit_0_3 sample_db "budget" 1) as T.
  cbv zeta in T.
  destruct T as (_ & _ & _ & _ & _ & _ & _ & _ & T & _).
  exact (proj1 (proj2 (T (-1) 10 Hq Hne Hall Hn Hbig))).
Defined.

(** C7 as stated fails: with [max_results = -1] and two meetings above the
    threshold, [search_meetings] returns the better one. *)
Lemma negative_limit_returns_entries :
  -1 <= 0
  /\ map hit_id (fst (search_meetings sample_provider sample_db "budget" (-1)))
     = [1]
  /\ fst (search_meetings sample_provider sample_db "budget" (-1)) <> [].
Proof.
  split; [lia|]. split; [vm_compute; reflexivity|].
  vm_compute. discriminate.
Qed.

(** ** Rows of another dimension *)

Lemma search_loop_app (threshold : float) (q : list float)
    (rows1 rows2 : list (Row * list byte)) :
  forall acc,
    search_loop threshold q (rows1 ++ rows2) acc
    = (results <- search_loop threshold q rows1 acc ;;
       search_loop threshold q rows2 results).
Proof.
  induction rows1 as [|[row blob] rows1 IH]; intros acc; [reflexivity|].
  cbn [app search_loop].
  destruct blob as [|b blob]; [apply IH|].
  destruct (_deserialize_embeddings (b :: blob)) as [v|e]; [|reflexivity].
  cbn [bind].
  destruct (_cosine_similarity q v) as [s|e]; [|reflexivity].
  cbn [bind].
  destruct (Float.gtb s threshold); [|apply IH].
  destruct (transcript_excerpt (row_transcript row)); [|reflexivity].
  apply IH.
Qed.

Lemma similar_loop_app (threshold : float) (q : list float)
    (rows1 rows2 : list (Row * list byte)) :
  forall acc,
    similar_loop threshold q (rows1 ++ rows2) acc
    = (results <- similar_loop threshold q rows1 acc ;;
       similar_loop threshold q rows2 results).
Proof.
  induction rows1 as [|[row blob] rows1 IH]; intros acc; [reflexivity|].
  cbn [app similar_loop].
  destruct (_deserialize_embeddings blob) as [v|e]; [|reflexivity].
  cbn [bind].
  destruct (_cosine_similarity q v) as [s|e]; [|reflexivity].
  cbn [bind].
  destruct (Float.gtb s threshold); apply IH.
Qed.

(** A row whose vector has another length than the query scores [0.0] and
    is passed over. *)
Lemma search_loop_skips (threshold : float) (q v : list float) (row : Row)
    (blob : list byte) (rows : list (Row * list byte)) (acc : list Hit) :
  Float.gtb Float.zero threshold = false ->
  _deserialize_embeddings blob = Ok v ->
  List.length q <> List.length v ->
  search_loop threshold q ((row, blob) :: rows) acc
  = search_loop threshold q rows acc.
Proof.
  intros Hthr Hv Hlen. cbn [search_loop].
  destruct blob as [|b blob]; [reflexivity|].
  rewrite Hv. cbn [bind]. rewrite (cosine_not_aligned q v Hlen). cbn [bind].
  now rewrite Hthr.
Qed.

Lemma similar_loop_skips (threshold : float) (q v : list float) (row : Row)
    (blob : list byte) (rows : list (Row * list byte)) (acc : list Hit) :
  Float.gtb Float.zero threshold = false ->
  _deserialize_embeddings blob = Ok v ->
  List.length q <> List.length v ->
  similar_loop threshold q ((row, blob) :: rows) acc
  = similar_loop threshold q rows acc.
Proof.
  intros Hthr Hv Hlen. cbn [similar_loop].
  rewrite Hv. cbn [bind]. rewrite (cosine_not_aligned q v Hlen). cbn [bind].
  now rewrite Hthr.
Qed.

Lemma select_embedded_middle (db1 db2 : database) (row : Row)
    (blob : list byte) :
  row_embeddings row = Some blob ->
  select_embedded (db1 ++ row :: db2)
  = select_embedded db1 ++ (row, blob) :: select_embedded db2.
Proof.
  intros Hblob. unfold select_embedded.
  rewrite flat_map_app. cbn [flat_map]. now rewrite Hblob.
Qed.

Lemma find_middle (f : Row -> bool) (db1 db2 : database) (row : Row) :
  f row = false -> find f (db1 ++ row :: db2) = find f (db1 ++ db2).
Proof.
  intros Hrow. induction db1 as [|r db1 IH]; cbn [app find].
  - now rewrite Hrow.
  - now rewrite IH.
Qed.

Lemma filter_middle (f : Row -> bool) (db1 db2 : database) (row : Row) :
  f row = true ->
  filter f (db1 ++ row :: db2) = filter f db1 ++ row :: filter f db2.
Proof.
  intros Hrow. rewrite filter_app. cbn [filter]. now rewrite Hrow.
Qed.

Lemma gtb_zero_lit_0_3 : Float.gtb Float.zero Float.lit_0_3 = false.
Proof. reflexivity. Qed.

Lemma gtb_zero_lit_0_2 : Float.gtb Float.zero Float.lit_0_2 = false.
Proof. reflexivity. Qed.

Lemma search_meetings_skips_row
    (embeddings_create : string -> result (list float)) (threshold : float)
    (db1 db2 : database) (row : Row) (blob : list byte) (v : list float)
    (query : string) (max_results : Z) :
  Float.gtb Float.zero threshold = false ->
  row_embeddings row = Some blob ->
  _deserialize_embeddings blob = Ok v ->
  List.length (fst (get_embeddings embeddings_create query))
  <> List.length v ->
  search_meetings_above embeddings_create threshold (db1 ++ row :: db2) query
    max_results
  = search_meetings_above embeddings_create threshold (db1 ++ db2) query
      max_results.
Proof.
  intros Hthr Hblob Hv Hlen.
  unfold search_meetings_above, search_try.
  destruct (get_embeddings embeddings_create query) as [q log].
  cbn [fst] in Hlen.
  destruct q as [|x q]; [reflexivity|].
  rewrite (select_embedded_middle db1 db2 row blob Hblob).
  unfold select_embedded at 3. rewrite flat_map_app.
  fold (select_embedded db1). fold (select_embedded db2).
  rewrite !search_loop_app.
  destruct (search_loop threshold (x :: q) (select_embedded db1) [])
    as [results|e]; [|reflexivity].
  cbn [bind].
  now rewrite (search_loop_skips threshold (x :: q) v row blob _ _ Hthr Hv Hlen).
Qed.

Lemma get_similar_meetings_skips_row (load_details : Row -> result unit)
    (threshold : float) (db1 db2 : database) (row : Row) (blob : list byte)
    (v : list float) (meeting_id max_results : Z) :
  Float.gtb Float.zero threshold = false ->
  row_id row <> meeting_id ->
  row_embeddings row = Some blob ->
  _deserialize_embeddings blob = Ok v ->
  List.length (stored_embedding (db1 ++ db2) meeting_id) <> List.length v ->
  get_similar_meetings_above load_details threshold (db1 ++ row :: db2)
    meeting_id max_results
  = get_similar_meetings_above load_details threshold (db1 ++ db2)
      meeting_id max_results.
Proof.
  intros Hthr Hid Hblob Hv Hlen.
  assert (Hrow : (row_id row =? meeting_id) = false) by now apply Z.eqb_neq.
  unfold get_similar_meetings_above, get_meeting_by_id, similar_try,
    stored_embedding in *.
  rewrite find_middle by exact Hrow.
  destruct (find _ (db1 ++ db2)) as [own|]; [|reflexivity].
  destruct (load_details own) as [[]|e]; [|reflexivity].
  destruct own as [i t d s tr [[|b own_blob]|]]; cbn [row_embeddings] in *;
    try reflexivity.
  destruct (_deserialize_embeddings (b :: own_blob)) as [q|e];
    [|reflexivity].
  cbn [bind].
  unfold select_embedded_except.
  rewrite filter_middle by now rewrite Hrow.
  rewrite (select_embedded_middle _ _ row blob Hblob).
  rewrite filter_app. unfold select_embedded at 3. rewrite flat_map_app.
  fold (select_embedded (filter (fun r => negb (row_id r =? meeting_id)) db1)).
  fold (select_embedded (filter (fun r => negb (row_id r =? meeting_id)) db2)).
  rewrite !similar_loop_app.
  destruct (similar_loop threshold q _ []) as [results|e]; [|reflexivity].
  cbn [bind].
  now rewrite (similar_loop_skips threshold q v row blob _ _ Hthr Hv Hlen).
Qed.

(** C1, as the code has it: for embeddings of different lengths
    [_cosine_similarity] returns [0.0] -- the shape error of [np.dot] is
    caught inside -- and a stored vector whose length differs from the
    query's is passed over by both searches, which return what they return
    without that row. *)
Theorem dimension_mismatch_scores_zero :
  (forall a b : list float,
     List.length a <> List.length b ->
     _cosine_similarity a b = Ok Float.zero)
  /\ (forall embeddings_create db1 row db2 blob v query max_results,
        row_embeddings row = Some blob ->
        _deserialize_embeddings blob = Ok v ->
        List.length (fst (get_embeddings embeddings_create query))
        <> List.length v ->
        search_meetings embeddings_create (db1 ++ row :: db2) query
          max_results
        = search_meetings embeddings_create (db1 ++ db2) query max_results)
  /\ (forall load_details db1 row db2 blob v meeting_id max_results,
        row_id row <> meeting_id ->
        row_embeddings row = Some blob ->
        _deserialize_embeddings blob = Ok v ->
        List.length (stored_embedding (db1 ++ db2) meeting_id)
        <> List.length v ->
        get_similar_meetings load_details (db1 ++ row :: db2) meeting_id
          max_results
        = get_similar_meetings load_details (db1 ++ db2) meeting_id
            max_results).
Proof.
  split; [exact cosine_not_aligned|]. split.
  - intros. unfold search_meetings.
    eapply search_meetings_skips_row; eauto using gtb_zero_lit_0_3.
  - intros. unfold get_similar_meetings.
    eapply get_similar_meetings_skips_row; eauto using gtb_zero_lit_0_2.
Qed.

Lemma dimension_mismatch_scores_zero_witness :
  List.length [Float.one] <> List.length [Float.one; Float.zero]
  /\ _cosine_similarity [Float.one] [Float.one; Float.zero] = Ok Float.zero.
Proof.
  assert (H : List.length [Float.one] <> List.length [Float.one; Float.zero])
    by discriminate.
  split; [exact H|].
  exact (proj1 dimension_mismatch_scores_zero _ _ H).
Defined.

(** C1 as stated fails: on vectors of lengths 1 and 2 the similarity is the
    number [0.0], not an error; and a search over a table holding a
    three-dimensional vector next to two-dimensional ones returns the
    matching meetings and reports nothing. *)
Lemma dimension_mismatch_not_raised :
  List.length [Float.one] <> List.length [Float.one; Float.zero]
  /\ ~ (exists e,
          _cosine_similarity [Float.one] [Float.one; Float.zero] = Raise e)
  /\ _cosine_similarity [Float.one] [Float.one; Float.zero] = Ok Float.zero
  /\ (let r := search_meetings sample_provider
                 (sample_row_3d :: sample_db) "budget" 10 in
      map hit_id (fst r) = [1; 3] /\ snd r = []).
Proof.
  split; [discriminate|]. split; [intros [e H]; discriminate H|].
  split; [reflexivity|]. vm_compute. auto.
Qed.

(** ** The round trip through the blob *)

(** *** Bytes and words *)

Lemma Z_of_byte_of_Z (z : Z) : np.Z_of_byte (np.byte_of_Z z) = z mod 256.
Proof.
  unfold np.Z_of_byte, np.byte_of_Z.
  assert (Hz : 0 <= z mod 256 < 256) by (apply Z.mod_pos_bound; lia).
  destruct (Byte.of_N (Z.to_N (z mod 256))) as [b|] eqn:Hb.
  - apply Byte.to_of_N in Hb. rewrite Hb. lia.
  - apply Byte.of_N_None_iff in Hb. lia.
Qed.

Lemma word_of_bytes_of_word (w : Z) :
  0 <= w < 2 ^ 32 ->
  np.word_of_bytes (np.byte_of_Z w) (np.byte_of_Z (w / 2 ^ 8))
    (np.byte_of_Z (w / 2 ^ 16)) (np.byte_of_Z (w / 2 ^ 24)) = w.
Proof.
  intros Hw. unfold np.word_of_bytes. rewrite !Z_of_byte_of_Z.
  change (2 ^ 32) with 4294967296 in Hw.
  change (2 ^ 8) with 256. change (2 ^ 16) with 65536.
  change (2 ^ 24) with 16777216.
  Z.div_mod_to_equations. lia.
Qed.

(** *** The binary32 word *)

Ltac pow_consts :=
  change (2 ^ 8) with 256 in *;
  change (2 ^ 22) with 4194304 in *;
  change (2 ^ 23) with 8388608 in *;
  change (2 ^ 24) with 16777216 in *;
  change (2 ^ 31) with 2147483648 in *;
  change (2 ^ 32) with 4294967296 in *.

Lemma digits2_pos_bounds (p : positive) :
  2 ^ (Zpos (digits2_pos p) - 1) <= Zpos p < 2 ^ Zpos (digits2_pos p).
Proof.
  induction p as [p IH|p IH|]; cbn [digits2_pos];
    [| |cbn; lia];
    rewrite Pos2Z.inj_succ;
    replace (Z.succ (Zpos (digits2_pos p)) - 1)
      with (Z.succ (Zpos (digits2_pos p) - 1)) by lia;
    rewrite !Z.pow_succ_r by lia; lia.
Qed.

Lemma fexp32 (x : Z) : fexp 24 128 x = Z.max (x - 24) (-149).
Proof. reflexivity. Qed.

(** A bounded binary32 mantissa is normal, with 24 digits, or subnormal at
    the least exponent. *)
Lemma bounded32_cases (m : positive) (e : Z) :
  bounded 24 128 m e = true ->
  (2 ^ 23 <= Zpos m < 2 ^ 24 /\ -149 <= e <= 104)
  \/ (Zpos m < 2 ^ 23 /\ e = -149).
Proof.
  unfold bounded, canonical_mantissa. rewrite fexp32.
  intros H. apply andb_true_iff in H as [Hc He].
  apply Z.eqb_eq in Hc. apply Z.leb_le in He. cbn in He.
  pose proof (digits2_pos_bounds m) as [Hlo Hhi].
  set (d := Zpos (digits2_pos m)) in *.
  assert (Hd : 0 < d) by (subst d; lia).
  destruct (Z.eq_dec d 24) as [Hd24|Hd24].
  - left. rewrite Hd24 in Hlo, Hhi. cbn in Hlo. lia.
  - right. split; [|lia].
    apply (Z.lt_le_trans _ (2 ^ d)); [exact Hhi|].
    apply Z.pow_le_mono_r; lia.
Qed.

Lemma decode_fields (s : bool) (ex fr : Z) :
  0 <= ex < 256 -> 0 <= fr < 2 ^ 23 ->
  let w := np.sign_bit s + ex * 2 ^ 23 + fr in
  (2 ^ 31 <=? w) = s
  /\ (w / 2 ^ 23) mod 2 ^ 8 = ex
  /\ w mod 2 ^ 23 = fr
  /\ 0 <= w < 2 ^ 32.
Proof.
  intros Hex Hfr w. subst w. unfold np.sign_bit. pow_consts.
  repeat split.
  - destruct s; [apply Z.leb_le | apply Z.leb_gt]; lia.
  - destruct s; Z.div_mod_to_equations; lia.
  - destruct s; Z.div_mod_to_equations; lia.
  - destruct s; lia.
  - destruct s; lia.
Qed.

Lemma float32_of_fields (s : bool) (ex fr : Z) :
  0 <= ex < 256 -> 0 <= fr < 2 ^ 23 ->
  np.float32_of_bits (np.sign_bit s + ex * 2 ^ 23 + fr)
  = if ex =? 0 then
      match fr with
      | Zpos m => S754_finite s m (-149)
      | _ => S754_zero s
      end
    else if ex =? 255 then
      if fr =? 0 then S754_infinity s else S754_nan
    else
      match fr + 2 ^ 23 with
      | Zpos m => S754_finite s m (ex - 150)
      | _ => S754_nan
      end.
Proof.
  intros Hex Hfr.
  destruct (decode_fields s ex fr Hex Hfr) as (Hs & He & Hf & _).
  unfold np.float32_of_bits. cbv zeta. now rewrite Hs, He, Hf.
Qed.

(** The fields of the word of a valid binary32 item. *)
Lemma fields_of_float32 (x : spec_float) :
  valid_binary 24 128 x = true ->
  exists s ex fr,
    0 <= ex < 256 /\ 0 <= fr < 2 ^ 23
    /\ np.bits_of_float32 x = np.sign_bit s + ex * 2 ^ 23 + fr
    /\ np.float32_of_bits (np.sign_bit s + ex * 2 ^ 23 + fr) = x.
Proof.
  intros Hx. destruct x as [s|s| |s m e].
  - exists s, 0, 0.
    split; [lia|]. split; [pow_consts; lia|]. split.
    + cbn [np.bits_of_float32]. lia.
    + rewrite float32_of_fields by (pow_consts; lia). reflexivity.
  - exists s, 255, 0.
    split; [lia|]. split; [pow_consts; lia|]. split.
    + cbn [np.bits_of_float32]. lia.
    + rewrite float32_of_fields by (pow_consts; lia). reflexivity.
  - exists false, 255, (2 ^ 22).
    split; [lia|]. split; [pow_consts; lia|]. split.
    + reflexivity.
    + rewrite float32_of_fields by (pow_consts; lia). reflexivity.
  - cbn [valid_binary] in Hx.
    destruct (bounded32_cases m e Hx) as [[Hm He] | [Hm ->]].
    + exists s, (e + 150), (Zpos m - 2 ^ 23).
      assert (H1 : 0 <= e + 150 < 256) by lia.
      assert (H2 : 0 <= Zpos m - 2 ^ 23 < 2 ^ 23) by (pow_consts; lia).
      split; [exact H1|]. split; [exact H2|]. split.
      * cbn [np.bits_of_float32].
        destruct (Z.leb_spec (2 ^ 23) (Zpos m)); [reflexivity | lia].
      * rewrite float32_of_fields by assumption.
        destruct (Z.eqb_spec (e + 150) 0); [lia|].
        destruct (Z.eqb_spec (e + 150) 255); [lia|].
        replace (Zpos m - 2 ^ 23 + 2 ^ 23) with (Zpos m) by lia.
        f_equal. lia.
    + exists s, 0, (Zpos m).
      split; [lia|]. split; [lia|]. split.
      * cbn [np.bits_of_float32].
        destruct (Z.leb_spec (2 ^ 23) (Zpos m)); lia.
      * rewrite float32_of_fields by lia. reflexivity.
Qed.

Lemma float32_of_bits_of_float32 (x : spec_float) :
  valid_binary 24 128 x = true ->
  np.float32_of_bits (np.bits_of_float32 x) = x
  /\ 0 <= np.bits_of_float32 x < 2 ^ 32.
Proof.
  intros Hx.
  destruct (fields_of_float32 x Hx) as (s & ex & fr & Hex & Hfr & -> & Hback).
  split; [exact Hback|].
  now destruct (decode_fields s ex fr Hex Hfr) as (_ & _ & _ & Hw).
Qed.

(** *** Rounding to binary32 yields a valid item *)

Lemma digits2_pos_size (p : positive) : digits2_pos p = Pos.size p.
Proof. induction p; cbn; congruence. Qed.

Lemma Zdigits2_log2 (m : Z) : 0 < m -> Zdigits2 m = Z.log2 m + 1.
Proof.
  destruct m as [|p|p]; try lia. intros _.
  destruct p as [p|p|]; cbn [Zdigits2 digits2_pos Z.log2];
    rewrite ?digits2_pos_size; lia.
Qed.

Lemma Zdigits2_nonneg (m : Z) : 0 <= Zdigits2 m.
Proof. destruct m; cbn; lia. Qed.

Lemma Zdigits2_le (m1 m2 : Z) :
  0 <= m1 <= m2 -> Zdigits2 m1 <= Zdigits2 m2.
Proof.
  intros [H1 H2]. destruct (Z.eq_dec m1 0) as [->|Hne].
  - apply Zdigits2_nonneg.
  - rewrite !Zdigits2_log2 by lia.
    pose proof (Z.log2_le_mono m1 m2 H2). lia.
Qed.

Lemma Zdigits2_div_pow2 (m n : Z) :
  0 <= m -> 0 <= n ->
  Zdigits2 (m / 2 ^ n) = Z.max 0 (Zdigits2 m - n).
Proof.
  intros Hm Hn. destruct (Z.eq_dec m 0) as [->|Hne].
  - rewrite Z.div_0_l by (apply Z.pow_nonzero; lia). cbn. lia.
  - rewrite <- Z.shiftr_div_pow2 by exact Hn.
    assert (Hlog : Z.log2 (Z.shiftr m n) = Z.max 0 (Z.log2 m - n))
      by (apply Z.log2_shiftr; lia).
    assert (Hs : 0 <= Z.shiftr m n) by (apply Z.shiftr_nonneg; lia).
    rewrite (Zdigits2_log2 m) by lia.
    destruct (Z.eq_dec (Z.shiftr m n) 0) as [H0|H0].
    + rewrite H0. cbn [Zdigits2].
      apply Z.shiftr_eq_0_iff in H0 as [->|[_ Hlt]]; lia.
    + rewrite Zdigits2_log2 by lia.
      assert (n <= Z.log2 m); [|lia].
      destruct (Z.le_gt_cases n (Z.log2 m)) as [Hle|Hgt]; [exact Hle|].
      elim H0. apply Z.shiftr_eq_0; lia.
Qed.

Lemma shr_m_shr_1 (r : shr_record) :
  0 <= shr_m r -> shr_m (shr_1 r) = shr_m r / 2.
Proof.
  destruct r as [m rb sb]. cbn [shr_m].
  destruct m as [|[p|p|]|p]; cbn [shr_1 shr_m]; intros Hm;
    try reflexivity; try lia; Z.div_mod_to_equations; lia.
Qed.

Lemma shr_m_iter_shr_1 (p : positive) :
  forall r, 0 <= shr_m r ->
            shr_m (iter_pos shr_1 p r) = shr_m r / 2 ^ Zpos p.
Proof.
  assert (Hhalf : forall m, 0 <= m -> 0 <= m / 2)
    by (intros; apply Z.div_pos; lia).
  assert (Hpow : forall m q, 0 <= m -> 0 <= m / 2 ^ Zpos q)
    by (intros; apply Z.div_pos; [|apply Z.pow_pos_nonneg]; lia).
  induction p as [p IH|p IH|]; intros r Hr; cbn [iter_pos].
  - assert (E : 2 ^ Zpos p~1 = 2 * 2 ^ Zpos p * 2 ^ Zpos p).
    { replace (Zpos p~1) with (1 + Zpos p + Zpos p) by lia.
      rewrite !Z.pow_add_r by lia. now rewrite Z.pow_1_r. }
    assert (H1 : 0 <= shr_m (shr_1 r)) by (rewrite shr_m_shr_1; auto).
    assert (H2 : 0 <= shr_m (iter_pos shr_1 p (shr_1 r)))
      by (rewrite IH; auto).
    rewrite (IH _ H2), (IH _ H1), shr_m_shr_1 by exact Hr.
    rewrite E, !Z.div_div
      by (first [apply Z.pow_pos_nonneg | apply Z.pow_nonzero | idtac]; lia).
    now rewrite Z.mul_assoc.
  - assert (E : 2 ^ Zpos p~0 = 2 ^ Zpos p * 2 ^ Zpos p).
    { replace (Zpos p~0) with (Zpos p + Zpos p) by lia.
      now rewrite Z.pow_add_r by lia. }
    assert (H2 : 0 <= shr_m (iter_pos shr_1 p r)) by (rewrite IH; auto).
    rewrite (IH _ H2), (IH _ Hr).
    rewrite E, Z.div_div
      by (first [apply Z.pow_pos_nonneg | apply Z.pow_nonzero]; lia).
    reflexivity.
  - rewrite shr_m_shr_1 by exact Hr. reflexivity.
Qed.

Lemma shr_m_of_loc (m : Z) (l : location) :
  shr_m (shr_record_of_loc m l) = m.
Proof. now destruct l as [|[]]. Qed.

(** Shifting a mantissa down to the exponent asked by [fexp] leaves zero or
    a canonical mantissa. *)
Lemma shr_fexp_canonical (m e : Z) (l : location) :
  0 <= m ->
  e <= fexp 24 128 (Zdigits2 m + e) ->
  0 <= shr_m (fst (shr_fexp 24 128 m e l))
  /\ fexp 24 128
       (Zdigits2 (shr_m (fst (shr_fexp 24 128 m e l)))
        + snd (shr_fexp 24 128 m e l))
     = snd (shr_fexp 24 128 m e l).
Proof.
  intros Hm He. unfold shr_fexp, shr.
  destruct (fexp 24 128 (Zdigits2 m + e) - e) as [|p|p] eqn:Hn;
    cbn [fst snd]; [| |lia].
  - rewrite shr_m_of_loc. split; [exact Hm | lia].
  - rewrite shr_m_iter_shr_1 by now rewrite shr_m_of_loc.
    rewrite shr_m_of_loc. split.
    + apply Z.div_pos; [exact Hm | now apply Z.pow_pos_nonneg].
    + rewrite Zdigits2_div_pow2 by lia.
      rewrite fexp32 in *.
      pose proof (Zdigits2_nonneg m). lia.
Qed.

Lemma round_nearest_even_bounds (m : Z) (l : location) :
  m <= round_nearest_even m l <= m + 1.
Proof.
  destruct l as [|[]]; cbn [round_nearest_even]; try lia.
  destruct (Z.even m); lia.
Qed.

Lemma digits2_pos_iter_xO (m d : positive) :
  Zpos (digits2_pos (Pos.iter xO m d)) = Zpos (digits2_pos m) + Zpos d.
Proof.
  induction d as [|d IH] using Pos.peano_ind.
  - cbn. lia.
  - rewrite Pos.iter_succ. cbn [digits2_pos].
    rewrite Pos2Z.inj_succ, IH. lia.
Qed.

(** Aligning a mantissa to the exponent of its precision never leaves the
    exponent above it. *)
Lemma shl_align_fexp (m : positive) (e : Z) :
  let aligned := shl_align m e (fexp 24 128 (Zpos (digits2_pos m) + e)) in
  snd aligned
  <= fexp 24 128 (Zpos (digits2_pos (fst aligned)) + snd aligned).
Proof.
  cbv zeta. unfold shl_align.
  destruct (fexp 24 128 (Zpos (digits2_pos m) + e) - e) as [|d|d] eqn:Hd;
    cbn [fst snd]; try lia.
  rewrite digits2_pos_iter_xO.
  replace (Zpos (digits2_pos m) + Zpos d
           + fexp 24 128 (Zpos (digits2_pos m) + e))
    with (Zpos (digits2_pos m) + e) by lia.
  lia.
Qed.

Lemma binary_round_aux_valid (s : bool) (m e : Z) (l : location) :
  0 <= m ->
  e <= fexp 24 128 (Zdigits2 m + e) ->
  valid_binary 24 128 (binary_round_aux 24 128 s m e l) = true.
Proof.
  intros Hm He. unfold binary_round_aux.
  destruct (shr_fexp_canonical m e l Hm He) as [Hm1 He1].
  destruct (shr_fexp 24 128 m e l) as [r1 e1]. cbn [fst snd] in Hm1, He1.
  set (m2 := round_nearest_even (shr_m r1) (loc_of_shr_record r1)).
  pose proof (round_nearest_even_bounds (shr_m r1) (loc_of_shr_record r1))
    as Hm2. fold m2 in Hm2.
  assert (He2 : e1 <= fexp 24 128 (Zdigits2 m2 + e1)).
  { pose proof (Zdigits2_le (shr_m r1) m2 ltac:(lia)).
    rewrite fexp32 in *. lia. }
  destruct (shr_fexp_canonical m2 e1 loc_Exact ltac:(lia) He2) as [Hm3 He3].
  destruct (shr_fexp 24 128 m2 e1 loc_Exact) as [r3 e3].
  cbn [fst snd] in Hm3, He3.
  destruct (shr_m r3) as [|m3|m3] eqn:Hr3; try reflexivity.
  destruct (e3 <=? 128 - 24) eqn:Hle; [|reflexivity].
  cbn [valid_binary]. unfold bounded, canonical_mantissa.
  rewrite Hle, andb_true_r. apply Z.eqb_eq. exact He3.
Qed.

Lemma binary_round_valid (s : bool) (m : positive) (e : Z) :
  valid_binary 24 128 (binary_round 24 128 s m e) = true.
Proof.
  unfold binary_round.
  pose proof (shl_align_fexp m e) as Ha. cbv zeta in Ha.
  destruct (shl_align m e (fexp 24 128 (Zpos (digits2_pos m) + e)))
    as [mz ez]. cbn [fst snd] in Ha.
  apply binary_round_aux_valid; [lia | exact Ha].
Qed.

Lemma to_float32_valid (x : float) :
  valid_binary 24 128 (np.to_float32 x) = true.
Proof.
  destruct x as [s|s| |s m e]; try reflexivity.
  apply binary_round_valid.
Qed.

(** *** Encoding, then decoding *)

Lemma items_of_buffer_tobytes (arr : list spec_float) :
  Forall (fun x => valid_binary 24 128 x = true) arr ->
  np.items_of_buffer (np.tobytes arr) = arr.
Proof.
  induction 1 as [|x arr Hx _ IH]; [reflexivity|].
  unfold np.tobytes in *. cbn [flat_map np.bytes_of_word app].
  cbn [np.items_of_buffer]. rewrite IH.
  destruct (float32_of_bits_of_float32 x Hx) as [Hback Hrange].
  now rewrite (word_of_bytes_of_word _ Hrange), Hback.
Qed.

Lemma frombuffer_tobytes (arr : list spec_float) :
  Forall (fun x => valid_binary 24 128 x = true) arr ->
  np.frombuffer (np.tobytes arr) = Ok arr.
Proof.
  intros Harr. unfold np.frombuffer.
  rewrite length_tobytes, Nat2Z.inj_mul, Z.mul_comm, Z.mod_mul by lia.
  cbn [Z.eqb]. now rewrite items_of_buffer_tobytes.
Qed.

(** Widening is exact: the item keeps its sign and its value, the mantissa
    is only shifted to the 53 bits of binary64. *)
Lemma shr_fexp_exact (prec emax m e : Z) :
  fexp prec emax (Zdigits2 m + e) = e ->
  shr_fexp prec emax m e loc_Exact
  = ({| shr_m := m; shr_r := false; shr_s := false |}, e).
Proof.
  intros H. unfold shr_fexp. now rewrite H, Z.sub_diag.
Qed.

Lemma Zpos_iter_xO (m d : positive) :
  Zpos (Pos.iter xO m d) = Zpos m * 2 ^ Zpos d.
Proof.
  induction d as [|d IH] using Pos.peano_ind.
  - cbn. lia.
  - rewrite Pos.iter_succ, Pos2Z.inj_xO, IH, Pos2Z.inj_succ.
    rewrite Z.pow_succ_r by lia. lia.
Qed.

Lemma to_float64_exact (s : bool) (m : positive) (e : Z) :
  valid_binary 24 128 (S754_finite s m e) = true ->
  exists d,
    np.to_float64 (S754_finite s m e)
    = S754_finite s (Pos.iter xO m d) (e - Zpos d)
    /\ Zpos (Pos.iter xO m d) = Zpos m * 2 ^ Zpos d.
Proof.
  cbn [valid_binary]. unfold bounded, canonical_mantissa. rewrite fexp32.
  intros H. apply andb_true_iff in H as [Hc He].
  apply Z.eqb_eq in Hc. apply Z.leb_le in He. cbn in He.
  cbn [np.to_float64]. unfold binary_round, shl_align.
  assert (Hf : fexp 53 1024 (Zpos (digits2_pos m) + e)
               = Z.max (Zpos (digits2_pos m) + e - 53) (-1074))
    by reflexivity.
  destruct (fexp 53 1024 (Zpos (digits2_pos m) + e) - e) as [|d|d] eqn:Hd;
    try lia.
  exists d. split; [|apply Zpos_iter_xO].
  assert (Hcan : fexp 53 1024 (Zdigits2 (Zpos (Pos.iter xO m d))
                               + fexp 53 1024 (Zpos (digits2_pos m) + e))
                 = fexp 53 1024 (Zpos (digits2_pos m) + e)).
  { cbn [Zdigits2]. rewrite digits2_pos_iter_xO.
    replace (Zpos (digits2_pos m) + Zpos d
             + fexp 53 1024 (Zpos (digits2_pos m) + e))
      with (Zpos (digits2_pos m) + e) by lia.
    reflexivity. }
  unfold binary_round_aux.
  rewrite (shr_fexp_exact _ _ _ _ Hcan).
  cbn [shr_m loc_of_shr_record round_nearest_even].
  rewrite (shr_fexp_exact _ _ _ _ Hcan). cbn [shr_m].
  replace (fexp 53 1024 (Zpos (digits2_pos m) + e) <=? 1024 - 53) with true
    by (symmetry; apply Z.leb_le; lia).
  f_equal. lia.
Qed.

(** Rounding never invents a NaN. *)
Lemma shr_fexp_nonneg (prec emax m e : Z) (l : location) :
  0 <= m -> 0 <= shr_m (fst (shr_fexp prec emax m e l)).
Proof.
  intros Hm. unfold shr_fexp, shr.
  destruct (fexp prec emax (Zdigits2 m + e) - e) as [|p|p]; cbn [fst];
    rewrite ?shr_m_iter_shr_1, ?shr_m_of_loc; rewrite ?shr_m_of_loc;
    try exact Hm.
  apply Z.div_pos; [exact Hm | now apply Z.pow_pos_nonneg].
Qed.

Lemma binary_round_aux_not_nan (prec emax : Z) (s : bool) (m e : Z)
    (l : location) :
  0 <= m -> Float.is_nan (binary_round_aux prec emax s m e l) = false.
Proof.
  intros Hm. unfold binary_round_aux.
  pose proof (shr_fexp_nonneg prec emax m e l Hm) as Hm1.
  destruct (shr_fexp prec emax m e l) as [r1 e1]. cbn [fst] in Hm1.
  pose proof (round_nearest_even_bounds (shr_m r1) (loc_of_shr_record r1))
    as Hm2.
  pose proof (shr_fexp_nonneg prec emax _ e1 loc_Exact
                (Z.le_trans _ _ _ Hm1 (proj1 Hm2))) as Hm3.
  destruct (shr_fexp prec emax _ e1 loc_Exact) as [r3 e3]. cbn [fst] in Hm3.
  destruct (shr_m r3) as [|m3|m3]; [reflexivity | | lia].
  now destruct (e3 <=? emax - prec).
Qed.

Lemma binary_round_not_nan (prec emax : Z) (s : bool) (m : positive) (e : Z) :
  Float.is_nan (binary_round prec emax s m e) = false.
Proof.
  unfold binary_round.
  destruct (shl_align m e (fexp prec emax (Zpos (digits2_pos m) + e))).
  apply binary_round_aux_not_nan. lia.
Qed.

Lemma float32_cast_not_nan (x : float) :
  Float.is_nan x = false ->
  Float.is_nan (np.to_float64 (np.to_float32 x)) = false.
Proof.
  intros Hx.
  assert (H32 : Float.is_nan (np.to_float32 x) = false).
  { destruct x; try exact Hx. apply binary_round_not_nan. }
  destruct (np.to_float32 x); try exact H32. apply binary_round_not_nan.
Qed.

Lemma finite_not_nan (x : float) :
  Float.is_finite x = true -> Float.is_nan x = false.
Proof. now destruct x. Qed.

(** C2: for a finite-valued embedding [v], decoding the encoding of [v]
    returns [v] with every item rounded to binary32 (and widened back to a
    Python float, which is exact); no returned item is a NaN, so the result
    compares equal to itself item by item. *)
Theorem deserialize_serialize (v : list float) :
  Forall (fun x => Float.is_finite x = true) v ->
  _deserialize_embeddings (_serialize_embeddings v)
  = Ok (map (fun x => np.to_float64 (np.to_float32 x)) v)
  /\ Forall (fun y => Float.is_nan y = false)
       (map (fun x => np.to_float64 (np.to_float32 x)) v).
Proof.
  intros Hfin. split.
  - destruct v as [|x v]; [reflexivity|].
    unfold _serialize_embeddings.
    set (arr := map np.to_float32 (x :: v)).
    assert (Harr : Forall (fun y => valid_binary 24 128 y = true) arr).
    { apply Forall_forall. intros y Hy. apply in_map_iff in Hy as [z [<- _]].
      apply to_float32_valid. }
    assert (Hblob : np.tobytes arr <> []).
    { intros Hnil. apply (f_equal (@List.length byte)) in Hnil.
      rewrite length_tobytes in Hnil. subst arr. cbn in Hnil. lia. }
    unfold _deserialize_embeddings.
    destruct (np.tobytes arr) as [|b blob] eqn:Hbytes; [now elim Hblob|].
    rewrite <- Hbytes, (frombuffer_tobytes arr Harr). cbn [bind].
    subst arr. now rewrite map_map.
  - apply Forall_forall. intros y Hy. apply in_map_iff in Hy as [x [<- Hx]].
    apply float32_cast_not_nan, finite_not_nan.
    revert x Hx. now apply Forall_forall.
Qed.

Lemma deserialize_serialize_witness :
  Forall (fun x => Float.is_finite x = true)
    [lit_0_9; Float.one; Float.zero; lit_0_1]
  /\ _deserialize_embeddings
       (_serialize_embeddings [lit_0_9; Float.one; Float.zero; lit_0_1])
     = Ok [S754_finite false 8106479114518528 (-53); Float.one; Float.zero;
           S754_finite false 7205759511166976 (-56)].
Proof.
  assert (H : Forall (fun x => Float.is_finite x = true)
                [lit_0_9; Float.one; Float.zero; lit_0_1])
    by (repeat constructor).
  split; [exact H|].
  exact (proj1 (deserialize_serialize _ H)).
Defined.

(** ** The scenarios of the specification *)

(** Query [[1, 0]] against [[1, 0]], [[0, 1]] and [[0.9, 0.1]]: with
    threshold 0.3 meetings 1 and 3 are returned in that order, with
    threshold 0.999 meeting 1 alone. *)
Example scenario_threshold_0_3 :
  map scored_hit
    (fst (search_meetings sample_provider sample_db "budget" 10))
  = [(1, Some Float.one);
     (3, Some (S754_finite false 8952108829732552 (-53)))].
Proof. vm_compute. reflexivity. Qed.

Example scenario_threshold_0_999 :
  map hit_id
    (fst (search_meetings_above sample_provider
            (S754_finite false 8998192055486251 (-53)) sample_db "budget" 10))
  = [1].
Proof. vm_compute. reflexivity. Qed.

Example scenario_provider_down :
  search_meetings failing_provider sample_db "budget" 10
  = ([], ["Embeddings error: connection refused"%string]).
Proof. vm_compute. reflexivity. Qed.

Example scenario_similar :
  map hit_id
    (fst (get_similar_meetings sample_details sample_db 1 3))
  = [3].
Proof. vm_compute. reflexivity. Qed.

(** * Further properties of the code *)

(** ** Cosine similarity is symmetric *)

Lemma mul_comm (x y : float) : Float.mul x y = Float.mul y x.
Proof.
  unfold Float.mul.
  destruct x as [sx|sx| |sx mx ex], y as [sy|sy| |sy my ey];
    cbn [SFmul]; rewrite ?(xorb_comm sx sy); try reflexivity.
  now rewrite (Pos.mul_comm mx my), (Z.add_comm ex ey).
Qed.

Lemma dot_from_comm (a : list float) :
  forall acc b, np.dot_from acc a b = np.dot_from acc b a.
Proof.
  induction a as [|x a IH]; intros acc [|y b]; try reflexivity.
  cbn [np.dot_from]. now rewrite (mul_comm x y), IH.
Qed.

Lemma cosine_similarity_try_comm (a b : list float) :
  cosine_similarity_try a b = cosine_similarity_try b a.
Proof.
  unfold cosine_similarity_try, np.dot.
  rewrite (Nat.eqb_sym (List.length b) (List.length a)).
  destruct (Nat.eqb (List.length a) (List.length b)); [|reflexivity].
  cbn [bind].
  rewrite (dot_from_comm a Float.zero b).
  rewrite (orb_comm (Float.eqb (np.norm b) Float.zero)).
  now rewrite (mul_comm (np.norm b) (np.norm a)).
Qed.

(** Swapping the two vectors never changes the similarity: products and
    the test of the norms do not depend on the order, and a mismatch of
    lengths gives [0.0] both ways. *)
Theorem cosine_similarity_symmetric (a b : list float) :
  _cosine_similarity a b = _cosine_similarity b a.
Proof.
  unfold _cosine_similarity. now rewrite (cosine_similarity_try_comm a b).
Qed.

(** ** Where the entries of a result come from *)

Lemma search_loop_hits (threshold : float) (q : list float)
    (rows : list (Row * list byte)) :
  forall acc results,
    search_loop threshold q rows acc = Ok results ->
    forall h, In h results ->
      In h acc
      \/ exists row blob, In (row, blob) rows /\ search_hit_of q row blob h.
Proof.
  induction rows as [|[row blob] rows IH]; intros acc results H h Hh.
  - injection H as <-. now left.
  - assert (Hlater :
      (exists row' blob', In (row', blob') rows
                          /\ search_hit_of q row' blob' h) ->
      exists row' blob', In (row', blob') ((row, blob) :: rows)
                         /\ search_hit_of q row' blob' h).
    { intros (row' & blob' & Hin & Hof). exists row', blob'.
      split; [now right | exact Hof]. }
    cbn [search_loop] in H.
    destruct blob as [|b blob].
    { destruct (IH _ _ H h Hh); auto. }
    destruct (_deserialize_embeddings (b :: blob)) as [v|e] eqn:Hv;
      [|discriminate].
    destruct (cosine_returns q v) as [s Hs].
    cbn [bind] in H. rewrite Hs in H. cbn [bind] in H.
    destruct (Float.gtb s threshold).
    + destruct (transcript_excerpt (row_transcript row)) as [t|e] eqn:Ht;
        [|discriminate].
      cbn [bind] in H.
      destruct (IH _ _ H h Hh) as [Hacc | Hrest]; [|auto].
      apply in_app_or in Hacc as [Hacc | [<- | []]]; [now left|].
      right. exists row, (b :: blob). split; [now left|].
      unfold search_hit_of. cbn.
      repeat split; try discriminate.
      * exact (score_of _ _ _ _ Hv Hs).
      * now exists t.
    + destruct (IH _ _ H h Hh); auto.
Qed.

Lemma similar_loop_hits (threshold : float) (q : list float)
    (rows : list (Row * list byte)) :
  forall acc results,
    similar_loop threshold q rows acc = Ok results ->
    forall h, In h results ->
      In h acc
      \/ exists row blob, In (row, blob) rows /\ similar_hit_of q row blob h.
Proof.
  induction rows as [|[row blob] rows IH]; intros acc results H h Hh.
  - injection H as <-. now left.
  - assert (Hlater :
      (exists row' blob', In (row', blob') rows
                          /\ similar_hit_of q row' blob' h) ->
      exists row' blob', In (row', blob') ((row, blob) :: rows)
                         /\ similar_hit_of q row' blob' h).
    { intros (row' & blob' & Hin & Hof). exists row', blob'.
      split; [now right | exact Hof]. }
    cbn [similar_loop] in H.
    destruct (_deserialize_embeddings blob) as [v|e] eqn:Hv; [|discriminate].
    destruct (cosine_returns q v) as [s Hs].
    cbn [bind] in H. rewrite Hs in H. cbn [bind] in H.
    destruct (Float.gtb s threshold).
    + destruct (IH _ _ H h Hh) as [Hacc | Hrest]; [|auto].
      apply in_app_or in Hacc as [Hacc | [<- | []]]; [now left|].
      right. exists row, blob. split; [now left|].
      unfold similar_hit_of. cbn.
      repeat split. exact (score_of _ _ _ _ Hv Hs).
    + destruct (IH _ _ H h Hh); auto.
Qed.

Lemma search_hit_stored
    (embeddings_create : string -> result (list float)) (threshold : float)
    (db : database) (query : string) (max_results : Z) (h : Hit) :
  In h (fst (search_meetings_above embeddings_create threshold db query
               max_results)) ->
  exists row blob,
    In row db /\ row_embeddings row = Some blob
    /\ search_hit_of (fst (get_embeddings embeddings_create query))
         row blob h.
Proof.
  intros Hh.
  destruct (search_meetings_ranked embeddings_create threshold db query
              max_results) as [H | [results [Hloop H]]];
    rewrite H in Hh; [contradiction|].
  apply In_rank in Hh.
  destruct (search_loop_hits _ _ _ _ _ Hloop h Hh)
    as [[] | (row & blob & Hin & Hof)].
  apply In_select_embedded in Hin as [Hrow Hblob].
  now exists row, blob.
Qed.

Lemma similar_hit_stored (load_details : Row -> result unit)
    (threshold : float) (db : database) (meeting_id max_results : Z)
    (h : Hit) :
  In h (fst (get_similar_meetings_above load_details threshold db
               meeting_id max_results)) ->
  exists row blob,
    In row db /\ row_embeddings row = Some blob
    /\ row_id row <> meeting_id
    /\ similar_hit_of (stored_embedding db meeting_id) row blob h.
Proof.
  intros Hh.
  destruct (get_similar_meetings_ranked load_details threshold db
              meeting_id max_results) as [H | [results [Hloop H]]];
    rewrite H in Hh; [contradiction|].
  apply In_rank in Hh.
  destruct (similar_loop_hits _ _ _ _ _ Hloop h Hh)
    as [[] | (row & blob & Hin & Hof)].
  pose proof (In_select_embedded_except _ _ _ Hin) as [Hrow Hid].
  unfold select_embedded_except in Hin.
  apply In_select_embedded in Hin as [_ Hblob].
  now exists row, blob.
Qed.

(** Every entry returned by [search_meetings] is a meeting of the table
    that has a non-empty decodable embedding: it carries that row's id,
    title, date and summary, the preview of its transcript, and as
    similarity the score of its blob against the query embedding.  Every
    entry returned by [get_similar_meetings] is a meeting of the table other
    than the queried one whose embedding is present and decodes: it carries
    that row's id, title, date and summary, no transcript, and as similarity
    the score of its blob against the embedding of the queried meeting. *)
Theorem results_are_stored_meetings
    (embeddings_create : string -> result (list float))
    (load_details : Row -> result unit) (threshold : float) (db : database)
    (query : string) (meeting_id max_results : Z) (h : Hit) :
  (In h (fst (search_meetings_above embeddings_create threshold db query
                max_results)) ->
   exists row blob,
     In row db /\ row_embeddings row = Some blob
     /\ search_hit_of (fst (get_embeddings embeddings_create query))
          row blob h)
  /\ (In h (fst (get_similar_meetings_above load_details threshold db
                   meeting_id max_results)) ->
      exists row blob,
        In row db /\ row_embeddings row = Some blob
        /\ row_id row <> meeting_id
        /\ similar_hit_of (stored_embedding db meeting_id) row blob h).
Proof.
  split; [apply search_hit_stored | apply similar_hit_stored].
Qed.

Lemma results_are_stored_meetings_witness :
  let h := {| hit_id := 1;
              hit_title := "weekly";
              hit_date := "2024-05-02";
              hit_summary := Some "notes"%string;
              hit_transcript := Some "hello"%string;
              similarity := Float.one |} in
  In h (fst (search_meetings_above sample_provider Float.lit_0_3 sample_db
               "budget" 10))
  /\ exists row blob,
       In row sample_db /\ row_embeddings row = Some blob
       /\ search_hit_of (fst (get_embeddings sample_provider "budget"))
            row blob h.
Proof.
  intros h.
  assert (Hh : In h (fst (search_meetings_above sample_provider
                            Float.lit_0_3 sample_db "budget" 10)))
    by (vm_compute; left; reflexivity).
  split; [exact Hh|].
  exact (proj1 (results_are_stored_meetings sample_provider sample_details
                  Float.lit_0_3 sample_db "budget" 1 10 h) Hh).
Defined.

(** ** The transcript preview *)

Lemma str_len_append (s1 s2 : string) :
  Py.str_len (String.append s1 s2) = (Py.str_len s1 + Py.str_len s2)%nat.
Proof.
  induction s1 as [|c s1 IH]; cbn [String.append Py.str_len];
    [reflexivity|].
  rewrite IH. lia.
Qed.

Lemma str_len_slice_to (s : string) :
  forall n, Py.str_len (Py.str_slice_to s n) = Nat.min n (Py.str_len s).
Proof.
  induction s as [|c s IH]; intros n; cbn [Py.str_slice_to].
  - cbn [Py.str_len]. now rewrite Nat.min_0_r.
  - destruct (Py.starts_character c) eqn:Hc.
    + destruct n as [|n]; cbn [Py.str_len]; rewrite ?Hc, ?IH; lia.
    + cbn [Py.str_len]. rewrite Hc, IH. lia.
Qed.

Lemma transcript_excerpt_some (t : string) :
  exists e,
    transcript_excerpt (Some t) = Ok e
    /\ (Py.str_len e <= 503)%nat
    /\ ((Py.str_len t <= 500)%nat -> e = t)
    /\ ((500 < Py.str_len t)%nat ->
        e = String.append (Py.str_slice_to t 500) "..."
        /\ Py.str_len e = 503%nat).
Proof.
  unfold transcript_excerpt.
  destruct (Z.ltb_spec 500 (Z.of_nat (Py.str_len t))) as [Hlong|Hshort].
  - eexists. split; [reflexivity|].
    rewrite str_len_append, str_len_slice_to.
    change (Py.str_len "...") with 3%nat.
    repeat split; lia.
  - exists t. repeat split; lia.
Qed.

(** Every entry returned by [search_meetings] carries a transcript preview
    of at most 503 characters: the stored transcript itself when it has at
    most 500 characters, otherwise its first 500 characters followed by
    three dots.  Characters are code points, as [len] and the slice of
    Python count them, not bytes. *)
Theorem transcript_preview_bounded
    (embeddings_create : string -> result (list float)) (threshold : float)
    (db : database) (query : string) (max_results : Z) (h : Hit) :
  In h (fst (search_meetings_above embeddings_create threshold db query
               max_results)) ->
  exists row t e,
    In row db /\ hit_id h = row_id row
    /\ row_transcript row = Some t
    /\ hit_transcript h = Some e
    /\ (Py.str_len e <= 503)%nat
    /\ ((Py.str_len t <= 500)%nat -> e = t)
    /\ ((500 < Py.str_len t)%nat ->
        e = String.append (Py.str_slice_to t 500) "..."
        /\ Py.str_len e = 503%nat).
Proof.
  intros Hh.
  destruct (search_hit_stored embeddings_create threshold db query
              max_results h Hh)
    as (row & blob & Hrow & _ & Hid & _ & _ & _ & _ & _ & e & He & Hhe).
  destruct (row_transcript row) as [t|] eqn:Ht; [|discriminate].
  destruct (transcript_excerpt_some t) as (e' & He' & Hlen & Hshort & Hlong).
  assert (e' = e) by congruence. subst e'.
  exists row, t, e. repeat split; auto; now apply Hlong.
Qed.

Lemma transcript_preview_bounded_witness :
  let h := {| hit_id := 1;
              hit_title := "weekly";
              hit_date := "2024-05-02";
              hit_summary := Some "notes"%string;
              hit_transcript := Some "hello"%string;
              similarity := Float.one |} in
  In h (fst (search_meetings_above sample_provider Float.lit_0_3 sample_db
               "budget" 10))
  /\ exists row t e,
       In row sample_db /\ hit_id h = row_id row
       /\ row_transcript row = Some t
       /\ hit_transcript h = Some e
       /\ (Py.str_len e <= 503)%nat
       /\ ((Py.str_len t <= 500)%nat -> e = t)
       /\ ((500 < Py.str_len t)%nat ->
           e = String.append (Py.str_slice_to t 500) "..."
           /\ Py.str_len e = 503%nat).
Proof.
  intros h.
  assert (Hh : In h (fst (search_meetings_above sample_provider
                            Float.lit_0_3 sample_db "budget" 10)))
    by (vm_compute; left; reflexivity).
  split; [exact Hh|].
  exact (transcript_preview_bounded sample_provider Float.lit_0_3 sample_db
           "budget" 10 h Hh).
Defined.

(** ** No meeting twice *)

(** Dropping items keeps their keys distinct. *)
Lemma distinct_keys_filter {X K : Type} (key : X -> K) (keep : X -> bool) :
  forall items : list X,
    NoDup (map key items) -> NoDup (map key (filter keep items)).
Proof.
  intros items. induction items as [|x items IH]; cbn [map filter]; [auto|].
  intros Hnd. apply NoDup_cons_iff in Hnd as [Hx Hitems].
  destruct (keep x); [|auto].
  cbn [map]. apply NoDup_cons; [|auto].
  intros Hin. apply Hx. apply in_map_iff in Hin as [y [Hy Hin]].
  apply in_map_iff. exists y. split; [exact Hy|].
  now apply filter_In in Hin.
Qed.

Lemma NoDup_prefix {A : Type} (l1 l2 : list A) :
  prefix l1 l2 -> NoDup l2 -> NoDup l1.
Proof. intros [rest <-]. apply NoDup_app_remove_r. Qed.

Lemma ids_of_select_embedded (db : database) :
  map (fun c => row_id (fst c)) (select_embedded db)
  = map row_id
      (filter (fun row => match row_embeddings row with
                          | Some _ => true
                          | None => false
                          end) db).
Proof.
  induction db as [|row db IH]; [reflexivity|].
  unfold select_embedded in *. cbn [flat_map filter].
  destruct (row_embeddings row); cbn [app map fst]; now rewrite IH.
Qed.

Lemma NoDup_ids_select_embedded (db : database) :
  NoDup (map row_id db) ->
  NoDup (map (fun c => row_id (fst c)) (select_embedded db)).
Proof.
  intros Hnd. rewrite ids_of_select_embedded. now apply distinct_keys_filter.
Qed.

Lemma NoDup_rank (threshold : float) (q : list float)
    (candidates : list (Row * list byte)) (results : list Hit) (n : Z) :
  map scored_hit results
  = map (scored_candidate q) (filter (above threshold q) candidates) ->
  NoDup (map (fun c => row_id (fst c)) candidates) ->
  NoDup (map hit_id (rank results n)).
Proof.
  intros Heq Hnd.
  apply (NoDup_prefix _ (map hit_id (Py.sort_desc similarity results))).
  { apply prefix_map, prefix_slice_to. }
  apply (Permutation_NoDup
           (Permutation_sym
              (Permutation_map hit_id
                 (Permutation_sort_desc similarity results)))).
  apply (f_equal (map fst)) in Heq. rewrite !map_map in Heq.
  cbn [scored_hit scored_candidate fst] in Heq.
  change (map (fun x => hit_id x) results) with (map hit_id results) in Heq.
  rewrite Heq. now apply distinct_keys_filter.
Qed.

(** When the ids of the table are distinct, as its primary key makes them,
    no meeting appears twice in a result of [search_meetings] or of
    [get_similar_meetings]. *)
Theorem no_meeting_twice
    (embeddings_create : string -> result (list float))
    (load_details : Row -> result unit) (threshold : float) (db : database)
    (query : string) (meeting_id max_results : Z) :
  NoDup (map row_id db) ->
  NoDup (map hit_id
           (fst (search_meetings_above embeddings_create threshold db query
                   max_results)))
  /\ NoDup (map hit_id
              (fst (get_similar_meetings_above load_details threshold db
                      meeting_id max_results))).
Proof.
  intros Hnd. split.
  - destruct (search_meetings_ranked embeddings_create threshold db query
                max_results) as [H | [results [Hloop H]]]; rewrite H;
      [constructor|].
    apply search_loop_filter in Hloop. cbn [map app] in Hloop.
    apply (NoDup_rank _ _ _ _ _ Hloop).
    apply distinct_keys_filter. now apply NoDup_ids_select_embedded.
  - destruct (get_similar_meetings_ranked load_details threshold db
                meeting_id max_results) as [H | [results [Hloop H]]];
      rewrite H; [constructor|].
    apply similar_loop_filter in Hloop. cbn [map app] in Hloop.
    apply (NoDup_rank _ _ _ _ _ Hloop).
    unfold select_embedded_except.
    apply NoDup_ids_select_embedded. now apply distinct_keys_filter.
Qed.

Lemma no_meeting_twice_witness :
  NoDup (map row_id sample_db)
  /\ NoDup (map hit_id
              (fst (search_meetings_above sample_provider Float.lit_0_3
                      sample_db "budget" 10))).
Proof.
  assert (H : NoDup (map row_id sample_db)).
  { cbn. repeat constructor; cbn; intuition discriminate. }
  split; [exact H|].
  exact (proj1 (no_meeting_twice sample_provider sample_details
                  Float.lit_0_3 sample_db "budget" 1 10 H)).
Defined.

(** ** A larger cap only appends *)

Lemma rank_prefix_mono (results : list Hit) (n n' : Z) :
  0 <= n <= n' -> prefix (rank results n) (rank results n').
Proof.
  intros Hn. unfold rank, Py.slice_to.
  destruct (Z.leb_spec 0 n); [|lia]. destruct (Z.leb_spec 0 n'); [|lia].
  replace (firstn (Z.to_nat n) (Py.sort_desc similarity results))
    with (firstn (Z.to_nat n)
            (firstn (Z.to_nat n') (Py.sort_desc similarity results))).
  - apply prefix_firstn.
  - rewrite firstn_firstn. f_equal. lia.
Qed.

(** For caps [0 <= n <= n'] the result for [n] is an initial segment of
    the result for [n']: raising [max_results] keeps every entry in place
    and appends the next best ones. *)
Theorem larger_limit_extends
    (embeddings_create : string -> result (list float))
    (load_details : Row -> result unit) (threshold : float) (db : database)
    (query : string) (meeting_id n n' : Z) :
  0 <= n <= n' ->
  prefix
    (fst (search_meetings_above embeddings_create threshold db query n))
    (fst (search_meetings_above embeddings_create threshold db query n'))
  /\ prefix
       (fst (get_similar_meetings_above load_details threshold db
               meeting_id n))
       (fst (get_similar_meetings_above load_details threshold db
               meeting_id n')).
Proof.
  intros Hn. split.
  - unfold search_meetings_above, get_embeddings, search_try.
    destruct (embeddings_create query) as [[|x q]|e]; cbn [fst];
      try (now exists []).
    destruct (search_loop threshold (x :: q) (select_embedded db) []);
      cbn [bind fst]; [now apply rank_prefix_mono | now exists []].
  - unfold get_similar_meetings_above, get_meeting_by_id, similar_try.
    destruct (find _ db) as [row|]; cbn [fst]; [|now exists []].
    destruct (load_details row) as [[]|e]; cbn [fst]; [|now exists []].
    destruct (row_embeddings row) as [[|b blob]|]; cbn [fst];
      try (now exists []).
    destruct (_deserialize_embeddings (b :: blob)) as [v|e]; cbn [bind fst];
      [|now exists []].
    destruct (similar_loop threshold v
                (select_embedded_except db meeting_id) []);
      cbn [bind fst]; [now apply rank_prefix_mono | now exists []].
Qed.

Lemma larger_limit_extends_witness :
  0 <= 1 <= 2
  /\ prefix
       (fst (search_meetings_above sample_provider Float.lit_0_3 sample_db
               "budget" 1))
       (fst (search_meetings_above sample_provider Float.lit_0_3 sample_db
               "budget" 2)).
Proof.
  assert (H : 0 <= 1 <= 2) by lia.
  split; [exact H|].
  exact (proj1 (larger_limit_extends sample_provider sample_details
                  Float.lit_0_3 sample_db "budget" 1 1 2 H)).
Defined.

(** ** A matching meeting without transcript *)

Lemma search_loop_null_transcript (threshold : float) (q : list float)
    (rows : list (Row * list byte)) (c : Row * list byte) :
  In c rows ->
  nonempty_blob c = true ->
  above threshold q c = true ->
  row_transcript (fst c) = None ->
  forall acc, exists e, search_loop threshold q rows acc = Raise e.
Proof.
  intros Hin Hne Habove Hnull.
  induction rows as [|[row blob] rows IH]; [contradiction|].
  intros acc. destruct Hin as [<- | Hin].
  - cbn [fst snd nonempty_blob] in *. unfold above, score in Habove.
    cbn [snd] in Habove. cbn [search_loop].
    destruct blob as [|b blob]; [discriminate|].
    destruct (_deserialize_embeddings (b :: blob)) as [v|e];
      [|discriminate].
    cbn [bind].
    destruct (_cosine_similarity q v) as [s|e]; [|discriminate].
    change (Float.gtb s threshold = true) in Habove.
    cbn [bind]. rewrite Habove, Hnull. eexists. reflexivity.
  - cbn [search_loop].
    destruct blob as [|b blob]; [now apply IH|].
    destruct (_deserialize_embeddings (b :: blob)) as [v|e];
      [|eexists; reflexivity].
    destruct (cosine_returns q v) as [s Hs].
    cbn [bind]. rewrite Hs. cbn [bind].
    destruct (Float.gtb s threshold); [|now apply IH].
    destruct (transcript_excerpt (row_transcript row));
      [now apply IH | eexists; reflexivity].
Qed.

(** A stored meeting whose transcript is [NULL] and whose embedding scores
    above the threshold makes [search_meetings] fail: [len(transcript)]
    raises, the caller gets the empty list and one error message, also for
    the other meetings that match. *)
Theorem null_transcript_fails_search
    (embeddings_create : string -> result (list float)) (threshold : float)
    (db : database) (query : string) (max_results : Z) (q : list float)
    (c : Row * list byte) :
  embeddings_create query = Ok q -> q <> [] ->
  In c (select_embedded db) ->
  nonempty_blob c = true ->
  above threshold q c = true ->
  row_transcript (fst c) = None ->
  exists msg,
    search_meetings_above embeddings_create threshold db query max_results
    = ([], [msg]).
Proof.
  intros Hq Hne Hc Hblob Habove Hnull.
  destruct (search_loop_null_transcript threshold q _ c Hc Hblob Habove
              Hnull []) as [e He].
  unfold search_meetings_above, get_embeddings, search_try.
  rewrite Hq. destruct q as [|x q]; [now elim Hne|].
  rewrite He. cbn [bind]. eexists. reflexivity.
Qed.

Lemma null_transcript_fails_search_witness :
  let untold :=
    {| row_id := 6;
       row_title := "retro";
       row_date := "2024-05-04";
       row_summary := None;
       row_transcript := None;
       row_embeddings := Some (_serialize_embeddings [Float.one; Float.zero])
    |} in
  exists msg,
    search_meetings_above sample_provider Float.lit_0_3
      (sample_db ++ [untold]) "budget" 10
    = ([], [msg]).
Proof.
  intros untold.
  apply (null_transcript_fails_search sample_provider Float.lit_0_3
           (sample_db ++ [untold]) "budget" 10 [Float.one; Float.zero]
           (untold, _serialize_embeddings [Float.one; Float.zero]));
    try reflexivity; try discriminate.
  do 3 right. left. reflexivity.
Defined.

(** ** Meetings without embedding *)

Lemma deserialize_nonempty (b : byte) (blob : list byte) (v : list float) :
  _deserialize_embeddings (b :: blob) = Ok v -> v <> [].
Proof.
  assert (Hpos : 0 < Z.of_nat (List.length (b :: blob)))
    by (cbn [List.length]; lia).
  remember (b :: blob) as buf eqn:Hbuf. clear Hbuf.
  intros Hv.
  destruct (Z.eq_dec (Z.of_nat (List.length buf) mod 4) 0) as [Hmod|Hmod].
  - rewrite (deserialize_whole _ Hmod) in Hv. injection Hv as <-.
    intros Hnil. apply (f_equal (@List.length float)) in Hnil.
    rewrite length_map in Hnil.
    pose proof (length_items_of_buffer buf) as Hlen.
    rewrite Hnil in Hlen. change (Z.of_nat (List.length [])) with 0 in Hlen.
    Z.div_mod_to_equations. lia.
  - rewrite (deserialize_ragged _ Hmod) in Hv. discriminate.
Qed.

Lemma select_embedded_without (db1 db2 : database) (row : Row) :
  row_embeddings row = None ->
  select_embedded (db1 ++ row :: db2) = select_embedded (db1 ++ db2).
Proof.
  intros Hnone. unfold select_embedded.
  rewrite !flat_map_app. cbn [flat_map]. now rewrite Hnone.
Qed.

Lemma search_skips_unembedded
    (embeddings_create : string -> result (list float)) (db1 db2 : database)
    (row : Row) (query : string) (max_results : Z) :
  row_embeddings row = None \/ row_embeddings row = Some [] ->
  search_meetings embeddings_create (db1 ++ row :: db2) query max_results
  = search_meetings embeddings_create (db1 ++ db2) query max_results.
Proof.
  intros Hblob.
  unfold search_meetings, search_meetings_above, search_try.
  destruct Hblob as [Hnone | Hempty].
  - now rewrite (select_embedded_without db1 db2 row Hnone).
  - rewrite (select_embedded_middle db1 db2 row [] Hempty).
    unfold select_embedded at 3. rewrite flat_map_app.
    fold (select_embedded db1). fold (select_embedded db2).
    destruct (get_embeddings embeddings_create query) as [[|x q] log];
      [reflexivity|].
    rewrite !search_loop_app.
    now destruct (search_loop Float.lit_0_3 (x :: q) (select_embedded db1) []).
Qed.

Lemma similar_skips_unembedded (load_details : Row -> result unit)
    (db1 db2 : database) (row : Row) (meeting_id max_results : Z) :
  row_embeddings row = None \/ row_embeddings row = Some [] ->
  row_id row <> meeting_id ->
  get_similar_meetings load_details (db1 ++ row :: db2) meeting_id
    max_results
  = get_similar_meetings load_details (db1 ++ db2) meeting_id max_results.
Proof.
  intros Hblob Hid.
  assert (Hrow : (row_id row =? meeting_id) = false) by now apply Z.eqb_neq.
  unfold get_similar_meetings, get_similar_meetings_above,
    get_meeting_by_id, similar_try.
  rewrite find_middle by exact Hrow.
  destruct (find _ (db1 ++ db2)) as [own|]; [|reflexivity].
  destruct (load_details own) as [[]|e]; [|reflexivity].
  destruct (row_embeddings own) as [[|b own_blob]|]; try reflexivity.
  destruct (_deserialize_embeddings (b :: own_blob)) as [q|e] eqn:Hq;
    [|reflexivity].
  cbn [bind]. unfold select_embedded_except.
  rewrite filter_middle by now rewrite Hrow.
  rewrite filter_app.
  destruct Hblob as [Hnone | Hempty].
  - now rewrite (select_embedded_without _ _ row Hnone).
  - rewrite (select_embedded_middle _ _ row [] Hempty).
    unfold select_embedded at 3. rewrite flat_map_app.
    fold (select_embedded
            (filter (fun r => negb (row_id r =? meeting_id)) db1)).
    fold (select_embedded
            (filter (fun r => negb (row_id r =? meeting_id)) db2)).
    rewrite !similar_loop_app.
    destruct (similar_loop Float.lit_0_2 q _ []) as [results|e];
      [|reflexivity].
    cbn [bind].
    rewrite (similar_loop_skips Float.lit_0_2 q [] row [] _ _
               gtb_zero_lit_0_2 eq_refl); [reflexivity|].
    pose proof (deserialize_nonempty _ _ _ Hq). now destruct q.
Qed.

(** A meeting stored without embedding -- the column is [NULL], or it is
    the empty blob that [save_meeting] writes for an empty embedding -- is
    never scored: both searches return the same entries and messages as
    without that row. *)
Theorem meeting_without_embedding_is_ignored
    (embeddings_create : string -> result (list float))
    (load_details : Row -> result unit) (db1 db2 : database) (row : Row)
    (query : string) (meeting_id max_results : Z) :
  row_embeddings row = None \/ row_embeddings row = Some [] ->
  search_meetings embeddings_create (db1 ++ row :: db2) query max_results
  = search_meetings embeddings_create (db1 ++ db2) query max_results
  /\ (row_id row <> meeting_id ->
      get_similar_meetings load_details (db1 ++ row :: db2) meeting_id
        max_results
      = get_similar_meetings load_details (db1 ++ db2) meeting_id
          max_results).
Proof.
  intros Hblob. split.
  - now apply search_skips_unembedded.
  - intros Hid. now apply similar_skips_unembedded.
Qed.

Lemma meeting_without_embedding_is_ignored_witness :
  let unembedded :=
    {| row_id := 7;
       row_title := "standup";
       row_date := "2024-05-05";
       row_summary := None;
       row_transcript := Some "hi"%string;
       row_embeddings := Some (_serialize_embeddings []) |} in
  search_meetings sample_provider (sample_db ++ unembedded :: []) "budget" 10
  = search_meetings sample_provider (sample_db ++ []) "budget" 10.
Proof.
  intros unembedded.
  apply (meeting_without_embedding_is_ignored sample_provider sample_details
           sample_db [] unembedded "budget" 1 10).
  right. reflexivity.
Defined.

(** ** The codec on stored blobs *)

(** *** Every word is a valid binary32 item *)

Lemma digits2_pos_le (m : positive) (k : Z) :
  Zpos m < 2 ^ k -> Zpos (digits2_pos m) <= k.
Proof.
  intros Hm. pose proof (digits2_pos_bounds m) as [Hlo _].
  destruct (Z.le_gt_cases (Zpos (digits2_pos m)) k) as [Hle|Hgt];
    [exact Hle|].
  assert (2 ^ k <= 2 ^ (Zpos (digits2_pos m) - 1))
    by (apply Z.pow_le_mono_r; lia).
  lia.
Qed.

Lemma digits2_pos_ge (m : positive) (k : Z) :
  0 <= k -> 2 ^ k <= Zpos m -> k < Zpos (digits2_pos m).
Proof.
  intros Hk Hm. pose proof (digits2_pos_bounds m) as [_ Hhi].
  destruct (Z.lt_ge_cases k (Zpos (digits2_pos m))) as [Hlt|Hge];
    [exact Hlt|].
  assert (2 ^ Zpos (digits2_pos m) <= 2 ^ k)
    by (apply Z.pow_le_mono_r; lia).
  lia.
Qed.

Lemma bounded32_subnormal (m : positive) :
  Zpos m < 2 ^ 23 -> bounded 24 128 m (-149) = true.
Proof.
  intros Hm. unfold bounded, canonical_mantissa. rewrite fexp32.
  pose proof (digits2_pos_le m 23 Hm).
  apply andb_true_iff. split; [apply Z.eqb_eq | apply Z.leb_le]; lia.
Qed.

Lemma bounded32_normal (m : positive) (e : Z) :
  2 ^ 23 <= Zpos m < 2 ^ 24 -> -149 <= e <= 104 ->
  bounded 24 128 m e = true.
Proof.
  intros [Hlo Hhi] He. unfold bounded, canonical_mantissa. rewrite fexp32.
  pose proof (digits2_pos_le m 24 Hhi).
  pose proof (digits2_pos_ge m 23 ltac:(lia) Hlo).
  apply andb_true_iff. split; [apply Z.eqb_eq | apply Z.leb_le]; lia.
Qed.

Lemma float32_of_bits_valid (w : Z) :
  valid_binary 24 128 (np.float32_of_bits w) = true.
Proof.
  unfold np.float32_of_bits. cbv zeta.
  assert (Hex : 0 <= (w / 2 ^ 23) mod 2 ^ 8 < 2 ^ 8)
    by (apply Z.mod_pos_bound; pow_consts; lia).
  assert (Hfr : 0 <= w mod 2 ^ 23 < 2 ^ 23)
    by (apply Z.mod_pos_bound; pow_consts; lia).
  destruct (Z.eqb_spec ((w / 2 ^ 23) mod 2 ^ 8) 0) as [H0|H0].
  - destruct (w mod 2 ^ 23) as [|m|m] eqn:Hm; try reflexivity.
    apply bounded32_subnormal. lia.
  - destruct (Z.eqb_spec ((w / 2 ^ 23) mod 2 ^ 8) 255) as [H255|H255].
    + now destruct (w mod 2 ^ 23 =? 0).
    + destruct (w mod 2 ^ 23 + 2 ^ 23) as [|m|m] eqn:Hm; try reflexivity.
      apply bounded32_normal; pow_consts; lia.
Qed.

(** *** Narrowing a widened item gives the item back *)

Lemma iter_pos_eq {A : Type} (f : A -> A) (p : positive) :
  forall x, iter_pos f p x = Pos.iter f x p.
Proof.
  induction p as [p IH|p IH|]; intros x; cbn [iter_pos Pos.iter];
    rewrite ?IH; try reflexivity.
  now rewrite !Pos.iter_swap.
Qed.

Lemma iter_shr_1_exact (m d : positive) :
  iter_pos shr_1 d
    {| shr_m := Zpos (Pos.iter xO m d); shr_r := false; shr_s := false |}
  = {| shr_m := Zpos m; shr_r := false; shr_s := false |}.
Proof.
  rewrite iter_pos_eq.
  induction d as [|d IH] using Pos.peano_ind; [reflexivity|].
  rewrite Pos.iter_succ, <- Pos.iter_swap, Pos.iter_succ.
  exact IH.
Qed.

Lemma to_float32_to_float64 (x : spec_float) :
  valid_binary 24 128 x = true ->
  np.to_float32 (np.to_float64 x) = x.
Proof.
  destruct x as [s|s| |s m e]; try reflexivity.
  intros Hx. destruct (to_float64_exact s m e Hx) as [d [-> _]].
  cbn [valid_binary] in Hx. unfold bounded, canonical_mantissa in Hx.
  apply andb_true_iff in Hx as [Hc He].
  apply Z.eqb_eq in Hc. apply Z.leb_le in He.
  cbn [np.to_float32]. unfold binary_round, shl_align.
  rewrite digits2_pos_iter_xO.
  replace (Zpos (digits2_pos m) + Zpos d + (e - Zpos d))
    with (Zpos (digits2_pos m) + e) by lia.
  rewrite Hc.
  replace (e - (e - Zpos d)) with (Zpos d) by lia.
  unfold binary_round_aux, shr_fexp at 1.
  cbn [Zdigits2]. rewrite digits2_pos_iter_xO.
  replace (Zpos (digits2_pos m) + Zpos d + (e - Zpos d))
    with (Zpos (digits2_pos m) + e) by lia.
  rewrite Hc.
  replace (e - (e - Zpos d)) with (Zpos d) by lia.
  cbn [shr shr_record_of_loc]. rewrite iter_shr_1_exact.
  cbn [shr_m loc_of_shr_record round_nearest_even].
  replace (e - Zpos d + Zpos d) with e by lia.
  rewrite (shr_fexp_exact 24 128 (Zpos m) e Hc). cbn [shr_m].
  replace (e <=? 128 - 24) with true by (symmetry; now apply Z.leb_le).
  reflexivity.
Qed.

Lemma items_of_buffer_valid (buf : list byte) :
  Forall (fun x => valid_binary 24 128 x = true) (np.items_of_buffer buf).
Proof.
  induction buf as [| b0 | b0 b1 | b0 b1 b2 | b0 b1 b2 b3 rest IH]
    using buffer_ind; try constructor; [apply float32_of_bits_valid | exact IH].
Qed.

Lemma narrow_widened_items (items : list spec_float) :
  Forall (fun x => valid_binary 24 128 x = true) items ->
  map np.to_float32 (map np.to_float64 items) = items.
Proof.
  induction 1 as [|x items Hx _ IH]; [reflexivity|].
  cbn [map]. now rewrite IH, to_float32_to_float64.
Qed.

Lemma deserialize_inv (blob : list byte) (v : list float) :
  _deserialize_embeddings blob = Ok v ->
  Z.of_nat (List.length blob) mod 4 = 0
  /\ v = map np.to_float64 (np.items_of_buffer blob).
Proof.
  intros Hv.
  destruct (Z.eq_dec (Z.of_nat (List.length blob) mod 4) 0) as [Hmod|Hmod].
  - rewrite (deserialize_whole _ Hmod) in Hv. injection Hv as <-. now split.
  - rewrite (deserialize_ragged _ Hmod) in Hv. discriminate.
Qed.

Lemma serialize_widened (items : list spec_float) :
  Forall (fun x => valid_binary 24 128 x = true) items ->
  _serialize_embeddings (map np.to_float64 items) = np.tobytes items.
Proof.
  intros Hitems. destruct items as [|x items]; [reflexivity|].
  unfold _serialize_embeddings. cbn [map].
  change (np.to_float32 (np.to_float64 x)
          :: map np.to_float32 (map np.to_float64 items))
    with (map np.to_float32 (map np.to_float64 (x :: items))).
  now rewrite narrow_widened_items.
Qed.

(** An embedding read from a blob is on the binary32 grid already: storing
    it and reading it again returns the very same list of floats.  The
    codec loses precision on the first save only. *)
Theorem decoded_embedding_survives_reencoding (blob : list byte)
    (v : list float) :
  _deserialize_embeddings blob = Ok v ->
  _deserialize_embeddings (_serialize_embeddings v) = Ok v.
Proof.
  intros Hv. destruct (deserialize_inv blob v Hv) as [_ ->].
  pose proof (items_of_buffer_valid blob) as Hitems.
  rewrite (serialize_widened _ Hitems).
  destruct (np.items_of_buffer blob) as [|x items] eqn:Hx; [reflexivity|].
  unfold _deserialize_embeddings.
  assert (Hne : np.tobytes (x :: items) <> []).
  { intros Hnil. apply (f_equal (@List.length byte)) in Hnil.
    rewrite length_tobytes in Hnil. cbn in Hnil. lia. }
  destruct (np.tobytes (x :: items)) as [|b bytes] eqn:Hbytes;
    [now elim Hne|].
  now rewrite <- Hbytes, (frombuffer_tobytes _ Hitems).
Qed.

Lemma decoded_embedding_survives_reencoding_witness :
  _deserialize_embeddings [x00; x00; x80; x3f; xcd; xcc; xcc; x3d]
  = Ok [Float.one; S754_finite false 7205759511166976 (-56)]
  /\ _deserialize_embeddings
       (_serialize_embeddings
          [Float.one; S754_finite false 7205759511166976 (-56)])
     = Ok [Float.one; S754_finite false 7205759511166976 (-56)].
Proof.
  assert (H : _deserialize_embeddings
                [x00; x00; x80; x3f; xcd; xcc; xcc; x3d]
              = Ok [Float.one; S754_finite false 7205759511166976 (-56)])
    by (vm_compute; reflexivity).
  split; [exact H|].
  exact (decoded_embedding_survives_reencoding _ _ H).
Defined.

(** *** Decoding, then encoding *)

Lemma Z_of_byte_range (b : byte) : 0 <= np.Z_of_byte b < 256.
Proof.
  unfold np.Z_of_byte. pose proof (Byte.to_N_bounded b). lia.
Qed.

Lemma byte_of_Z_of_byte (b : byte) : np.byte_of_Z (np.Z_of_byte b) = b.
Proof.
  unfold np.byte_of_Z.
  rewrite Z.mod_small by apply Z_of_byte_range.
  unfold np.Z_of_byte. now rewrite N2Z.id, Byte.of_to_N.
Qed.

Lemma byte_of_Z_mod (z : Z) : np.byte_of_Z z = np.byte_of_Z (z mod 256).
Proof.
  unfold np.byte_of_Z. now rewrite Z.mod_mod by lia.
Qed.

Lemma word_of_bytes_range (b0 b1 b2 b3 : byte) :
  0 <= np.word_of_bytes b0 b1 b2 b3 < 2 ^ 32.
Proof.
  unfold np.word_of_bytes.
  pose proof (Z_of_byte_range b0). pose proof (Z_of_byte_range b1).
  pose proof (Z_of_byte_range b2). pose proof (Z_of_byte_range b3).
  change (2 ^ 8) with 256. change (2 ^ 16) with 65536.
  change (2 ^ 24) with 16777216. change (2 ^ 32) with 4294967296. lia.
Qed.

Lemma bytes_of_word_of_bytes (b0 b1 b2 b3 : byte) :
  np.bytes_of_word (np.word_of_bytes b0 b1 b2 b3) = [b0; b1; b2; b3].
Proof.
  unfold np.bytes_of_word.
  pose proof (Z_of_byte_range b0) as H0.
  pose proof (Z_of_byte_range b1) as H1.
  pose proof (Z_of_byte_range b2) as H2.
  pose proof (Z_of_byte_range b3) as H3.
  set (w := np.word_of_bytes b0 b1 b2 b3).
  assert (E0 : w mod 256 = np.Z_of_byte b0).
  { subst w. unfold np.word_of_bytes.
    change (2 ^ 8) with 256. change (2 ^ 16) with 65536.
    change (2 ^ 24) with 16777216. Z.div_mod_to_equations. lia. }
  assert (E1 : (w / 2 ^ 8) mod 256 = np.Z_of_byte b1).
  { subst w. unfold np.word_of_bytes.
    change (2 ^ 8) with 256. change (2 ^ 16) with 65536.
    change (2 ^ 24) with 16777216. Z.div_mod_to_equations. lia. }
  assert (E2 : (w / 2 ^ 16) mod 256 = np.Z_of_byte b2).
  { subst w. unfold np.word_of_bytes.
    change (2 ^ 8) with 256. change (2 ^ 16) with 65536.
    change (2 ^ 24) with 16777216. Z.div_mod_to_equations. lia. }
  assert (E3 : (w / 2 ^ 24) mod 256 = np.Z_of_byte b3).
  { subst w. unfold np.word_of_bytes.
    change (2 ^ 8) with 256. change (2 ^ 16) with 65536.
    change (2 ^ 24) with 16777216. Z.div_mod_to_equations. lia. }
  rewrite (byte_of_Z_mod w), (byte_of_Z_mod (w / 2 ^ 8)),
    (byte_of_Z_mod (w / 2 ^ 16)), (byte_of_Z_mod (w / 2 ^ 24)).
  now rewrite E0, E1, E2, E3, !byte_of_Z_of_byte.
Qed.

Lemma word_fields (w : Z) :
  0 <= w < 2 ^ 32 ->
  w = np.sign_bit (2 ^ 31 <=? w) + (w / 2 ^ 23) mod 2 ^ 8 * 2 ^ 23
      + w mod 2 ^ 23.
Proof.
  intros Hw. unfold np.sign_bit.
  destruct (Z.leb_spec (2 ^ 31) w); pow_consts;
    Z.div_mod_to_equations; lia.
Qed.

Lemma bits_of_float32_of_bits (w : Z) :
  0 <= w < 2 ^ 32 ->
  Float.is_nan (np.float32_of_bits w) = false ->
  np.bits_of_float32 (np.float32_of_bits w) = w.
Proof.
  intros Hw. rewrite (word_fields w Hw) at 3.
  unfold np.float32_of_bits. cbv zeta.
  assert (Hex : 0 <= (w / 2 ^ 23) mod 2 ^ 8 < 2 ^ 8)
    by (apply Z.mod_pos_bound; pow_consts; lia).
  assert (Hfr : 0 <= w mod 2 ^ 23 < 2 ^ 23)
    by (apply Z.mod_pos_bound; pow_consts; lia).
  set (s := 2 ^ 31 <=? w) in *.
  set (ex := (w / 2 ^ 23) mod 2 ^ 8) in *.
  set (fr := w mod 2 ^ 23) in *.
  destruct (Z.eqb_spec ex 0) as [H0|H0].
  - rewrite H0. destruct fr as [|m|m] eqn:Hm; intros _;
      cbn [np.bits_of_float32]; try lia.
    destruct (Z.leb_spec (2 ^ 23) (Zpos m)); lia.
  - destruct (Z.eqb_spec ex 255) as [H255|H255].
    + rewrite H255. destruct (Z.eqb_spec fr 0) as [Hf|Hf];
        [|discriminate].
      intros _. cbn [np.bits_of_float32]. lia.
    + destruct (fr + 2 ^ 23) as [|m|m] eqn:Hm; try discriminate.
      intros _. cbn [np.bits_of_float32].
      destruct (Z.leb_spec (2 ^ 23) (Zpos m)); lia.
Qed.

Lemma to_float64_is_nan (x : spec_float) :
  Float.is_nan (np.to_float64 x) = Float.is_nan x.
Proof.
  destruct x; try reflexivity. apply binary_round_not_nan.
Qed.

Lemma tobytes_items_of_buffer (buf : list byte) :
  Z.of_nat (List.length buf) mod 4 = 0 ->
  Forall (fun x => Float.is_nan x = false) (np.items_of_buffer buf) ->
  np.tobytes (np.items_of_buffer buf) = buf.
Proof.
  induction buf as [| b0 | b0 b1 | b0 b1 b2 | b0 b1 b2 b3 rest IH]
    using buffer_ind; try reflexivity; try discriminate.
  intros Hmod Hnan. cbn [np.items_of_buffer] in *.
  inversion Hnan as [|? ? Hx Hrest]; subst.
  unfold np.tobytes in *. cbn [flat_map].
  rewrite (bits_of_float32_of_bits _ (word_of_bytes_range b0 b1 b2 b3) Hx).
  rewrite bytes_of_word_of_bytes. cbn [app]. rewrite IH; auto.
  cbn [List.length] in Hmod. rewrite !Nat2Z.inj_succ in Hmod.
  Z.div_mod_to_equations. lia.
Qed.

(** A stored blob that decodes to an embedding without NaN is restored
    byte for byte when that embedding is encoded again: reading a meeting
    and saving its embedding leaves the blob as it was. *)
Theorem reencoding_restores_blob (blob : list byte) (v : list float) :
  _deserialize_embeddings blob = Ok v ->
  Forall (fun y => Float.is_nan y = false) v ->
  _serialize_embeddings v = blob.
Proof.
  intros Hv Hnan. destruct (deserialize_inv blob v Hv) as [Hmod ->].
  rewrite (serialize_widened _ (items_of_buffer_valid blob)).
  apply tobytes_items_of_buffer; [exact Hmod|].
  apply Forall_forall. intros x Hx.
  rewrite <- to_float64_is_nan.
  revert Hnan. rewrite Forall_forall. intros Hnan. apply Hnan.
  now apply in_map.
Qed.

Lemma reencoding_restores_blob_witness :
  _deserialize_embeddings [x00; x00; x80; x3f; xcd; xcc; xcc; x3d]
  = Ok [Float.one; S754_finite false 7205759511166976 (-56)]
  /\ _serialize_embeddings
       [Float.one; S754_finite false 7205759511166976 (-56)]
     = [x00; x00; x80; x3f; xcd; xcc; xcc; x3d].
Proof.
  assert (H : _deserialize_embeddings
                [x00; x00; x80; x3f; xcd; xcc; xcc; x3d]
              = Ok [Float.one; S754_finite false 7205759511166976 (-56)])
    by (vm_compute; reflexivity).
  split; [exact H|].
  apply (reencoding_restores_blob _ _ H). repeat constructor.
Defined.

(** ** Saving and deleting *)

Lemma largest_id_bound (db : database) (bound : Z) :
  0 <= bound ->
  Forall (fun row => row_id row <= bound) db ->
  0 <= largest_id db <= bound.
Proof.
  intros Hb. induction 1 as [|row db Hrow _ IH]; cbn [largest_id fold_right].
  - lia.
  - fold (largest_id db). lia.
Qed.

Lemma next_id_well_formed (st : Store) :
  well_formed st -> next_id st = sequence st + 1.
Proof.
  intros (Hseq & Hids & _). unfold next_id.
  assert (0 <= largest_id (meetings st) <= sequence st).
  { apply largest_id_bound; [exact Hseq|].
    revert Hids. apply Forall_impl. intros row Hrow. lia. }
  lia.
Qed.

Lemma sorted_ids_app (db : database) (row : Row) :
  StronglySorted Z.lt (map row_id db) ->
  Forall (fun r => row_id r < row_id row) db ->
  StronglySorted Z.lt (map row_id (db ++ [row])).
Proof.
  induction db as [|r db IH]; cbn [map app]; intros Hs Hlt.
  - repeat constructor.
  - apply StronglySorted_inv in Hs as [Hs Hr].
    inversion Hlt as [|? ? Hr' Hlt']; subst.
    constructor; [now apply IH|].
    rewrite map_app. apply Forall_app. split; [exact Hr|].
    cbn [map]. now repeat constructor.
Qed.

Lemma sorted_ids_filter (f : Row -> bool) (db : database) :
  StronglySorted Z.lt (map row_id db) ->
  StronglySorted Z.lt (map row_id (filter f db)).
Proof.
  induction db as [|r db IH]; cbn [map filter]; intros Hs; [constructor|].
  apply StronglySorted_inv in Hs as [Hs Hr].
  destruct (f r); [|auto].
  cbn [map]. constructor; [auto|].
  apply Forall_forall. intros i Hi.
  apply in_map_iff in Hi as [r' [<- Hr']]. apply filter_In in Hr' as [Hr' _].
  revert Hr. rewrite Forall_forall. intros Hr. apply Hr. now apply in_map.
Qed.

Lemma sorted_ids_NoDup (db : database) :
  StronglySorted Z.lt (map row_id db) -> NoDup (map row_id db).
Proof.
  induction (map row_id db) as [|i ids IH]; intros Hs; [constructor|].
  apply StronglySorted_inv in Hs as [Hs Hi].
  constructor; [|auto].
  intros Hin. revert Hi. rewrite Forall_forall. intros Hi.
  specialize (Hi i Hin). lia.
Qed.

Section PersistenceFacts.
Variable dumps_lists : MeetingData -> result unit.
Variable insert_children : MeetingData -> Z -> result unit.

(** What a successful [save_try] did. *)
Lemma save_try_ok (st st' : Store) (md : MeetingData) (meeting_id : Z) :
  save_try dumps_lists insert_children st md = Ok (st', meeting_id) ->
  exists title date,
    md_title md = Some (Some title)
    /\ md_date md = Some (Some date)
    /\ meeting_id = next_id st
    /\ meeting_id <= 2 ^ 63 - 1
    /\ st' = {| meetings :=
                  meetings st
                  ++ [{| row_id := meeting_id;
                         row_title := title;
                         row_date := date;
                         row_summary := dict_get (md_summary md) ""%string;
                         row_transcript :=
                           dict_get (md_transcript md) ""%string;
                         row_embeddings :=
                           Some match dict_get (md_embeddings md) [] with
                                | Some embeddings =>
                                    _serialize_embeddings embeddings
                                | None => []
                                end |}];
                sequence := meeting_id |}.
Proof.
  unfold save_try. intros H.
  destruct (md_title md) as [[title|]|]; cbn [dict_item bind] in H;
    destruct (md_date md) as [[date|]|]; cbn [dict_item bind] in H;
    try discriminate;
    destruct (dumps_lists md) as [[]|e]; cbn [bind not_null] in H;
    try discriminate.
  destruct (Z.ltb_spec (2 ^ 63 - 1) (next_id st)); [discriminate|].
  destruct (insert_children md (next_id st)) as [[]|e]; cbn [bind] in H;
    [|discriminate].
  injection H as <- <-. exists title, date. repeat split. exact H0.
Qed.

(** [save_meeting] and [delete_meeting] keep the table in order: starting
    from the empty table, every id is positive, no two rows share an id and
    the rows stand in ascending order of their ids. *)
Theorem stores_stay_well_formed (st : Store) (md : MeetingData)
    (meeting_id : Z) :
  well_formed empty_store
  /\ (well_formed st ->
      well_formed (snd (save_meeting dumps_lists insert_children st md))
      /\ well_formed (snd (delete_meeting st meeting_id))
      /\ NoDup (map row_id (meetings st))).
Proof.
  split; [repeat split; cbn; try lia; constructor|].
  intros Hwf. pose proof Hwf as (Hseq & Hids & Hsorted).
  split; [|split].
  - unfold save_meeting.
    destruct (save_try dumps_lists insert_children st md) as [[st' i]|e]
      eqn:Hsave; cbn [snd]; [|exact Hwf].
    destruct (save_try_ok _ _ _ _ Hsave) as (t & d & _ & _ & Hi & _ & ->).
    rewrite (next_id_well_formed st Hwf) in Hi.
    unfold well_formed. cbn [meetings sequence].
    split; [lia|]. split.
    + apply Forall_app. split.
      * revert Hids. apply Forall_impl. intros r Hr. lia.
      * repeat constructor; cbn [row_id]; lia.
    + apply sorted_ids_app; [exact Hsorted|].
      revert Hids. apply Forall_impl. intros r Hr. cbn [row_id]. lia.
  - unfold delete_meeting.
    destruct (existsb _ (meetings st)); cbn [snd]; [|exact Hwf].
    unfold well_formed. cbn [meetings sequence].
    split; [exact Hseq|]. split.
    + apply Forall_forall. intros r Hr. apply filter_In in Hr as [Hr _].
      revert r Hr. now apply Forall_forall.
    + now apply sorted_ids_filter.
  - now apply sorted_ids_NoDup.
Qed.

End PersistenceFacts.

(** The round trip of the codec without the restriction to finite items
    (a NaN comes back as a NaN). *)
Lemma deserialize_serialize_all (v : list float) :
  _deserialize_embeddings (_serialize_embeddings v)
  = Ok (map (fun x => np.to_float64 (np.to_float32 x)) v).
Proof.
  destruct v as [|x v]; [reflexivity|].
  unfold _serialize_embeddings.
  set (arr := map np.to_float32 (x :: v)).
  assert (Harr : Forall (fun y => valid_binary 24 128 y = true) arr).
  { apply Forall_forall. intros y Hy. apply in_map_iff in Hy as [z [<- _]].
    apply to_float32_valid. }
  assert (Hblob : np.tobytes arr <> []).
  { intros Hnil. apply (f_equal (@List.length byte)) in Hnil.
    rewrite length_tobytes in Hnil. subst arr. cbn in Hnil. lia. }
  unfold _deserialize_embeddings.
  destruct (np.tobytes arr) as [|b blob] eqn:Hbytes; [now elim Hblob|].
  rewrite <- Hbytes, (frombuffer_tobytes arr Harr). cbn [bind].
  subst arr. now rewrite map_map.
Qed.

Lemma find_app_last (f : Row -> bool) (db : database) (row : Row) :
  find f (db ++ [row])
  = match find f db with
    | Some found => Some found
    | None => if f row then Some row else None
    end.
Proof.
  induction db as [|r db IH]; cbn [app find]; [reflexivity|].
  now destruct (f r).
Qed.

Lemma find_none_below (db : database) (meeting_id : Z) :
  Forall (fun row => row_id row < meeting_id) db ->
  find (fun row => row_id row =? meeting_id) db = None.
Proof.
  induction 1 as [|row db Hrow _ IH]; cbn [find]; [reflexivity|].
  destruct (Z.eqb_spec (row_id row) meeting_id); [lia | exact IH].
Qed.

Section SaveFacts.
Variable dumps_lists : MeetingData -> result unit.
Variable insert_children : MeetingData -> Z -> result unit.

Lemma save_meeting_outcome (st : Store) (md : MeetingData) :
  well_formed st ->
  match save_meeting dumps_lists insert_children st md with
  | ((Some meeting_id, log), st') =>
      log = []
      /\ meeting_id = sequence st + 1
      /\ sequence st' = meeting_id
      /\ Forall (fun row => row_id row < meeting_id) (meetings st)
      /\ exists row, meetings st' = meetings st ++ [row]
                     /\ row_id row = meeting_id
  | ((None, log), st') => st' = st /\ exists msg, log = [msg]
  end.
Proof.
  intros Hwf. unfold save_meeting.
  destruct (save_try dumps_lists insert_children st md) as [[st' i]|e]
    eqn:Hsave; [|split; [reflexivity | eexists; reflexivity]].
  destruct (save_try_ok _ _ _ _ _ _ Hsave) as (t & d & _ & _ & Hi & _ & ->).
  rewrite (next_id_well_formed st Hwf) in Hi.
  cbn [meetings sequence].
  split; [reflexivity|]. split; [exact Hi|]. split; [reflexivity|]. split.
  - destruct Hwf as (_ & Hids & _). revert Hids. apply Forall_impl.
    intros r Hr. lia.
  - eexists. split; reflexivity.
Qed.

(** On a well-formed store a successful [save_meeting] reports nothing,
    appends exactly one row and gives it an id larger than every id in the
    table and than every id given before; a failed one returns [None] with
    one message and leaves the store as it was.  [delete_meeting] never
    lowers the sequence, so the id of a deleted meeting is not given
    again. *)
Theorem save_gives_fresh_id (st : Store) (md : MeetingData) (m : Z) :
  well_formed st ->
  match save_meeting dumps_lists insert_children st md with
  | ((Some meeting_id, log), st') =>
      log = []
      /\ meeting_id = sequence st + 1
      /\ sequence st' = meeting_id
      /\ Forall (fun row => row_id row < meeting_id) (meetings st)
      /\ exists row, meetings st' = meetings st ++ [row]
                     /\ row_id row = meeting_id
  | ((None, log), st') => st' = st /\ exists msg, log = [msg]
  end
  /\ sequence (snd (delete_meeting st m)) = sequence st.
Proof.
  intros Hwf. split.
  - now apply save_meeting_outcome.
  - unfold delete_meeting. now destruct (existsb _ (meetings st)).
Qed.

(** A meeting saved with the embedding [v] is found under its new id, with
    the encoding of [v] as blob, and [get_meeting_by_id] returns it when
    its details load; what the searches decode for it is [v] with every
    item rounded to binary32.  The other ids find what they found
    before. *)
Theorem saved_embedding_reads_back (st st' : Store) (md : MeetingData)
    (meeting_id : Z) (log : list string) (v : list float) :
  well_formed st ->
  save_meeting dumps_lists insert_children st md
  = ((Some meeting_id, log), st') ->
  md_embeddings md = Some (Some v) ->
  (exists row,
     find (fun r => row_id r =? meeting_id) (meetings st') = Some row
     /\ row_id row = meeting_id
     /\ row_embeddings row = Some (_serialize_embeddings v)
     /\ forall load_details,
          load_details row = Ok tt ->
          get_meeting_by_id load_details (meetings st') meeting_id
          = (Some row, []))
  /\ stored_embedding (meetings st') meeting_id
     = map (fun x => np.to_float64 (np.to_float32 x)) v
  /\ (forall other,
        other <> meeting_id ->
        find (fun r => row_id r =? other) (meetings st')
        = find (fun r => row_id r =? other) (meetings st)).
Proof.
  intros Hwf Hsave Hemb.
  pose proof (save_meeting_outcome st md Hwf) as Hfresh.
  unfold save_meeting in *.
  destruct (save_try dumps_lists insert_children st md) as [[st1 i]|e]
    eqn:Htry; [|discriminate].
  injection Hsave as <- <- <-.
  destruct Hfresh as (_ & _ & _ & Hbelow & _).
  destruct (save_try_ok _ _ _ _ _ _ Htry) as (t & d & _ & _ & _ & _ & ->).
  cbn [meetings]. rewrite Hemb. cbn [dict_get].
  assert (Hfind : find (fun r => row_id r =? i)
                    (meetings st
                     ++ [{| row_id := i;
                            row_title := t;
                            row_date := d;
                            row_summary := dict_get (md_summary md) ""%string;
                            row_transcript :=
                              dict_get (md_transcript md) ""%string;
                            row_embeddings :=
                              Some (_serialize_embeddings v) |}])
                  = Some {| row_id := i;
                            row_title := t;
                            row_date := d;
                            row_summary := dict_get (md_summary md) ""%string;
                            row_transcript :=
                              dict_get (md_transcript md) ""%string;
                            row_embeddings :=
                              Some (_serialize_embeddings v) |}).
  { rewrite find_app_last, (find_none_below _ _ Hbelow).
    cbn [row_id]. now rewrite Z.eqb_refl. }
  split; [|split].
  - eexists. split; [exact Hfind|]. split; [reflexivity|].
    split; [reflexivity|].
    intros ld Hld. unfold get_meeting_by_id. now rewrite Hfind, Hld.
  - unfold stored_embedding. rewrite Hfind.
    now rewrite deserialize_serialize_all.
  - intros other Hother. rewrite find_app_last. cbn [row_id].
    destruct (find _ (meetings st)); [reflexivity|].
    now destruct (Z.eqb_spec i other); [congruence|].
Qed.

End SaveFacts.

Lemma sample_store_well_formed : well_formed sample_store.
Proof.
  unfold well_formed, sample_store. cbn [meetings sequence].
  split; [lia|]. split.
  - repeat constructor; cbn; lia.
  - cbn. repeat constructor; lia.
Qed.

Lemma stores_stay_well_formed_witness :
  well_formed sample_store
  /\ well_formed
       (snd (save_meeting sample_dumps sample_children sample_store
               (sample_meeting_data [Float.one; Float.zero]))).
Proof.
  split; [exact sample_store_well_formed|].
  exact (proj1 (proj2 (stores_stay_well_formed sample_dumps sample_children
                         sample_store
                         (sample_meeting_data [Float.one; Float.zero]) 1)
                  sample_store_well_formed)).
Defined.

Lemma save_gives_fresh_id_witness :
  well_formed sample_store
  /\ fst (fst (save_meeting sample_dumps sample_children sample_store
                 (sample_meeting_data [Float.one; Float.zero])))
     = Some 4.
Proof.
  split; [exact sample_store_well_formed|].
  pose proof (save_gives_fresh_id sample_dumps sample_children sample_store
                (sample_meeting_data [Float.one; Float.zero]) 1
                sample_store_well_formed) as [H _].
  destruct (save_meeting sample_dumps sample_children sample_store
              (sample_meeting_data [Float.one; Float.zero]))
    as [[[i|] log] st'] eqn:Hsave.
  - destruct H as (_ & -> & _). reflexivity.
  - vm_compute in Hsave. discriminate.
Defined.

Lemma saved_embedding_reads_back_witness :
  exists st',
    well_formed sample_store
    /\ save_meeting sample_dumps sample_children sample_store
         (sample_meeting_data [lit_0_9; lit_0_1])
       = ((Some 4, []), st')
    /\ stored_embedding (meetings st') 4
       = [S754_finite false 8106479114518528 (-53);
          S754_finite false 7205759511166976 (-56)].
Proof.
  eexists. split; [exact sample_store_well_formed|].
  assert (H : save_meeting sample_dumps sample_children sample_store
                (sample_meeting_data [lit_0_9; lit_0_1])
              = ((Some 4, []),
                 snd (save_meeting sample_dumps sample_children sample_store
                        (sample_meeting_data [lit_0_9; lit_0_1]))))
    by reflexivity.
  split; [exact H|].
  exact (proj1 (proj2 (saved_embedding_reads_back sample_dumps
                         sample_children _ _ _ _ _ _
                         sample_store_well_formed H eq_refl))).
Defined.

(** ** A meeting saved without embedding *)

Section UnembeddedFacts.
Variable dumps_lists : MeetingData -> result unit.
Variable insert_children : MeetingData -> Z -> result unit.

(** A meeting saved with an empty or missing embedding -- what the page
    saves when the provider failed and [get_embeddings] returned [[]] -- is
    stored with the empty blob and is never found: no [search_meetings]
    returns it, whatever the query, it is similar to no meeting, and
    [get_similar_meetings] for it returns the empty list. *)
Theorem unembedded_meeting_is_never_found (st st' : Store)
    (md : MeetingData) (meeting_id : Z) (log : list string) :
  well_formed st ->
  save_meeting dumps_lists insert_children st md
  = ((Some meeting_id, log), st') ->
  dict_get (md_embeddings md) [] = None
  \/ dict_get (md_embeddings md) [] = Some [] ->
  (forall embeddings_create threshold query max_results,
     Forall (fun h => hit_id h <> meeting_id)
       (fst (search_meetings_above embeddings_create threshold
               (meetings st') query max_results)))
  /\ (forall load_details other max_results,
        Forall (fun h => hit_id h <> meeting_id)
          (fst (get_similar_meetings load_details (meetings st') other
                  max_results)))
  /\ (forall load_details threshold max_results,
        fst (get_similar_meetings_above load_details threshold
               (meetings st') meeting_id max_results) = [])
  /\ (exists row,
        find (fun r => row_id r =? meeting_id) (meetings st') = Some row
        /\ row_embeddings row = Some []).
Proof.
  intros Hwf Hsave Hemb.
  pose proof (save_meeting_outcome dumps_lists insert_children st md Hwf)
    as Hfresh.
  unfold save_meeting in *.
  destruct (save_try dumps_lists insert_children st md) as [[st1 i]|e]
    eqn:Htry; [|discriminate].
  injection Hsave as <- <- <-.
  destruct Hfresh as (_ & _ & _ & Hbelow & _).
  destruct (save_try_ok _ _ _ _ _ _ Htry) as (t & d & _ & _ & _ & _ & ->).
  cbn [meetings].
  set (row := {| row_id := i;
                 row_title := t;
                 row_date := d;
                 row_summary := dict_get (md_summary md) ""%string;
                 row_transcript := dict_get (md_transcript md) ""%string;
                 row_embeddings :=
                   Some match dict_get (md_embeddings md) [] with
                        | Some embeddings => _serialize_embeddings embeddings
                        | None => []
                        end |}).
  assert (Hblob : row_embeddings row = Some []).
  { subst row. cbn [row_embeddings].
    now destruct Hemb as [-> | ->]. }
  assert (Hold : forall r, In r (meetings st) -> row_id r <> i).
  { intros r Hr. revert Hbelow. rewrite Forall_forall. intros Hb.
    specialize (Hb r Hr). lia. }
  split; [|split; [|split]].
  - intros ec threshold query n. apply Forall_forall. intros h Hh Hid.
    destruct (search_hit_stored ec threshold _ query n h Hh)
      as (r & blob & Hr & Hrblob & Hrid & _ & _ & _ & Hne & _).
    apply in_app_or in Hr as [Hr | [<- | []]].
    + apply (Hold r Hr). congruence.
    + rewrite Hblob in Hrblob. injection Hrblob as <-. now apply Hne.
  - intros ld other n. apply Forall_forall. intros h Hh Hid.
    destruct (Z.eq_dec i other) as [<- | Hother].
    + now apply (similar_above_not_self ld Float.lit_0_2 _ i n h Hh).
    + rewrite (similar_skips_unembedded ld (meetings st) [] row other n
                 (or_intror Hblob) Hother) in Hh.
      rewrite app_nil_r in Hh.
      destruct (similar_hit_stored ld Float.lit_0_2 _ other n h Hh)
        as (r & blob & Hr & _ & _ & Hrid & _).
      apply (Hold r Hr). congruence.
  - intros ld threshold n.
    unfold get_similar_meetings_above, get_meeting_by_id.
    rewrite find_app_last, (find_none_below _ _ Hbelow).
    cbn [row_id]. rewrite Z.eqb_refl.
    destruct (ld row) as [[]|e]; [|reflexivity].
    now rewrite Hblob.
  - exists row. split; [|exact Hblob].
    rewrite find_app_last, (find_none_below _ _ Hbelow).
    cbn [row_id]. now rewrite Z.eqb_refl.
Qed.

End UnembeddedFacts.

Lemma unembedded_meeting_is_never_found_witness :
  exists st',
    well_formed sample_store
    /\ save_meeting sample_dumps sample_children sample_store
         (sample_meeting_data (fst (get_embeddings failing_provider "agenda")))
       = ((Some 4, []), st')
    /\ Forall (fun h => hit_id h <> 4)
         (fst (search_meetings_above sample_provider Float.lit_0_3
                 (meetings st') "budget" 10)).
Proof.
  eexists. split; [exact sample_store_well_formed|].
  assert (H : save_meeting sample_dumps sample_children sample_store
                (sample_meeting_data
                   (fst (get_embeddings failing_provider "agenda")))
              = ((Some 4, []),
                 snd (save_meeting sample_dumps sample_children sample_store
                        (sample_meeting_data
                           (fst (get_embeddings failing_provider
                                   "agenda"))))))
    by reflexivity.
  split; [exact H|].
  exact (proj1 (unembedded_meeting_is_never_found sample_dumps
                  sample_children _ _ _ _ _ sample_store_well_formed H
                  (or_intror eq_refl))
           sample_provider Float.lit_0_3 "budget"%string 10).
Defined.

(** ** Deleting a meeting *)

Lemma filter_absent (db : database) (meeting_id : Z) :
  existsb (fun row => row_id row =? meeting_id) db = false ->
  filter (fun row => negb (row_id row =? meeting_id)) db = db.
Proof.
  induction db as [|row db IH]; cbn [existsb filter]; [reflexivity|].
  intros H. apply orb_false_iff in H as [Hrow Hdb].
  rewrite Hrow. cbn [negb]. now rewrite IH.
Qed.

Lemma meetings_after_delete (st : Store) (meeting_id : Z) :
  meetings (snd (delete_meeting st meeting_id))
  = filter (fun row => negb (row_id row =? meeting_id)) (meetings st).
Proof.
  unfold delete_meeting.
  destruct (existsb _ (meetings st)) eqn:Hex; cbn [snd meetings];
    [reflexivity|].
  symmetry. now apply filter_absent.
Qed.

Lemma find_filter_other (db : database) (meeting_id other : Z) :
  other <> meeting_id ->
  find (fun r => row_id r =? other)
    (filter (fun row => negb (row_id row =? meeting_id)) db)
  = find (fun r => row_id r =? other) db.
Proof.
  intros Hother. induction db as [|row db IH]; [reflexivity|].
  cbn [filter find].
  destruct (Z.eqb_spec (row_id row) meeting_id) as [Hid|Hid]; cbn [negb].
  - destruct (Z.eqb_spec (row_id row) other); [lia | exact IH].
  - cbn [find]. now rewrite IH.
Qed.

Lemma find_filter_self (db : database) (meeting_id : Z) :
  find (fun r => row_id r =? meeting_id)
    (filter (fun row => negb (row_id row =? meeting_id)) db) = None.
Proof.
  induction db as [|row db IH]; [reflexivity|].
  cbn [filter].
  destruct (row_id row =? meeting_id) eqn:Hid; cbn [negb]; [exact IH|].
  cbn [find]. now rewrite Hid.
Qed.

(** [delete_meeting] returns [True] exactly when the table has a row with
    that id.  Afterwards the id is gone: [get_meeting_by_id] finds nothing
    and reports nothing, [get_similar_meetings] for it returns the empty
    list without message, no search and no list of similar meetings
    contains it, and deleting it again returns [False] and changes
    nothing.  Every other id finds what it found before. *)
Theorem deleted_meeting_is_gone (st : Store) (meeting_id : Z) :
  (fst (delete_meeting st meeting_id) = true
   <-> exists row, In row (meetings st) /\ row_id row = meeting_id)
  /\ (forall load_details,
        get_meeting_by_id load_details
          (meetings (snd (delete_meeting st meeting_id))) meeting_id
        = (None, []))
  /\ (forall load_details threshold max_results,
        get_similar_meetings_above load_details threshold
          (meetings (snd (delete_meeting st meeting_id))) meeting_id
          max_results = ([], []))
  /\ (forall embeddings_create threshold query max_results,
        Forall (fun h => hit_id h <> meeting_id)
          (fst (search_meetings_above embeddings_create threshold
                  (meetings (snd (delete_meeting st meeting_id))) query
                  max_results)))
  /\ (forall load_details threshold other max_results,
        Forall (fun h => hit_id h <> meeting_id)
          (fst (get_similar_meetings_above load_details threshold
                  (meetings (snd (delete_meeting st meeting_id))) other
                  max_results)))
  /\ delete_meeting (snd (delete_meeting st meeting_id)) meeting_id
     = (false, snd (delete_meeting st meeting_id))
  /\ (forall other,
        other <> meeting_id ->
        find (fun r => row_id r =? other)
          (meetings (snd (delete_meeting st meeting_id)))
        = find (fun r => row_id r =? other) (meetings st)).
Proof.
  assert (Hgone : forall r,
            In r (meetings (snd (delete_meeting st meeting_id))) ->
            row_id r <> meeting_id).
  { intros r Hr. rewrite meetings_after_delete in Hr.
    apply filter_In in Hr as [_ Hr]. apply negb_true_iff in Hr.
    now apply Z.eqb_neq. }
  split; [|split; [|split; [|split; [|split; [|split]]]]].
  - unfold delete_meeting.
    destruct (existsb _ (meetings st)) eqn:Hex; cbn [fst].
    + split; [intros _ | reflexivity].
      apply existsb_exists in Hex as [row [Hrow Hid]].
      exists row. split; [exact Hrow | now apply Z.eqb_eq].
    + split; [discriminate|]. intros [row [Hrow Hid]].
      assert (existsb (fun r => row_id r =? meeting_id) (meetings st) = true).
      { apply existsb_exists. exists row. split; [exact Hrow|].
        now apply Z.eqb_eq. }
      congruence.
  - intros ld. unfold get_meeting_by_id.
    now rewrite meetings_after_delete, find_filter_self.
  - intros ld threshold n.
    unfold get_similar_meetings_above, get_meeting_by_id.
    now rewrite meetings_after_delete, find_filter_self.
  - intros ec threshold query n. apply Forall_forall. intros h Hh.
    destruct (search_hit_stored ec threshold _ query n h Hh)
      as (r & blob & Hr & _ & -> & _).
    now apply Hgone.
  - intros ld threshold other n. apply Forall_forall. intros h Hh.
    destruct (similar_hit_stored ld threshold _ other n h Hh)
      as (r & blob & Hr & _ & _ & -> & _).
    now apply Hgone.
  - unfold delete_meeting at 1.
    replace (existsb (fun row => row_id row =? meeting_id)
               (meetings (snd (delete_meeting st meeting_id))))
      with false; [reflexivity|].
    symmetry. apply not_true_is_false. intros Hex.
    apply existsb_exists in Hex as [row [Hrow Hid]].
    apply (Hgone row Hrow). now apply Z.eqb_eq.
  - intros other Hother.
    now rewrite meetings_after_delete, find_filter_other.
Qed.

Lemma deleted_meeting_is_gone_witness :
  3 <> 1
  /\ fst (delete_meeting sample_store 1) = true
  /\ find (fun r => row_id r =? 3)
       (meetings (snd (delete_meeting sample_store 1)))
     = find (fun r => row_id r =? 3) (meetings sample_store).
Proof.
  assert (H : 3 <> 1) by discriminate.
  split; [exact H|].
  pose proof (deleted_meeting_is_gone sample_store 1)
    as (Hfound & _ & _ & _ & _ & _ & Hother).
  split; [|exact (Hother 3 H)].
  apply Hfound. eexists. split; [left; reflexivity | reflexivity].
Defined.

(** ** Similar meetings are mutually similar *)

Lemma find_unique (db : database) (row : Row) :
  NoDup (map row_id db) -> In row db ->
  find (fun r => row_id r =? row_id row) db = Some row.
Proof.
  induction db as [|r db IH]; cbn [map find]; intros Hnd Hin; [contradiction|].
  inversion Hnd as [|? ? Hr Hdb]; subst.
  destruct Hin as [-> | Hin].
  - now rewrite Z.eqb_refl.
  - destruct (Z.eqb_spec (row_id r) (row_id row)) as [Heq|Hne]; [|auto].
    elim Hr. rewrite Heq. now apply in_map.
Qed.

Lemma length_select_embedded (db : database) :
  (List.length (select_embedded db) <= List.length db)%nat.
Proof.
  induction db as [|row db IH]; [apply Nat.le_refl|].
  unfold select_embedded in *. cbn [flat_map].
  rewrite length_app. destruct (row_embeddings row); cbn [List.length]; lia.
Qed.

Lemma length_select_embedded_except (db : database) (meeting_id : Z) :
  (List.length (select_embedded_except db meeting_id) <= List.length db)%nat.
Proof.
  unfold select_embedded_except.
  pose proof (length_select_embedded
                (filter (fun row => negb (row_id row =? meeting_id)) db)).
  pose proof (filter_length_le
                (fun row => negb (row_id row =? meeting_id)) db).
  lia.
Qed.

(** A non-empty list of similar meetings tells how the run went. *)
Lemma get_similar_meetings_inv (load_details : Row -> result unit)
    (threshold : float) (db : database) (meeting_id max_results : Z)
    (h : Hit) :
  In h (fst (get_similar_meetings_above load_details threshold db meeting_id
               max_results)) ->
  exists row blob v results,
    find (fun r => row_id r =? meeting_id) db = Some row
    /\ row_embeddings row = Some blob
    /\ _deserialize_embeddings blob = Ok v
    /\ v <> []
    /\ stored_embedding db meeting_id = v
    /\ similar_loop threshold v (select_embedded_except db meeting_id) []
       = Ok results
    /\ In h (rank results max_results).
Proof.
  unfold get_similar_meetings_above, get_meeting_by_id, similar_try,
    stored_embedding.
  destruct (find _ db) as [row|]; cbn [fst]; [|contradiction].
  destruct (load_details row) as [[]|e]; cbn [fst]; [|contradiction].
  destruct row as [i t d s tr [[|b blob]|]]; cbn [row_embeddings fst];
    try contradiction.
  destruct (_deserialize_embeddings (b :: blob)) as [v|e] eqn:Hv;
    cbn [bind fst]; [|contradiction].
  destruct (similar_loop threshold v
              (select_embedded_except db meeting_id) [])
    as [results|e] eqn:Hloop; cbn [bind fst]; [|contradiction].
  intros Hh. eexists. exists (b :: blob), v, results.
  repeat split; auto. exact (deserialize_nonempty _ _ _ Hv).
Qed.

Lemma score_inv (q : list float) (blob : list byte) (s : float) :
  score q blob = Some s ->
  exists v, _deserialize_embeddings blob = Ok v
            /\ _cosine_similarity q v = Ok s.
Proof.
  unfold score. destruct (_deserialize_embeddings blob) as [v|e] eqn:Hv;
    [|discriminate].
  destruct (_cosine_similarity q v) as [s'|e] eqn:Hs; [|discriminate].
  intros H. injection H as <-. now exists v.
Qed.

(** When meeting [b] is returned as similar to meeting [a], then [a] is
    returned as similar to [b] with the very same score, provided the ids
    of the table are distinct, the listing for [b] does not fail and its
    cap does not cut.  (The threshold is one that [0.0] does not exceed,
    as [0.2] is.) *)
Theorem similar_meetings_are_mutual (load_details : Row -> result unit)
    (threshold : float) (db : database) (a n n' : Z) (h : Hit)
    (out' : list Hit) :
  NoDup (map row_id db) ->
  Float.gtb Float.zero threshold = false ->
  In h (fst (get_similar_meetings_above load_details threshold db a n)) ->
  similar_outcome load_details threshold db (hit_id h) n' = Ok out' ->
  Z.of_nat (List.length db) <= n' ->
  get_similar_meetings_above load_details threshold db (hit_id h) n'
  = (out', [])
  /\ exists h', In h' out' /\ hit_id h' = a
                /\ similarity h' = similarity h.
Proof.
  intros Hnd Hthr Hh Hout Hcap.
  split.
  { pose proof (get_similar_meetings_handles load_details threshold db
                  (hit_id h) n') as Hhandles.
    now rewrite Hout in Hhandles. }
  destruct (get_similar_meetings_inv _ _ _ _ _ _ Hh)
    as (rowa & bloba & va & resa & Hfinda & Hbloba & Hva & Hvane & Hsta
        & Hloopa & Hrank).
  apply In_rank in Hrank.
  destruct (similar_loop_hits _ _ _ _ _ Hloopa h Hrank)
    as [[] | (rowb & blobb & Hinb & Hidb & _ & _ & _ & Hscore & _)].
  pose proof (similar_loop_filter _ _ _ _ _ Hloopa) as Hfa.
  cbn [map app] in Hfa.
  destruct (hit_from_candidate _ _ _ _ h Hfa Hrank) as (_ & _ & _ & _ & Hgt).
  pose proof (In_select_embedded_except _ _ _ Hinb) as [Hrowb Hba].
  unfold select_embedded_except in Hinb.
  apply In_select_embedded in Hinb as [_ Hblobb]. cbn [fst snd] in *.
  destruct (score_inv _ _ _ Hscore) as (vb & Hvb & Hcos).
  (* the blob of [b] is not empty *)
  assert (Hbne : blobb <> []).
  { intros ->. cbn in Hvb. injection Hvb as <-.
    rewrite cosine_not_aligned in Hcos by (now destruct va).
    injection Hcos as Hs. rewrite <- Hs in Hgt. congruence. }
  (* the run for [b] *)
  pose proof (find_unique db rowb Hnd Hrowb) as Hfindb.
  rewrite <- Hidb in Hfindb.
  apply find_some in Hfinda as [Hrowa Hida]. apply Z.eqb_eq in Hida.
  unfold similar_outcome, similar_try in Hout. rewrite Hfindb in Hout.
  destruct (load_details rowb) as [[]|e]; cbn [bind] in Hout;
    [|discriminate].
  rewrite Hblobb in Hout.
  destruct blobb as [|c blobb]; [now elim Hbne|].
  rewrite Hvb in Hout. cbn [bind] in Hout.
  destruct (similar_loop threshold vb
              (select_embedded_except db (hit_id h)) [])
    as [resb|e] eqn:Hloopb; cbn [bind] in Hout; [|discriminate].
  injection Hout as <-.
  (* [a] is a candidate of that run and scores the same *)
  assert (Hcand : In (rowa, bloba) (select_embedded_except db (hit_id h))).
  { unfold select_embedded_except. apply In_select_embedded. cbn [fst snd].
    split; [|exact Hbloba].
    apply filter_In. split; [exact Hrowa|].
    apply negb_true_iff, Z.eqb_neq. congruence. }
  assert (Hsa : score vb bloba = Some (similarity h)).
  { apply (score_of _ _ va); [exact Hva|].
    unfold _cosine_similarity.
    now rewrite (cosine_similarity_try_comm vb va). }
  pose proof (similar_loop_filter _ _ _ _ _ Hloopb) as Hfb.
  cbn [map app] in Hfb.
  assert (Hn : Z.of_nat
                 (List.length (select_embedded_except db (hit_id h)))
               <= n').
  { pose proof (length_select_embedded_except db (hit_id h)). lia. }
  assert (Habove : above threshold vb (rowa, bloba) = true).
  { unfold above. cbn [snd]. now rewrite Hsa. }
  apply (kept_iff_above _ _ _ _ _ _ Hfb Hn Hcand) in Habove.
  apply in_map_iff in Habove as [h' [Hh' Hin']].
  exists h'. split; [exact Hin'|].
  unfold scored_hit, scored_candidate in Hh'. cbn [fst snd] in Hh'.
  rewrite Hsa in Hh'. injection Hh' as Hid Hsim. split; congruence.
Qed.

Lemma similar_meetings_are_mutual_witness :
  let h := {| hit_id := 3;
              hit_title := "weekly";
              hit_date := "2024-05-02";
              hit_summary := Some "notes"%string;
              hit_transcript := None;
              similarity := S754_finite false 8952108829732552 (-53) |} in
  In h (fst (get_similar_meetings_above sample_details Float.lit_0_2
               sample_db 1 3))
  /\ exists h',
       In h' (fst (get_similar_meetings_above sample_details Float.lit_0_2
                     sample_db 3 3))
       /\ hit_id h' = 1 /\ similarity h' = similarity h.
Proof.
  intros h.
  assert (Hh : In h (fst (get_similar_meetings_above sample_details
                            Float.lit_0_2 sample_db 1 3)))
    by (vm_compute; left; reflexivity).
  split; [exact Hh|].
  assert (Hnd : NoDup (map row_id sample_db)).
  { cbn. repeat constructor; cbn; intuition discriminate. }
  assert (Hout : similar_outcome sample_details Float.lit_0_2 sample_db
                   (hit_id h) 3
                 = Ok (fst (get_similar_meetings_above sample_details
                              Float.lit_0_2 sample_db 3 3)))
    by (vm_compute; reflexivity).
  exact (proj2 (similar_meetings_are_mutual sample_details Float.lit_0_2
                  sample_db 1 3 3 h _ Hnd eq_refl Hh Hout
                  ltac:(cbn; lia))).
Defined.

(** ** A query of another dimension *)

Lemma search_loop_all_skipped (threshold : float) (q : list float)
    (rows : list (Row * list byte)) :
  Float.gtb Float.zero threshold = false ->
  (forall c, In c rows ->
             exists v, _deserialize_embeddings (snd c) = Ok v
                       /\ List.length q <> List.length v) ->
  forall acc, search_loop threshold q rows acc = Ok acc.
Proof.
  intros Hthr. induction rows as [|[row blob] rows IH]; intros Hall acc;
    [reflexivity|].
  destruct (Hall (row, blob) (or_introl eq_refl)) as (v & Hv & Hlen).
  cbn [snd] in Hv.
  rewrite (search_loop_skips threshold q v row blob rows acc Hthr Hv Hlen).
  apply IH. intros c Hc. apply Hall. now right.
Qed.

(** When the provider embeds the query in another dimension than every
    stored vector -- after a change of the embedding model, say --
    [search_meetings] finds nothing and reports nothing: the caller cannot
    tell this from a search without matches. *)
Theorem foreign_dimension_finds_nothing
    (embeddings_create : string -> result (list float)) (db : database)
    (query : string) (max_results : Z) (q : list float) :
  embeddings_create query = Ok q ->
  (forall c, In c (select_embedded db) ->
             exists v, _deserialize_embeddings (snd c) = Ok v
                       /\ List.length q <> List.length v) ->
  search_meetings embeddings_create db query max_results = ([], []).
Proof.
  intros Hq Hall.
  unfold search_meetings, search_meetings_above, get_embeddings, search_try.
  rewrite Hq. destruct q as [|x q]; [reflexivity|].
  rewrite (search_loop_all_skipped Float.lit_0_3 (x :: q) _
             gtb_zero_lit_0_3 Hall []).
  cbn [bind]. now rewrite rank_nil.
Qed.

Lemma foreign_dimension_finds_nothing_witness :
  search_meetings (fun _ => Ok [Float.one; Float.zero; Float.zero])
    sample_db "budget" 10
  = ([], []).
Proof.
  apply (foreign_dimension_finds_nothing
           (fun _ => Ok [Float.one; Float.zero; Float.zero]) sample_db
           "budget" 10 [Float.one; Float.zero; Float.zero] eq_refl).
  intros c [<-|[<-|[<-|[]]]]; eexists;
    (split; [vm_compute; reflexivity | discriminate]).
Defined.

(** ** The cap keeps the best matches *)

Lemma sorted_app_inv {A : Type} (R : A -> A -> Prop) (l1 l2 : list A) :
  StronglySorted R (l1 ++ l2) ->
  forall x y, In x l1 -> In y l2 -> R x y.
Proof.
  induction l1 as [|z l1 IH]; cbn [app]; intros Hs x y Hx Hy;
    [contradiction|].
  apply StronglySorted_inv in Hs as [Hs Hz].
  destruct Hx as [-> | Hx]; [|now apply (IH Hs)].
  revert Hz. rewrite Forall_forall. intros Hz. apply Hz.
  apply in_or_app. now right.
Qed.

Lemma rank_keeps_best (threshold : float) (q : list float)
    (candidates : list (Row * list byte)) (results : list Hit) (n : Z)
    (h : Hit) (c : Row * list byte) :
  map scored_hit results
  = map (scored_candidate q) (filter (above threshold q) candidates) ->
  In h (rank results n) ->
  In c candidates -> above threshold q c = true ->
  ~ In (scored_candidate q c) (map scored_hit (rank results n)) ->
  exists s, score q (snd c) = Some s
            /\ Float.leb s (similarity h) = true.
Proof.
  intros Heq Hh Hc Habove Hout.
  assert (Hin : In (scored_candidate q c) (map scored_hit results)).
  { rewrite Heq. apply in_map. now apply filter_In. }
  apply in_map_iff in Hin as [h' [Hh' Hin']].
  assert (Hsorted : StronglySorted desc_similarity
                      (Py.sort_desc similarity results)).
  { apply sort_desc_sorted. apply Forall_forall. intros x Hx.
    destruct (hit_from_candidate _ _ _ _ x Heq Hx) as [_ [_ [_ [_ Hgt]]]].
    exact (gtb_ordered _ _ Hgt). }
  destruct (prefix_slice_to (Py.sort_desc similarity results) n)
    as [rest Hrest].
  fold (rank results n) in Hrest.
  assert (Hh'' : In h' (rank results n ++ rest))
    by (rewrite Hrest; now apply In_sort_desc).
  apply in_app_or in Hh'' as [Hkept | Hcut].
  - elim Hout. rewrite <- Hh'. now apply in_map.
  - rewrite <- Hrest in Hsorted.
    pose proof (sorted_app_inv _ _ _ Hsorted h h' Hh Hcut) as Hle.
    exists (similarity h'). split; [|exact Hle].
    unfold scored_hit, scored_candidate in Hh'. now injection Hh'.
Qed.

(** What the cap cuts off is never better than what is returned: a
    candidate above the threshold that is missing from the result of
    [search_meetings] or [get_similar_meetings] scores at most as high as
    every entry of that result. *)
Theorem results_are_the_best_matches
    (embeddings_create : string -> result (list float))
    (load_details : Row -> result unit) (threshold : float) (db : database)
    (query : string) (meeting_id max_results : Z) (h : Hit)
    (c : Row * list byte) :
  (In h (fst (search_meetings_above embeddings_create threshold db query
                max_results)) ->
   In c (select_embedded db) -> nonempty_blob c = true ->
   above threshold (fst (get_embeddings embeddings_create query)) c = true ->
   ~ In (scored_candidate (fst (get_embeddings embeddings_create query)) c)
       (map scored_hit
          (fst (search_meetings_above embeddings_create threshold db query
                  max_results))) ->
   exists s,
     score (fst (get_embeddings embeddings_create query)) (snd c) = Some s
     /\ Float.leb s (similarity h) = true)
  /\ (In h (fst (get_similar_meetings_above load_details threshold db
                   meeting_id max_results)) ->
      In c (select_embedded_except db meeting_id) ->
      above threshold (stored_embedding db meeting_id) c = true ->
      ~ In (scored_candidate (stored_embedding db meeting_id) c)
          (map scored_hit
             (fst (get_similar_meetings_above load_details threshold db
                     meeting_id max_results))) ->
      exists s,
        score (stored_embedding db meeting_id) (snd c) = Some s
        /\ Float.leb s (similarity h) = true).
Proof.
  split.
  - destruct (search_meetings_ranked embeddings_create threshold db query
                max_results) as [H | [results [Hloop H]]]; rewrite H;
      [contradiction|].
    intros Hh Hc Hne Habove Hout.
    apply search_loop_filter in Hloop. cbn [map app] in Hloop.
    apply (rank_keeps_best _ _ _ _ _ h c Hloop Hh); auto.
    now apply filter_In.
  - destruct (get_similar_meetings_ranked load_details threshold db
                meeting_id max_results) as [H | [results [Hloop H]]];
      rewrite H; [contradiction|].
    intros Hh Hc Habove Hout.
    apply similar_loop_filter in Hloop. cbn [map app] in Hloop.
    exact (rank_keeps_best _ _ _ _ _ h c Hloop Hh Hc Habove Hout).
Qed.

Lemma results_are_the_best_matches_witness :
  let h := {| hit_id := 1;
              hit_title := "weekly";
              hit_date := "2024-05-02";
              hit_summary := Some "notes"%string;
              hit_transcript := Some "hello"%string;
              similarity := Float.one |} in
  let c := (sample_row 3 [lit_0_9; lit_0_1],
            _serialize_embeddings [lit_0_9; lit_0_1]) in
  In h (fst (search_meetings_above sample_provider Float.lit_0_3 sample_db
               "budget" 1))
  /\ exists s,
       score (fst (get_embeddings sample_provider "budget")) (snd c) = Some s
       /\ Float.leb s (similarity h) = true.
Proof.
  intros h c.
  assert (Hh : In h (fst (search_meetings_above sample_provider
                            Float.lit_0_3 sample_db "budget" 1)))
    by (vm_compute; left; reflexivity).
  split; [exact Hh|].
  apply (proj1 (results_are_the_best_matches sample_provider sample_details
                  Float.lit_0_3 sample_db "budget" 1 1 h c) Hh).
  - do 2 right. left. reflexivity.
  - reflexivity.
  - vm_compute. reflexivity.
  - vm_compute. intros [H | []]. discriminate.
Defined.
